(** * BeagleLogic kernel driver: buffer ring, capture state machine,
      interrupt bridge, consumer interface and stop protocol.

    A shallow embedding of [kernel/beaglelogic.c].  The driver's
    [struct beaglelogicdev] becomes a record, every driver function a
    function on that record, and everything the driver cannot decide by
    itself (what the DMA allocator returns, which interrupts fire while a
    caller sleeps, whether a signal arrives, what the firmware answers)
    is an explicit argument of the function that depends on it.

    Conventions.  Integers are [Z] with the wrap-around of the C type
    written out where it can occur.  A [struct logic_buffer *] is the
    position of the buffer in [bldev->buffers], or NULL.  The mutex is a
    boolean.  Interrupts are served between calls and while a caller
    sleeps, on [bldev->wait] or on the mutex; the handler runs to
    completion each time. *)

From stdpp Require Import base numbers list.

Local Open Scope Z_scope.

(** ** Machine integers *)

(** [uint32_t] arithmetic wraps modulo 2^32. *)
Definition wrap32 (x : Z) : Z := x mod 2 ^ 32.

(** [unsigned short] (the type of [logic_buffer.index]). *)
Definition wrap16 (x : Z) : Z := x mod 2 ^ 16.

(** Conversion of a 32-bit pattern to [int]. *)
Definition to_int32 (x : Z) : Z :=
  let y := wrap32 x in if y <? 2 ^ 31 then y else y - 2 ^ 32.

(** [DIV_ROUND_UP(n, d)] is [((n) + (d) - 1) / (d)], here on [uint32_t]. *)
Definition DIV_ROUND_UP (n d : Z) : Z := wrap32 (n + d - 1) / d.

(** ** Constants of the driver *)

(** [enum bufstates] *)
Definition STATE_BL_BUF_ALLOC : Z := 0.
Definition STATE_BL_BUF_MAPPED : Z := 1.
Definition STATE_BL_BUF_UNMAPPED : Z := 2.
Definition STATE_BL_BUF_DROPPED : Z := 3.

(** [enum beaglelogic_states] *)
Definition STATE_BL_DISABLED : Z := 0.
Definition STATE_BL_INITIALIZED : Z := 1.
Definition STATE_BL_MEMALLOCD : Z := 2.
Definition STATE_BL_ARMED : Z := 3.
Definition STATE_BL_RUNNING : Z := 4.
Definition STATE_BL_REQUEST_STOP : Z := 5.
Definition STATE_BL_ERROR : Z := 6.

(** [enum beaglelogic_triggerflags] *)
Definition BL_TRIGGERFLAGS_ONESHOT : Z := 0.
Definition BL_TRIGGERFLAGS_CONTINUOUS : Z := 1.

(** Firmware commands *)
Definition CMD_GET_VERSION : Z := 1.
Definition CMD_GET_MAX_SG : Z := 2.
Definition CMD_SET_CONFIG : Z := 3.
Definition CMD_START : Z := 4.

(** errno values *)
Definition EIO : Z := 5.
Definition ENOEXEC : Z := 8.
Definition EAGAIN : Z := 11.
Definition ENOMEM : Z := 12.
Definition EFAULT : Z := 14.
Definition EBUSY : Z := 16.
Definition EINVAL : Z := 22.
Definition ERESTARTSYS : Z := 512.

(** [whence] values of [llseek] *)
Definition SEEK_SET : Z := 0.
Definition SEEK_CUR : Z := 1.

(** ** Outcomes of a call *)

(** A driver entry point either returns, or puts its caller to sleep with
    nothing left that would wake it, or dereferences an invalid pointer
    (or divides by zero), or is still looping when the fuel given to a
    loop without a structural bound runs out. *)
Inductive outcome (A : Type) : Type :=
| Done (a : A)
| Blocks
| Fault
| Spins.

Arguments Done {A} a.
Arguments Blocks {A}.
Arguments Fault {A}.
Arguments Spins {A}.

Definition obind {A B : Type} (m : outcome A) (f : A -> outcome B) : outcome B :=
  match m with
  | Done a => f a
  | Blocks => Blocks
  | Fault => Fault
  | Spins => Spins
  end.

Notation "'do' x <- m ; k" := (obind m (fun x => k))
  (at level 10, x pattern, m at level 100, k at level 200,
   format "'[v' 'do'  x  <-  m ; '/' k ']'").

(** ** Data model *)

(** [struct logic_buffer].  [next] points into the same array: [Some j] is
    [&buffers[j]] and [None] is NULL. *)
Record logic_buffer : Type := mk_logic_buffer {
  buf : Z;            (* kernel virtual address, 0 is NULL *)
  phys_addr : Z;
  size : Z;
  buf_state : Z;      (* [state], one of [enum bufstates] *)
  index : Z;
  next : option nat
}.

(** The shared capture context in PRU0 SRAM (the descriptor table is not
    needed here). *)
Record capture_context : Type := mk_capture_context {
  cmd : Z;
  resp : Z;
  samplediv : Z;
  cxt_sampleunit : Z;
  cxt_triggerflags : Z;
  stop_flag : Z
}.

(** [struct beaglelogicdev], restricted to the fields the coordinator
    reads or writes.  A [struct logic_buffer *] is [None] for NULL and
    [Some i] for [&buffers[i]]; [buffers] is [None] for NULL and the
    array otherwise. *)
Record beaglelogicdev : Type := mk_beaglelogicdev {
  from_bl_irq_1 : Z;
  from_bl_irq_2 : Z;
  coreclockfreq : Z;
  mutex : bool;
  buffers : option (list logic_buffer);
  lastbufready : option nat;
  bufbeingread : option nat;
  bufcount : Z;
  cxt_pru : capture_context;
  maxbufcount : Z;
  bufunitsize : Z;
  samplerate : Z;
  triggerflags : Z;
  sampleunit : Z;
  state : Z;
  lasterror : Z
}.

(** [struct logic_buffer_reader] (the back pointer [bldev] is the device
    passed along with the reader). *)
Record logic_buffer_reader : Type := mk_reader {
  rd_buf : option nat;
  pos : Z;
  remaining : Z
}.

(** *** Field updates *)

Definition set_buf_state (b : logic_buffer) (s : Z) : logic_buffer :=
  mk_logic_buffer (buf b) (phys_addr b) (size b) s (index b) (next b).

Definition set_mutex (d : beaglelogicdev) (v : bool) : beaglelogicdev :=
  mk_beaglelogicdev (from_bl_irq_1 d) (from_bl_irq_2 d) (coreclockfreq d) v
    (buffers d) (lastbufready d) (bufbeingread d) (bufcount d) (cxt_pru d)
    (maxbufcount d) (bufunitsize d) (samplerate d) (triggerflags d)
    (sampleunit d) (state d) (lasterror d).

Definition set_buffers (d : beaglelogicdev) (v : option (list logic_buffer))
  : beaglelogicdev :=
  mk_beaglelogicdev (from_bl_irq_1 d) (from_bl_irq_2 d) (coreclockfreq d)
    (mutex d) v (lastbufready d) (bufbeingread d) (bufcount d) (cxt_pru d)
    (maxbufcount d) (bufunitsize d) (samplerate d) (triggerflags d)
    (sampleunit d) (state d) (lasterror d).

Definition set_lastbufready (d : beaglelogicdev) (v : option nat)
  : beaglelogicdev :=
  mk_beaglelogicdev (from_bl_irq_1 d) (from_bl_irq_2 d) (coreclockfreq d)
    (mutex d) (buffers d) v (bufbeingread d) (bufcount d) (cxt_pru d)
    (maxbufcount d) (bufunitsize d) (samplerate d) (triggerflags d)
    (sampleunit d) (state d) (lasterror d).

Definition set_bufbeingread (d : beaglelogicdev) (v : option nat)
  : beaglelogicdev :=
  mk_beaglelogicdev (from_bl_irq_1 d) (from_bl_irq_2 d) (coreclockfreq d)
    (mutex d) (buffers d) (lastbufready d) v (bufcount d) (cxt_pru d)
    (maxbufcount d) (bufunitsize d) (samplerate d) (triggerflags d)
    (sampleunit d) (state d) (lasterror d).

Definition set_bufcount (d : beaglelogicdev) (v : Z) : beaglelogicdev :=
  mk_beaglelogicdev (from_bl_irq_1 d) (from_bl_irq_2 d) (coreclockfreq d)
    (mutex d) (buffers d) (lastbufready d) (bufbeingread d) v (cxt_pru d)
    (maxbufcount d) (bufunitsize d) (samplerate d) (triggerflags d)
    (sampleunit d) (state d) (lasterror d).

Definition set_cxt_pru (d : beaglelogicdev) (v : capture_context)
  : beaglelogicdev :=
  mk_beaglelogicdev (from_bl_irq_1 d) (from_bl_irq_2 d) (coreclockfreq d)
    (mutex d) (buffers d) (lastbufready d) (bufbeingread d) (bufcount d) v
    (maxbufcount d) (bufunitsize d) (samplerate d) (triggerflags d)
    (sampleunit d) (state d) (lasterror d).

Definition set_samplerate (d : beaglelogicdev) (v : Z) : beaglelogicdev :=
  mk_beaglelogicdev (from_bl_irq_1 d) (from_bl_irq_2 d) (coreclockfreq d)
    (mutex d) (buffers d) (lastbufready d) (bufbeingread d) (bufcount d)
    (cxt_pru d) (maxbufcount d) (bufunitsize d) v (triggerflags d)
    (sampleunit d) (state d) (lasterror d).

Definition set_state (d : beaglelogicdev) (v : Z) : beaglelogicdev :=
  mk_beaglelogicdev (from_bl_irq_1 d) (from_bl_irq_2 d) (coreclockfreq d)
    (mutex d) (buffers d) (lastbufready d) (bufbeingread d) (bufcount d)
    (cxt_pru d) (maxbufcount d) (bufunitsize d) (samplerate d)
    (triggerflags d) (sampleunit d) v (lasterror d).

Definition set_lasterror (d : beaglelogicdev) (v : Z) : beaglelogicdev :=
  mk_beaglelogicdev (from_bl_irq_1 d) (from_bl_irq_2 d) (coreclockfreq d)
    (mutex d) (buffers d) (lastbufready d) (bufbeingread d) (bufcount d)
    (cxt_pru d) (maxbufcount d) (bufunitsize d) (samplerate d)
    (triggerflags d) (sampleunit d) (state d) v.

Definition set_triggerflags (d : beaglelogicdev) (v : Z) : beaglelogicdev :=
  mk_beaglelogicdev (from_bl_irq_1 d) (from_bl_irq_2 d) (coreclockfreq d)
    (mutex d) (buffers d) (lastbufready d) (bufbeingread d) (bufcount d)
    (cxt_pru d) (maxbufcount d) (bufunitsize d) (samplerate d) v
    (sampleunit d) (state d) (lasterror d).

Definition set_sampleunit (d : beaglelogicdev) (v : Z) : beaglelogicdev :=
  mk_beaglelogicdev (from_bl_irq_1 d) (from_bl_irq_2 d) (coreclockfreq d)
    (mutex d) (buffers d) (lastbufready d) (bufbeingread d) (bufcount d)
    (cxt_pru d) (maxbufcount d) (bufunitsize d) (samplerate d)
    (triggerflags d) v (state d) (lasterror d).

(** ** Device configuration *)


(** [mutex_trylock] and [mutex_unlock].  Releasing a mutex that is not held
    leaves it free (what the kernel does when mutex debugging is off). *)
Definition mutex_trylock (d : beaglelogicdev) : bool * beaglelogicdev :=
  if mutex d then (false, d) else (true, set_mutex d true).

Definition mutex_unlock (d : beaglelogicdev) : beaglelogicdev :=
  set_mutex d false.

Definition mutex_is_locked (d : beaglelogicdev) : bool := mutex d.

(** [beaglelogic_set_samplerate] *)
Definition beaglelogic_set_samplerate (d : beaglelogicdev) (rate : Z)
  : Z * beaglelogicdev :=
  if (coreclockfreq d / 2 <? rate) || (rate <? 1) then (- EINVAL, d)
  else
    let '(got, d1) := mutex_trylock d in
    if got then
      let d2 := set_samplerate d1
                  ((coreclockfreq d1 / 2) / ((coreclockfreq d1 / 2) / rate)) in
      (0, mutex_unlock d2)
    else (- EBUSY, d1).

(** [beaglelogic_set_sampleunit] *)
Definition beaglelogic_set_sampleunit (d : beaglelogicdev) (unit : Z)
  : Z * beaglelogicdev :=
  if 2 <? unit then (- EINVAL, d)
  else
    let '(got, d1) := mutex_trylock d in
    if got then (0, mutex_unlock (set_sampleunit d1 unit))
    else (- EBUSY, d1).

(** [beaglelogic_set_triggerflags] *)
Definition beaglelogic_set_triggerflags (d : beaglelogicdev) (flags : Z)
  : Z * beaglelogicdev :=
  if 1 <? flags then (- EINVAL, d)
  else
    let '(got, d1) := mutex_trylock d in
    if got then (0, mutex_unlock (set_triggerflags d1 flags))
    else (- EBUSY, d1).

(** ** Buffer pointers *)

(** [&bldev->buffers[0]], which is NULL when [buffers] is. *)
Definition buffers_ptr (d : beaglelogicdev) : option nat :=
  match buffers d with
  | Some _ => Some 0%nat
  | None => None
  end.

(** Reading through a [struct logic_buffer *]. *)
Definition deref (d : beaglelogicdev) (p : option nat) : outcome logic_buffer :=
  match p, buffers d with
  | Some i, Some l =>
      match l !! i with
      | Some b => Done b
      | None => Fault
      end
  | _, _ => Fault
  end.

(** Writing [p->state = s]. *)
Definition write_buf_state (d : beaglelogicdev) (p : option nat) (s : Z)
  : outcome beaglelogicdev :=
  match p, buffers d with
  | Some i, Some l =>
      match l !! i with
      | Some b => Done (set_buffers d (Some (<[i := set_buf_state b s]> l)))
      | None => Fault
      end
  | _, _ => Fault
  end.

(** Pointer comparison [p == q]. *)
Definition ptr_eqb (p q : option nat) : bool :=
  match p, q with
  | Some i, Some j => Nat.eqb i j
  | None, None => true
  | _, _ => false
  end.

(** ** Buffer management *)

(** [beaglelogic_map_buffer]: with coherent memory it only checks the
    buffer and never writes its state. *)
Definition beaglelogic_map_buffer (d : beaglelogicdev) (p : option nat)
  : outcome Z :=
  do b <- deref d p;
  if buf_state b =? STATE_BL_BUF_MAPPED then Done 0
  else if negb (phys_addr b =? 0) then Done 0
  else Done (- EINVAL).

(** [beaglelogic_unmap_buffer] *)
Definition beaglelogic_unmap_buffer (d : beaglelogicdev) (p : option nat)
  : outcome beaglelogicdev :=
  write_buf_state d p STATE_BL_BUF_UNMAPPED.

(** Live DMA-coherent regions: (size, cpu address, dma handle). *)
Definition dma_region : Type := Z * Z * Z.

Definition dma_region_eqb (x y : dma_region) : bool :=
  let '(s1, v1, p1) := x in
  let '(s2, v2, p2) := y in
  (s1 =? s2) && (v1 =? v2) && (p1 =? p2).

(** [dma_free_coherent] gives one region back. *)
Fixpoint dma_free_coherent (r : dma_region) (heap : list dma_region)
  : list dma_region :=
  match heap with
  | [] => []
  | x :: rest =>
      if dma_region_eqb r x then rest else x :: dma_free_coherent r rest
  end.

(** What the kernel allocators answer: whether [devm_kzalloc] of the buffer
    list succeeds, and the [(buf, dma_handle)] pair returned by the [i]-th call
    of [dma_alloc_coherent], with [buf = 0] when it fails. *)
Record allocator : Type := mk_allocator {
  kzalloc_ok : bool;
  dma_alloc_coherent : nat -> Z * Z
}.

(** An entry of the zeroed array that [devm_kzalloc] returns. *)
Definition zero_buffer : logic_buffer := mk_logic_buffer 0 0 0 0 0 None.

(** The allocation loop of [beaglelogic_memalloc]: [n] iterations left,
    [i] the loop counter.  The boolean is false when the loop left through
    [goto failrelease]. *)
Fixpoint memalloc_loop (A : allocator) (unit : Z) (cnt : nat) (n i : nat)
    (l : list logic_buffer) (heap : list dma_region)
  : bool * list logic_buffer * list dma_region :=
  match n with
  | O => (true, l, heap)
  | S n' =>
      let '(b, h) := dma_alloc_coherent A i in
      if b =? 0 then (false, l, heap)
      else
        memalloc_loop A unit cnt n' (S i)
          (<[i := mk_logic_buffer b h unit STATE_BL_BUF_MAPPED
                    (wrap16 (Z.of_nat i)) (Some ((i + 1) mod cnt)%nat)]> l)
          ((unit, b, h) :: heap)
  end.

(** The loop under [failrelease]. *)
Fixpoint release_loop (l : list logic_buffer) (heap : list dma_region)
  : list dma_region :=
  match l with
  | [] => heap
  | b :: rest =>
      release_loop rest
        (if buf b =? 0 then heap
         else dma_free_coherent (size b, buf b, phys_addr b) heap)
  end.

(** [beaglelogic_memalloc] *)
Definition beaglelogic_memalloc (A : allocator) (d : beaglelogicdev)
    (bufsize : Z) (heap : list dma_region)
  : outcome (Z * beaglelogicdev * list dma_region) :=
  let '(got, d0) := mutex_trylock d in
  if negb got then Done (- EBUSY, d0, heap)
  else if bufunitsize d0 =? 0 then Fault
  else
    let cnt := to_int32 (Z.max (DIV_ROUND_UP bufsize (bufunitsize d0)) 2) in
    if maxbufcount d0 <? wrap32 cnt then
      Done (- ENOMEM, mutex_unlock d0, heap)
    else
      let d1 := set_bufcount d0 (wrap32 cnt) in
      if negb (kzalloc_ok A) then
        (* failnomem *)
        Done (- ENOMEM, mutex_unlock (set_buffers d1 None), heap)
      else
        let n := Z.to_nat cnt in
        let '(ok, l, heap1) :=
          memalloc_loop A (bufunitsize d1) n n 0 (replicate n zero_buffer) heap in
        if ok then Done (0, mutex_unlock (set_buffers d1 (Some l)), heap1)
        else
          (* failrelease, falling through to failnomem *)
          Done (- ENOMEM,
                mutex_unlock (set_buffers (set_bufcount d1 0) None),
                release_loop l heap1).

(** ** Interrupt handling *)

(** [beaglelogic_serve_irq] *)
Definition beaglelogic_serve_irq (irqno : Z) (d : beaglelogicdev)
  : outcome beaglelogicdev :=
  if irqno =? from_bl_irq_1 d then
    let d1 := set_lastbufready d (bufbeingread d) in
    do d2 <- beaglelogic_unmap_buffer d1 (lastbufready d1);
    do advance <-
      (if negb (triggerflags d2 =? BL_TRIGGERFLAGS_ONESHOT) then Done true
       else
         do b <- deref d2 (bufbeingread d2);
         do nb <- deref d2 (next b);
         Done (negb (index nb =? 0)));
    if advance then
      do b <- deref d2 (bufbeingread d2);
      let d3 := set_bufbeingread d2 (next b) in
      do _ <- beaglelogic_map_buffer d3 (bufbeingread d3);
      Done d3
    else Done d2
  else if irqno =? from_bl_irq_2 d then
    let st := state d in
    if st <=? STATE_BL_ARMED then Done d
    else if negb (st =? STATE_BL_REQUEST_STOP) && negb (st =? STATE_BL_RUNNING)
    then Done (set_state d STATE_BL_ERROR)
    else
      let d1 := set_state d STATE_BL_INITIALIZED in
      if (triggerflags d1 =? BL_TRIGGERFLAGS_ONESHOT)
         && negb (Z.land st STATE_BL_RUNNING =? 0)
      then Done (mutex_unlock d1)
      else Done d1
  else Done d.

(** ** Sleeping *)

(** How a sleep ends when its condition never becomes true. *)
Inductive wait_end : Type := TimeoutElapses | SignalArrives | NothingElse.

(** Why a sleeper was woken. *)
Inductive wake : Type := CondTrue | TimedOut | Interrupted.

(** A caller sleeping on [bldev->wait] (or on the mutex): the condition is
    checked, and as long as it is false the next pending interrupt is
    served and the condition checked again. *)
Fixpoint sleep_until (cond : beaglelogicdev -> outcome bool) (irqs : list Z)
    (e : wait_end) (d : beaglelogicdev) : outcome (wake * beaglelogicdev) :=
  do c <- cond d;
  if (c : bool) then Done (CondTrue, d)
  else
    match irqs with
    | irq :: rest =>
        do d' <- beaglelogic_serve_irq irq d;
        sleep_until cond rest e d'
    | [] =>
        match e with
        | TimeoutElapses => Done (TimedOut, d)
        | SignalArrives => Done (Interrupted, d)
        | NothingElse => Blocks
        end
    end.

(** [wait_event_interruptible]: 0 once the condition holds, -ERESTARTSYS
    on a signal. *)
Definition wait_event_interruptible (cond : beaglelogicdev -> outcome bool)
    (irqs : list Z) (signal : bool) (d : beaglelogicdev)
  : outcome (Z * beaglelogicdev) :=
  do (w, d') <-
    sleep_until cond irqs (if signal then SignalArrives else NothingElse) d;
  match w with
  | CondTrue => Done (0, d')
  | _ => Done (- ERESTARTSYS, d')
  end.

(** [wait_event_interruptible_timeout]: the remaining jiffies (at least 1)
    once the condition holds, 0 when the timeout elapses first,
    -ERESTARTSYS on a signal. *)
Definition wait_event_interruptible_timeout
    (cond : beaglelogicdev -> outcome bool)
    (irqs : list Z) (signal : bool) (d : beaglelogicdev)
  : outcome (Z * beaglelogicdev) :=
  do (w, d') <-
    sleep_until cond irqs (if signal then SignalArrives else TimeoutElapses) d;
  match w with
  | CondTrue => Done (1, d')
  | TimedOut => Done (0, d')
  | Interrupted => Done (- ERESTARTSYS, d')
  end.

(** [mutex_lock]: sleeps, uninterruptibly, until the mutex is free. *)
Definition mutex_lock (irqs : list Z) (d : beaglelogicdev)
  : outcome beaglelogicdev :=
  do (_, d') <-
    sleep_until (fun x => Done (negb (mutex x))) irqs NothingElse d;
  Done (set_mutex d' true).

(** The loop of [beaglelogic_memfree] over [bufcount] entries. *)
Fixpoint memfree_loop (l : list logic_buffer) (n i : nat)
    (heap : list dma_region) : outcome (list dma_region) :=
  match n with
  | O => Done heap
  | S n' =>
      match l !! i with
      | Some b =>
          memfree_loop l n' (S i)
            (if buf b =? 0 then heap
             else dma_free_coherent (size b, buf b, phys_addr b) heap)
      | None => Fault
      end
  end.

(** [beaglelogic_memfree]; [irqs] are the interrupts served while it
    sleeps on the mutex. *)
Definition beaglelogic_memfree (irqs : list Z) (d : beaglelogicdev)
    (heap : list dma_region)
  : outcome (beaglelogicdev * list dma_region) :=
  do d1 <- mutex_lock irqs d;
  match buffers d1 with
  | Some l =>
      do heap' <- memfree_loop l (Z.to_nat (bufcount d1)) 0 heap;
      Done (mutex_unlock (set_bufcount (set_buffers d1 None) 0), heap')
  | None => Done (mutex_unlock d1, heap)
  end.

(** ** Submitting the ring to the firmware *)

(** An entry of the descriptor table in PRU0 SRAM ([struct buflist]):
    [dma_start_addr] and [dma_end_addr], both [uint32_t]. *)
Definition buflist : Type := (Z * Z)%type.

(** The first loop of [beaglelogic_map_and_submit_all_buffers], [n]
    iterations left from [i]: [None] when every buffer was mapped, [Some i]
    when the loop left through [goto fail] at buffer [i]. *)
Fixpoint map_all_loop (n i : nat) (d : beaglelogicdev) : outcome (option nat) :=
  match n with
  | O => Done None
  | S n' =>
      do ret <- beaglelogic_map_buffer d (Some i);
      if negb (ret =? 0) then Done (Some i) else map_all_loop n' (S i) d
  end.

(** [beaglelogic_unmap_buffer] on [n] buffers from [j] on: the loop under
    [fail], and the loop of [IOCTL_BL_CACHE_INVALIDATE]. *)
Fixpoint unmap_loop (n j : nat) (d : beaglelogicdev) : outcome beaglelogicdev :=
  match n with
  | O => Done d
  | S n' =>
      do d' <- beaglelogic_unmap_buffer d (Some j);
      unmap_loop n' (S j) d'
  end.

(** The loop that writes the buffer table: one entry per buffer. *)
Fixpoint buflist_loop (n i : nat) (d : beaglelogicdev) : outcome (list buflist) :=
  match n with
  | O => Done []
  | S n' =>
      do b <- deref d (Some i);
      do rest <- buflist_loop n' (S i) d;
      Done ((wrap32 (phys_addr b), wrap32 (phys_addr b + size b)) :: rest)
  end.

(** [beaglelogic_map_and_submit_all_buffers]: the return value, the
    device, and the entries written to the table from its first slot on
    (the address of the table, [&cxt_pru->list_head], is never NULL). *)
Definition beaglelogic_map_and_submit_all_buffers (d : beaglelogicdev)
  : outcome (Z * beaglelogicdev * list buflist) :=
  let n := Z.to_nat (bufcount d) in
  do failed <- map_all_loop n 0 d;
  match failed with
  | None =>
      do entries <- buflist_loop n 0 d;
      Done (0,
            if negb (bufcount d =? 0) then set_state d STATE_BL_ARMED else d,
            entries ++ [(0, 0)])
  | Some i =>
      do d1 <- unmap_loop i 0 d;
      Done (1, set_state d1 STATE_BL_ERROR, [])
  end.

(** ** The test pattern *)

(** The inner loop of [beaglelogic_fill_buffer_testpattern]: [n] words
    stored from the counter [cnt] on; the words, and the counter after
    them. *)
Fixpoint fill_words (n : nat) (cnt : Z) : list Z * Z :=
  match n with
  | O => ([], cnt)
  | S n' =>
      let '(ws, c) := fill_words n' (wrap32 (cnt + 1)) in (cnt :: ws, c)
  end.

(** Its outer loop: for each buffer the address the words are stored at
    and the words.  Storing through a NULL [buf] faults. *)
Fixpoint testpattern_loop (n i : nat) (d : beaglelogicdev) (cnt : Z)
  : outcome (list (Z * list Z)) :=
  match n with
  | O => Done []
  | S n' =>
      do b <- deref d (Some i);
      let '(ws, c) := fill_words (Z.to_nat (size b / 4)) cnt in
      if (buf b =? 0) && negb (size b / 4 =? 0) then Fault
      else
        do rest <- testpattern_loop n' (S i) d c;
        Done ((buf b, ws) :: rest)
  end.

(** [beaglelogic_fill_buffer_testpattern]: the device and what was stored
    in the buffers. *)
Definition beaglelogic_fill_buffer_testpattern (irqs : list Z)
    (d : beaglelogicdev) : outcome (beaglelogicdev * list (Z * list Z)) :=
  do d1 <- mutex_lock irqs d;
  do stored <- testpattern_loop (Z.to_nat (bufcount d1)) 0 d1 0;
  Done (mutex_unlock d1, stored).

(** ** The environment of a call *)

(** Everything a system call depends on besides the device: the firmware's
    answer to a command ([None] when it does not answer within the polling
    bound), the interrupts that fire while the caller sleeps on the mutex
    and on [bldev->wait], whether a signal arrives after them, the results
    of [rproc_boot] for both PRUs, and whether [copy_to_user] and the
    allocation of the reader fail. *)
Record environment : Type := mk_environment {
  firmware : Z -> option Z;
  lock_irqs : list Z;
  wait_irqs : list Z;
  signal : bool;
  boot_pru0 : Z;
  boot_pru1 : Z;
  copy_fails : bool;
  reader_alloc_fails : bool
}.

(** ** Talking to the firmware *)

Definition set_stop_flag (c : capture_context) (v : Z) : capture_context :=
  mk_capture_context (cmd c) (resp c) (samplediv c) (cxt_sampleunit c)
    (cxt_triggerflags c) v.

(** [beaglelogic_send_cmd]: the command word is written and polled; when
    the firmware clears it in time its response is returned, otherwise -1.
    In the second case the command is taken to be still pending when the
    call returns: an answer that the firmware writes just as the polling
    gives up is a later write of the firmware to [cmd] and [resp]. *)
Definition beaglelogic_send_cmd (fw : Z -> option Z) (d : beaglelogicdev)
    (c : Z) : Z * beaglelogicdev :=
  let x := cxt_pru d in
  match fw c with
  | Some r =>
      (to_int32 r,
       set_cxt_pru d (mk_capture_context 0 (wrap32 r) (samplediv x)
                        (cxt_sampleunit x) (cxt_triggerflags x) (stop_flag x)))
  | None =>
      (-1,
       set_cxt_pru d (mk_capture_context c (resp x) (samplediv x)
                        (cxt_sampleunit x) (cxt_triggerflags x) (stop_flag x)))
  end.

(** [beaglelogic_request_stop]: not a command, only the stop flag is set. *)
Definition beaglelogic_request_stop (d : beaglelogicdev) : beaglelogicdev :=
  set_cxt_pru d (set_stop_flag (cxt_pru d) 1).

(** [beaglelogic_write_configuration]: always returns 0. *)
Definition beaglelogic_write_configuration (E : environment)
    (d : beaglelogicdev) : outcome (Z * beaglelogicdev) :=
  if samplerate d =? 0 then Fault
  else
    let x := cxt_pru d in
    let d1 := set_cxt_pru d
                (mk_capture_context (cmd x) (resp x)
                   ((coreclockfreq d / 2) / samplerate d)
                   (sampleunit d) (triggerflags d) (stop_flag x)) in
    let '(_, d2) := beaglelogic_send_cmd (firmware E) d1 CMD_SET_CONFIG in
    Done (0, d2).

(** ** Start and stop *)

(** [beaglelogic_start] *)
Definition beaglelogic_start (E : environment) (d : beaglelogicdev)
  : outcome (Z * beaglelogicdev) :=
  do d1 <- mutex_lock (lock_irqs E) d;
  let d2 := set_cxt_pru d1 (set_stop_flag (cxt_pru d1) 0) in
  do (ret, d3) <- beaglelogic_write_configuration E d2;
  if negb (ret =? 0) then Done (-1, mutex_unlock d3)
  else
    let d4 := set_bufbeingread d3 (buffers_ptr d3) in
    let '(_, d5) := beaglelogic_send_cmd (firmware E) d4 CMD_START in
    Done (0, set_lasterror (set_state d5 STATE_BL_RUNNING) 0).

(** The forced recovery of [beaglelogic_stop] after a timeout: both PRUs
    are shut down, then booted again. *)
Definition stop_recover (E : environment) (d : beaglelogicdev)
  : beaglelogicdev :=
  if negb (boot_pru0 E =? 0) then set_state d STATE_BL_ERROR
  else if negb (boot_pru1 E =? 0) then set_state d STATE_BL_ERROR
  else set_state d STATE_BL_INITIALIZED.

(** [beaglelogic_stop] *)
Definition beaglelogic_stop (E : environment) (d : beaglelogicdev)
  : outcome beaglelogicdev :=
  if mutex_is_locked d then
    do d1 <-
      (if state d =? STATE_BL_RUNNING then
         let d1 := beaglelogic_request_stop d in
         let d2 := set_state d1 STATE_BL_REQUEST_STOP in
         do (ret, d3) <-
           wait_event_interruptible_timeout
             (fun x => Done (state x =? STATE_BL_INITIALIZED))
             (wait_irqs E) (signal E) d2;
         if ret =? 0 then Done (stop_recover E d3)
         else if ret =? - ERESTARTSYS then
           Done (set_state d3 STATE_BL_INITIALIZED)
         else Done d3
       else Done d);
    Done (mutex_unlock d1)
  else Done d.

(** ** File operations *)

(** The repair loop of [beaglelogic_f_open]; false when a buffer without a
    physical address was found. *)
Fixpoint open_repair_loop (n i : nat) (d : beaglelogicdev)
  : outcome (bool * beaglelogicdev) :=
  match n with
  | O => Done (true, d)
  | S n' =>
      do b <- deref d (Some i);
      if negb (buf_state b =? STATE_BL_BUF_MAPPED) then
        if negb (phys_addr b =? 0) then
          do d' <- write_buf_state d (Some i) STATE_BL_BUF_MAPPED;
          open_repair_loop n' (S i) d'
        else Done (false, d)
      else open_repair_loop n' (S i) d
  end.

(** [beaglelogic_f_open]: the return value and, when the open succeeded,
    the reader hung on the file. *)
Definition beaglelogic_f_open (E : environment) (d : beaglelogicdev)
  : outcome (Z * option logic_buffer_reader * beaglelogicdev) :=
  if bufcount d =? 0 then Done (- ENOMEM, None, d)
  else if reader_alloc_fails E then Done (- ENOMEM, None, d)
  else
    let reader := mk_reader None 0 0 in
    match buffers d with
    | None => Done (- ENOMEM, Some reader, d)
    | Some _ =>
        do d1 <- mutex_lock (lock_irqs E) d;
        do (ok, d2) <- open_repair_loop (Z.to_nat (bufcount d1)) 0 d1;
        if negb ok then Done (- EINVAL, None, mutex_unlock d2)
        else
          let d3 := mutex_unlock d2 in
          do _ <- beaglelogic_map_buffer d3 (buffers_ptr d3);
          Done (0, Some reader, d3)
    end.

(** The drop detection shared by read and seek: a buffer found in state
    Mapped is marked Dropped and the error word records its index. *)
Definition detect_drop (d : beaglelogicdev) (p : option nat)
  : outcome beaglelogicdev :=
  do b <- deref d p;
  if buf_state b =? STATE_BL_BUF_MAPPED then
    do d' <- write_buf_state d p STATE_BL_BUF_DROPPED;
    Done (set_lasterror d' (Z.lor 65536 (index b)))
  else Done d.

(** Moving the reader on once the current buffer is used up. *)
Definition advance_reader (d : beaglelogicdev) (r : logic_buffer_reader)
  : outcome logic_buffer_reader :=
  if remaining r =? 0 then
    do b <- deref d (rd_buf r);
    do nb <- deref d (next b);
    Done (mk_reader (next b) 0 (wrap32 (size nb)))
  else Done r.

(** [beaglelogic_f_read] from the label [perform_copy] on. *)
Definition perform_copy (E : environment) (sz : Z) (r : logic_buffer_reader)
    (d : beaglelogicdev)
  : outcome (Z * logic_buffer_reader * beaglelogicdev) :=
  let count := to_int32 (Z.min (remaining r) sz) in
  do _ <- deref d (rd_buf r);
  if copy_fails E then Done (- EFAULT, r, d)
  else
    do d1 <- detect_drop d (rd_buf r);
    let r1 := mk_reader (rd_buf r) (wrap32 (pos r + count))
                (wrap32 (remaining r - count)) in
    do r2 <- advance_reader d1 r1;
    Done (count, r2, d1).

(** [beaglelogic_f_read] from the readiness check on: a non-blocking
    reader gets -EAGAIN unless the buffer is Unmapped, a blocking one
    sleeps until it is. *)
Definition read_when_ready (E : environment) (nonblock : bool) (sz : Z)
    (r : logic_buffer_reader) (d : beaglelogicdev)
  : outcome (Z * logic_buffer_reader * beaglelogicdev) :=
  if nonblock then
    do b <- deref d (rd_buf r);
    if negb (buf_state b =? STATE_BL_BUF_UNMAPPED)
    then Done (- EAGAIN, r, d)
    else perform_copy E sz r d
  else
    do (ret, d2) <-
      wait_event_interruptible
        (fun x =>
           do b <- deref x (rd_buf r);
           Done (buf_state b =? STATE_BL_BUF_UNMAPPED))
        (wait_irqs E) (signal E) d;
    if negb (ret =? 0) then Done (- ERESTARTSYS, r, d2)
    else perform_copy E sz r d2.

(** [beaglelogic_f_read]; [nonblock] is [filp->f_flags & O_NONBLOCK]. *)
Definition beaglelogic_f_read (E : environment) (nonblock : bool) (sz : Z)
    (r : logic_buffer_reader) (d : beaglelogicdev)
  : outcome (Z * logic_buffer_reader * beaglelogicdev) :=
  if state d =? STATE_BL_ERROR then Done (- EIO, r, d)
  else if 0 <? pos r then perform_copy E sz r d
  else
    do (early, r1, d1) <-
      match rd_buf r with
      | None =>
          (* first time init *)
          do b <- deref d (buffers_ptr d);
          let r1 := mk_reader (buffers_ptr d) (pos r) (wrap32 (size b)) in
          if negb (state d =? STATE_BL_RUNNING) then
            do (ret, d1) <- beaglelogic_start E d;
            if negb (ret =? 0) then Done (Some (- ENOEXEC), r1, d1)
            else Done (None, r1, d1)
          else Done (None, r1, d)
      | Some _ =>
          (* EOF condition, back to buffer 0 and stopped *)
          if ptr_eqb (rd_buf r) (buffers_ptr d)
             && (state d =? STATE_BL_INITIALIZED)
          then Done (Some 0, r, d)
          else Done (None, r, d)
      end;
    match early with
    | Some v => Done (v, r1, d1)
    | None => read_when_ready E nonblock sz r1 d1
    end.

(** The [while (i > 0)] loop of a relative seek.  Nothing bounds its number
    of iterations structurally, so it runs on fuel. *)
Fixpoint llseek_loop (fuel : nat) (i : Z) (r : logic_buffer_reader)
    (d : beaglelogicdev) : outcome (logic_buffer_reader * beaglelogicdev) :=
  if i <=? 0 then Done (r, d)
  else
    match fuel with
    | O => Spins
    | S fuel' =>
        do d1 <- detect_drop d (rd_buf r);
        let j := Z.min (wrap32 i) (remaining r) in
        let r1 := mk_reader (rd_buf r) (wrap32 (pos r + j))
                    (wrap32 (remaining r - j)) in
        do r2 <- advance_reader d1 r1;
        llseek_loop fuel' (i - j) r2 d1
    end.

(** [beaglelogic_f_llseek] *)
Definition beaglelogic_f_llseek (E : environment) (fuel : nat)
    (offset whence : Z) (r : logic_buffer_reader) (d : beaglelogicdev)
  : outcome (Z * logic_buffer_reader * beaglelogicdev) :=
  if whence =? SEEK_CUR then
    do (r', d') <- llseek_loop fuel offset r d;
    Done (offset, r', d')
  else if (whence =? SEEK_SET) && (offset =? 0) then
    let r1 := mk_reader None 0 0 in
    do d1 <- beaglelogic_stop E d;
    do _ <- beaglelogic_map_buffer d1 (buffers_ptr d1);
    Done (0, r1, d1)
  else Done (- EINVAL, r, d).

(** [beaglelogic_f_poll]: the event mask, an [unsigned int]. *)
Definition POLLIN : Z := 1.
Definition POLLRDNORM : Z := 64.

Definition beaglelogic_f_poll (r : logic_buffer_reader) (d : beaglelogicdev)
  : outcome Z :=
  if ptr_eqb (rd_buf r) None && negb (state d =? STATE_BL_RUNNING)
  then Done (wrap32 (- ENOEXEC))
  else
    do b <- deref d (rd_buf r);
    if buf_state b =? STATE_BL_BUF_UNMAPPED then Done (Z.lor POLLIN POLLRDNORM)
    else Done 0.

(** [beaglelogic_f_release]: stop, then the reader is freed. *)
Definition beaglelogic_f_release (E : environment) (d : beaglelogicdev)
  : outcome (Z * beaglelogicdev) :=
  do d1 <- beaglelogic_stop E d;
  Done (0, d1).

(** [beaglelogic_f_mmap].  [remap_fails i] tells whether the [i]-th call
    of [remap_pfn_range] fails; a mapping made is the user address, the
    page frame number and the length. *)
Definition PAGE_SHIFT : Z := 12.

Fixpoint mmap_loop (remap_fails : nat -> bool) (n i : nat)
    (d : beaglelogicdev) (addr : Z) : outcome (bool * list (Z * Z * Z)) :=
  match n with
  | O => Done (true, [])
  | S n' =>
      do b <- deref d (Some i);
      if remap_fails i then Done (false, [])
      else
        do (ok, rest) <-
          mmap_loop remap_fails n' (S i) d (wrap32 (addr + size b));
        Done (ok, (addr, Z.shiftr (phys_addr b) PAGE_SHIFT, size b) :: rest)
  end.

Definition beaglelogic_f_mmap (remap_fails : nat -> bool)
    (vm_start vm_end : Z) (d : beaglelogicdev)
  : outcome (Z * list (Z * Z * Z)) :=
  if wrap32 (bufunitsize d * bufcount d) <? wrap32 (vm_end - vm_start)
  then Done (- EINVAL, [])
  else
    do (ok, maps) <-
      mmap_loop remap_fails (Z.to_nat (bufcount d)) 0 d vm_start;
    Done (if ok then 0 else - EINVAL, maps).

(** *** ioctl *)

(** The command numbers of [beaglelogic.h], built the way
    [asm-generic/ioctl.h] builds them: direction, size of the argument,
    type character and number. *)
Definition ENOTTY : Z := 25.

Definition _IOC (dir type nr sz : Z) : Z :=
  Z.lor (Z.lor (Z.lor (Z.shiftl dir 30) (Z.shiftl type 8)) nr) (Z.shiftl sz 16).

Definition _IO (type nr : Z) : Z := _IOC 0 type nr 0.
Definition _IOW (type nr sz : Z) : Z := _IOC 1 type nr sz.
Definition _IOR (type nr sz : Z) : Z := _IOC 2 type nr sz.

(** The character ['k'] and [sizeof(u32)]. *)
Definition BL_IOC_MAGIC : Z := 107.
Definition SIZEOF_U32 : Z := 4.

Definition IOCTL_BL_GET_VERSION : Z := _IOR BL_IOC_MAGIC 32 SIZEOF_U32.
Definition IOCTL_BL_GET_SAMPLE_RATE : Z := _IOR BL_IOC_MAGIC 33 SIZEOF_U32.
Definition IOCTL_BL_SET_SAMPLE_RATE : Z := _IOW BL_IOC_MAGIC 33 SIZEOF_U32.
Definition IOCTL_BL_GET_SAMPLE_UNIT : Z := _IOR BL_IOC_MAGIC 34 SIZEOF_U32.
Definition IOCTL_BL_SET_SAMPLE_UNIT : Z := _IOW BL_IOC_MAGIC 34 SIZEOF_U32.
Definition IOCTL_BL_GET_TRIGGER_FLAGS : Z := _IOR BL_IOC_MAGIC 35 SIZEOF_U32.
Definition IOCTL_BL_SET_TRIGGER_FLAGS : Z := _IOW BL_IOC_MAGIC 35 SIZEOF_U32.
Definition IOCTL_BL_GET_CUR_INDEX : Z := _IOR BL_IOC_MAGIC 36 SIZEOF_U32.
Definition IOCTL_BL_CACHE_INVALIDATE : Z := _IO BL_IOC_MAGIC 37.
Definition IOCTL_BL_GET_BUFFER_SIZE : Z := _IOR BL_IOC_MAGIC 38 SIZEOF_U32.
Definition IOCTL_BL_SET_BUFFER_SIZE : Z := _IOW BL_IOC_MAGIC 38 SIZEOF_U32.
Definition IOCTL_BL_GET_BUFUNIT_SIZE : Z := _IOR BL_IOC_MAGIC 39 SIZEOF_U32.
Definition IOCTL_BL_SET_BUFUNIT_SIZE : Z := _IOW BL_IOC_MAGIC 39 SIZEOF_U32.
Definition IOCTL_BL_FILL_TEST_PATTERN : Z := _IO BL_IOC_MAGIC 40.
Definition IOCTL_BL_START : Z := _IO BL_IOC_MAGIC 41.
Definition IOCTL_BL_STOP : Z := _IO BL_IOC_MAGIC 42.

(** [round_up(x, y)] for a power of two [y], on 32 bits:
    [(((x) - 1) | ((y) - 1)) + 1]. *)
Definition round_up (x y : Z) : Z := wrap32 (Z.lor (x - 1) (y - 1) + 1).

Definition set_bufunitsize (d : beaglelogicdev) (v : Z) : beaglelogicdev :=
  mk_beaglelogicdev (from_bl_irq_1 d) (from_bl_irq_2 d) (coreclockfreq d)
    (mutex d) (buffers d) (lastbufready d) (bufbeingread d) (bufcount d)
    (cxt_pru d) (maxbufcount d) v (samplerate d) (triggerflags d)
    (sampleunit d) (state d) (lasterror d).

(** What an ioctl leaves behind: its return value, the word it copied to
    the user's address (if any), the reader of the file, the device, the
    DMA heap, the descriptor table it submitted (if any) and the words it
    stored in the buffers. *)
Record ioctl_result : Type := mk_ioctl_result {
  io_ret : Z;
  io_user : option Z;
  io_reader : logic_buffer_reader;
  io_dev : beaglelogicdev;
  io_heap : list dma_region;
  io_table : option (list buflist);
  io_stored : list (Z * list Z)
}.

(** A command that only touches the device. *)
Definition io_plain (ret : Z) (r : logic_buffer_reader) (d : beaglelogicdev)
    (heap : list dma_region) : ioctl_result :=
  mk_ioctl_result ret None r d heap None [].

(** [copy_to_user] of one word, -EFAULT when it fails. *)
Definition io_copy_to_user (E : environment) (v : Z)
    (r : logic_buffer_reader) (d : beaglelogicdev) (heap : list dma_region)
  : ioctl_result :=
  if copy_fails E then io_plain (- EFAULT) r d heap
  else mk_ioctl_result 0 (Some v) r d heap None [].

(** [beaglelogic_f_ioctl]; [arg] is an [unsigned long] of 32 bits. *)
Definition beaglelogic_f_ioctl (E : environment) (A : allocator)
    (cmd arg : Z) (r : logic_buffer_reader) (d : beaglelogicdev)
    (heap : list dma_region) : outcome ioctl_result :=
  if cmd =? IOCTL_BL_GET_VERSION then Done (io_plain 0 r d heap)
  else if cmd =? IOCTL_BL_GET_SAMPLE_RATE then
    Done (io_copy_to_user E (samplerate d) r d heap)
  else if cmd =? IOCTL_BL_SET_SAMPLE_RATE then
    let '(ret, d1) := beaglelogic_set_samplerate d (wrap32 arg) in
    Done (io_plain (if negb (ret =? 0) then - EFAULT else 0) r d1 heap)
  else if cmd =? IOCTL_BL_GET_SAMPLE_UNIT then
    Done (io_copy_to_user E (sampleunit d) r d heap)
  else if cmd =? IOCTL_BL_SET_SAMPLE_UNIT then
    let '(ret, d1) := beaglelogic_set_sampleunit d (wrap32 arg) in
    Done (io_plain (if negb (ret =? 0) then - EFAULT else 0) r d1 heap)
  else if cmd =? IOCTL_BL_GET_TRIGGER_FLAGS then
    Done (io_copy_to_user E (triggerflags d) r d heap)
  else if cmd =? IOCTL_BL_SET_TRIGGER_FLAGS then
    let '(ret, d1) := beaglelogic_set_triggerflags d (wrap32 arg) in
    Done (io_plain (if negb (ret =? 0) then - EFAULT else 0) r d1 heap)
  else if cmd =? IOCTL_BL_GET_CUR_INDEX then
    do b <- deref d (bufbeingread d);
    Done (io_copy_to_user E (index b) r d heap)
  else if cmd =? IOCTL_BL_CACHE_INVALIDATE then
    do d1 <- unmap_loop (Z.to_nat (bufcount d)) 0 d;
    Done (io_plain 0 r d1 heap)
  else if cmd =? IOCTL_BL_GET_BUFFER_SIZE then
    Done (io_copy_to_user E (wrap32 (bufunitsize d * bufcount d)) r d heap)
  else if cmd =? IOCTL_BL_SET_BUFFER_SIZE then
    do (d1, heap1) <- beaglelogic_memfree (lock_irqs E) d heap;
    do (ret, d2, heap2) <- beaglelogic_memalloc A d1 (wrap32 arg) heap1;
    if wrap32 ret =? 0 then
      do (ret', d3, entries) <- beaglelogic_map_and_submit_all_buffers d2;
      Done (mk_ioctl_result ret' None r d3 heap2 (Some entries) [])
    else Done (io_plain (to_int32 ret) r d2 heap2)
  else if cmd =? IOCTL_BL_GET_BUFUNIT_SIZE then
    Done (io_copy_to_user E (bufunitsize d) r d heap)
  else if cmd =? IOCTL_BL_SET_BUFUNIT_SIZE then
    if wrap32 arg <? 32 then Done (io_plain (- EINVAL) r d heap)
    else
      let d1 := set_bufunitsize d (round_up (wrap32 arg) 32) in
      do (d2, heap2) <- beaglelogic_memfree (lock_irqs E) d1 heap;
      Done (io_plain 0 r d2 heap2)
  else if cmd =? IOCTL_BL_FILL_TEST_PATTERN then
    do (d1, stored) <- beaglelogic_fill_buffer_testpattern (lock_irqs E) d;
    Done (mk_ioctl_result 0 None r d1 heap None stored)
  else if cmd =? IOCTL_BL_START then
    do b <- deref d (buffers_ptr d);
    let r1 := mk_reader (buffers_ptr d) 0 (wrap32 (size b)) in
    do (_, d1) <- beaglelogic_start E d;
    Done (io_plain 0 r1 d1 heap)
  else if cmd =? IOCTL_BL_STOP then
    do d1 <- beaglelogic_stop E d;
    Done (io_plain 0 r d1 heap)
  else Done (io_plain (- ENOTTY) r d heap).

(** ** sysfs attributes *)

(** The store functions.  [parsed] is what [kstrtouint] made of the text
    written to the attribute ([None] when it failed), [count] the number of
    bytes written, which a successful store returns. *)

(** [bl_bufunitsize_store] *)
Definition bl_bufunitsize_store (irqs : list Z) (parsed : option Z)
    (count : Z) (d : beaglelogicdev) (heap : list dma_region)
  : outcome (Z * beaglelogicdev * list dma_region) :=
  match parsed with
  | None => Done (- EINVAL, d, heap)
  | Some val =>
      if val <? 32 then Done (- EINVAL, d, heap)
      else
        let d1 := set_bufunitsize d (round_up val 32) in
        do (d2, heap2) <- beaglelogic_memfree irqs d1 heap;
        Done (count, d2, heap2)
  end.

(** [bl_memalloc_store]; the result of the submission is not looked at. *)
Definition bl_memalloc_store (irqs : list Z) (A : allocator)
    (parsed : option Z) (count : Z) (d : beaglelogicdev)
    (heap : list dma_region)
  : outcome (Z * beaglelogicdev * list dma_region * option (list buflist)) :=
  match parsed with
  | None => Done (- EINVAL, d, heap, None)
  | Some val =>
      if wrap32 (maxbufcount d * bufunitsize d) <? val
      then Done (- EINVAL, d, heap, None)
      else
        do (d1, heap1) <- beaglelogic_memfree irqs d heap;
        do (ret, d2, heap2) <- beaglelogic_memalloc A d1 val heap1;
        if ret =? 0 then
          do (_, d3, entries) <- beaglelogic_map_and_submit_all_buffers d2;
          Done (count, d3, heap2, Some entries)
        else Done (ret, d2, heap2, None)
  end.

(** [bl_samplerate_store]: every refusal is reported as -EINVAL. *)
Definition bl_samplerate_store (parsed : option Z) (count : Z)
    (d : beaglelogicdev) : Z * beaglelogicdev :=
  match parsed with
  | None => (- EINVAL, d)
  | Some val =>
      let '(ret, d1) := beaglelogic_set_samplerate d val in
      if negb (ret =? 0) then (- EINVAL, d1) else (count, d1)
  end.

(** [bl_sampleunit_store] and [bl_triggerflags_store] pass the error on. *)
Definition bl_sampleunit_store (parsed : option Z) (count : Z)
    (d : beaglelogicdev) : Z * beaglelogicdev :=
  match parsed with
  | None => (- EINVAL, d)
  | Some val =>
      let '(err, d1) := beaglelogic_set_sampleunit d val in
      if negb (err =? 0) then (err, d1) else (count, d1)
  end.

Definition bl_triggerflags_store (parsed : option Z) (count : Z)
    (d : beaglelogicdev) : Z * beaglelogicdev :=
  match parsed with
  | None => (- EINVAL, d)
  | Some val =>
      let '(err, d1) := beaglelogic_set_triggerflags d val in
      if negb (err =? 0) then (err, d1) else (count, d1)
  end.

(** [bl_state_store]: 1 starts the capture, 0 stops it; what start returns
    is not looked at. *)
Definition bl_state_store (E : environment) (parsed : option Z) (count : Z)
    (d : beaglelogicdev) : outcome (Z * beaglelogicdev) :=
  match parsed with
  | None => Done (- EINVAL, d)
  | Some val =>
      if 1 <? val then Done (- EINVAL, d)
      else if val =? 1 then
        do (_, d1) <- beaglelogic_start E d;
        Done (count, d1)
      else
        do d1 <- beaglelogic_stop E d;
        Done (count, d1)
  end.

(** [bl_testpattern_store]: only the magic number fills the buffers. *)
Definition bl_testpattern_store (irqs : list Z) (parsed : option Z)
    (count : Z) (d : beaglelogicdev)
  : outcome (Z * beaglelogicdev * list (Z * list Z)) :=
  match parsed with
  | None => Done (- EINVAL, d, [])
  | Some val =>
      if val =? 12345678 then
        do (d1, stored) <- beaglelogic_fill_buffer_testpattern irqs d;
        Done (count, d1, stored)
      else Done (count, d, [])
  end.

(** ** The device as [probe] leaves it *)

(** The configuration part of [beaglelogic_probe]: the firmware must
    advertise between 1 and 255 buffers, otherwise the probe fails. *)
Definition beaglelogic_probe (irq1 irq2 : Z) (max_sg : Z)
  : option beaglelogicdev :=
  if (0 <? max_sg) && (max_sg <? 256) then
    Some (mk_beaglelogicdev irq1 irq2 200000000 false None None None 0
            (mk_capture_context 0 (wrap32 max_sg) 0 0 0 0)
            max_sg (4 * 1024 * 1024) (100 * 1000 * 1000) 0 1
            STATE_BL_INITIALIZED 0)
  else None.

(** ** The PRU0 firmware *)

(** [firmware/beaglelogic-pru0.c]: the version, the number of entries of
    the buffer list [cxt.list], and the command the driver never sends. *)
Definition MAJORVER : Z := 0.
Definition MINORVER : Z := 3.
Definition MAX_BUFLIST_ENTRIES : Z := 128.
Definition CMD_STOP : Z := 5.

(** [handle_command]: the response, and the run flag [state_run] after
    the command.  [configure] is what [configure_capture] returns. *)
Definition handle_command (configure state_run cmd : Z) : Z * Z :=
  if cmd =? CMD_GET_VERSION
  then (Z.lor MINORVER (Z.shiftl MAJORVER 8), state_run)
  else if cmd =? CMD_GET_MAX_SG then (MAX_BUFLIST_ENTRIES, state_run)
  else if cmd =? CMD_SET_CONFIG then (configure, state_run)
  else if cmd =? CMD_START then (0, 1)
  else (-1, state_run).

(** The firmware as [beaglelogic_send_cmd] sees it when the main loop
    gets to the command within the polling bound: the response is stored
    and the command word cleared. *)
Definition pru0_firmware (configure : Z) : Z -> option Z :=
  fun c => Some (fst (handle_command configure 0 c)).

(** The handshake of [beaglelogic_probe] with the firmware, from the
    device [d0] as it is before it: the version that is logged (major,
    minor) and the device, or [None] when the probe fails.  The magic
    number, which the firmware writes when it starts, is taken to be in
    place. *)
Definition probe_handshake (fw : Z -> option Z) (irq1 irq2 : Z)
    (d0 : beaglelogicdev) : option (Z * Z * beaglelogicdev) :=
  let '(ver, d1) := beaglelogic_send_cmd fw d0 CMD_GET_VERSION in
  if ver =? 0 then None
  else
    let '(sg, _) := beaglelogic_send_cmd fw d1 CMD_GET_MAX_SG in
    match beaglelogic_probe irq1 irq2 sg with
    | Some d => Some (Z.shiftr ver 8, Z.land ver 255, d)
    | None => None
    end.

(** ** The device over time *)

(** One step of the device: an interrupt is served, or one of the calls
    of the driver returns. *)
Inductive dev_step : beaglelogicdev -> beaglelogicdev -> Prop :=
| step_irq (irqno : Z) (d d' : beaglelogicdev) :
    beaglelogic_serve_irq irqno d = Done d' -> dev_step d d'
| step_start (E : environment) (d d' : beaglelogicdev) (ret : Z) :
    beaglelogic_start E d = Done (ret, d') -> dev_step d d'
| step_stop (E : environment) (d d' : beaglelogicdev) :
    beaglelogic_stop E d = Done d' -> dev_step d d'
| step_set_samplerate (rate : Z) (d d' : beaglelogicdev) (ret : Z) :
    beaglelogic_set_samplerate d rate = (ret, d') -> dev_step d d'
| step_set_sampleunit (unit : Z) (d d' : beaglelogicdev) (ret : Z) :
    beaglelogic_set_sampleunit d unit = (ret, d') -> dev_step d d'
| step_set_triggerflags (flags : Z) (d d' : beaglelogicdev) (ret : Z) :
    beaglelogic_set_triggerflags d flags = (ret, d') -> dev_step d d'
| step_memalloc (A : allocator) (B : Z) (heap heap' : list dma_region)
    (d d' : beaglelogicdev) (ret : Z) :
    beaglelogic_memalloc A d B heap = Done (ret, d', heap') -> dev_step d d'
| step_memfree (irqs : list Z) (heap heap' : list dma_region)
    (d d' : beaglelogicdev) :
    beaglelogic_memfree irqs d heap = Done (d', heap') -> dev_step d d'
| step_open (E : environment) (d d' : beaglelogicdev) (ret : Z)
    (r : option logic_buffer_reader) :
    beaglelogic_f_open E d = Done (ret, r, d') -> dev_step d d'
| step_read (E : environment) (nonblock : bool) (sz : Z)
    (r r' : logic_buffer_reader) (d d' : beaglelogicdev) (ret : Z) :
    beaglelogic_f_read E nonblock sz r d = Done (ret, r', d') -> dev_step d d'
| step_llseek (E : environment) (fuel : nat) (offset whence : Z)
    (r r' : logic_buffer_reader) (d d' : beaglelogicdev) (ret : Z) :
    beaglelogic_f_llseek E fuel offset whence r d = Done (ret, r', d') ->
    dev_step d d'.

(** The devices a probe followed by any number of steps can produce. *)
Inductive reachable : beaglelogicdev -> Prop :=
| reach_probe (irq1 irq2 max_sg : Z) (d : beaglelogicdev) :
    beaglelogic_probe irq1 irq2 max_sg = Some d -> reachable d
| reach_step (d d' : beaglelogicdev) :
    reachable d -> dev_step d d' -> reachable d'.

(** The session discipline: a Running device holds the session lock. *)
Definition running_locked (d : beaglelogicdev) : Prop :=
  state d = STATE_BL_RUNNING -> mutex d = true.

(** Two devices in the same state with the same lock. *)
Definition same_session (d d' : beaglelogicdev) : Prop :=
  state d' = state d /\ mutex d' = mutex d.

(** One step of the device through any entry point of the driver: a step
    of [dev_step], or one of the other file operations or sysfs stores
    returns.  (Poll and mmap do not touch the device.) *)
Inductive driver_step : beaglelogicdev -> beaglelogicdev -> Prop :=
| dstep_base (d d' : beaglelogicdev) :
    dev_step d d' -> driver_step d d'
| dstep_release (E : environment) (d d' : beaglelogicdev) (ret : Z) :
    beaglelogic_f_release E d = Done (ret, d') -> driver_step d d'
| dstep_ioctl (E : environment) (A : allocator) (cmd arg : Z)
    (r : logic_buffer_reader) (heap : list dma_region)
    (d : beaglelogicdev) (res : ioctl_result) :
    beaglelogic_f_ioctl E A cmd arg r d heap = Done res ->
    driver_step d (io_dev res)
| dstep_bufunitsize_store (irqs : list Z) (parsed : option Z) (count : Z)
    (heap heap' : list dma_region) (d d' : beaglelogicdev) (ret : Z) :
    bl_bufunitsize_store irqs parsed count d heap = Done (ret, d', heap') ->
    driver_step d d'
| dstep_memalloc_store (irqs : list Z) (A : allocator) (parsed : option Z)
    (count : Z) (heap heap' : list dma_region) (d d' : beaglelogicdev)
    (ret : Z) (entries : option (list buflist)) :
    bl_memalloc_store irqs A parsed count d heap
      = Done (ret, d', heap', entries) ->
    driver_step d d'
| dstep_samplerate_store (parsed : option Z) (count : Z)
    (d d' : beaglelogicdev) (ret : Z) :
    bl_samplerate_store parsed count d = (ret, d') -> driver_step d d'
| dstep_sampleunit_store (parsed : option Z) (count : Z)
    (d d' : beaglelogicdev) (ret : Z) :
    bl_sampleunit_store parsed count d = (ret, d') -> driver_step d d'
| dstep_triggerflags_store (parsed : option Z) (count : Z)
    (d d' : beaglelogicdev) (ret : Z) :
    bl_triggerflags_store parsed count d = (ret, d') -> driver_step d d'
| dstep_state_store (E : environment) (parsed : option Z) (count : Z)
    (d d' : beaglelogicdev) (ret : Z) :
    bl_state_store E parsed count d = Done (ret, d') -> driver_step d d'
| dstep_testpattern_store (irqs : list Z) (parsed : option Z) (count : Z)
    (d d' : beaglelogicdev) (ret : Z) (stored : list (Z * list Z)) :
    bl_testpattern_store irqs parsed count d = Done (ret, d', stored) ->
    driver_step d d'.

(** The devices a probe followed by any number of such steps can
    produce. *)
Inductive driver_reachable : beaglelogicdev -> Prop :=
| dreach_probe (irq1 irq2 max_sg : Z) (d : beaglelogicdev) :
    beaglelogic_probe irq1 irq2 max_sg = Some d -> driver_reachable d
| dreach_step (d d' : beaglelogicdev) :
    driver_reachable d -> driver_step d d' -> driver_reachable d'.

(** ** Ring shape *)

(** Following [next] [n] times from a buffer pointer. *)
Fixpoint follow_next (l : list logic_buffer) (n : nat) (p : option nat)
  : option nat :=
  match n with
  | O => p
  | S n' =>
      match p with
      | Some i =>
          match l !! i with
          | Some b => follow_next l n' (next b)
          | None => None
          end
      | None => None
      end
  end.

(** The pointers the interrupt handler follows are valid: the buffer
    array exists, [bufbeingread] points into it and so does every [next]. *)
Definition ring_ok (d : beaglelogicdev) : Prop :=
  exists l i,
    buffers d = Some l /\ bufbeingread d = Some i /\ (i < length l)%nat /\
    forall k b, l !! k = Some b ->
      exists j, next b = Some j /\ (j < length l)%nat.

(** The ceiling of [b / u], as a rational quotient rounded up. *)
Definition ceil_div (b u : Z) : Z := - ((- b) / u).

(** The DMA regions a buffer list still owns (entries with a cpu address). *)
Fixpoint regions_of (l : list logic_buffer) : list dma_region :=
  match l with
  | [] => []
  | b :: rest =>
      if buf b =? 0 then regions_of rest
      else (size b, buf b, phys_addr b) :: regions_of rest
  end.

(** The entry the allocation loop of [beaglelogic_memalloc] writes for
    buffer [i] of [cnt]. *)
Definition alloc_entry (A : allocator) (unit : Z) (cnt i : nat) : logic_buffer :=
  mk_logic_buffer (fst (dma_alloc_coherent A i)) (snd (dma_alloc_coherent A i))
    unit STATE_BL_BUF_MAPPED (wrap16 (Z.of_nat i)) (Some ((i + 1) mod cnt)%nat).

(** The descriptor of a buffer: its physical start and end address. *)
Definition buflist_entry (b : logic_buffer) : buflist :=
  (wrap32 (phys_addr b), wrap32 (phys_addr b + size b)).

(** The ring of the device owns its regions: the heap holds the regions of
    the buffer list on top of [base], and [bufcount] is the length of the
    list.  A device without a buffer list owns nothing. *)
Definition ring_owned (d : beaglelogicdev) (heap base : list dma_region)
  : Prop :=
  match buffers d with
  | Some l => Z.to_nat (bufcount d) = length l /\ heap ≡ₚ regions_of l ++ base
  | None => heap ≡ₚ base
  end.

(** The device once its ring, if it had one, is gone. *)
Definition without_ring (d : beaglelogicdev) : beaglelogicdev :=
  match buffers d with
  | Some _ => set_bufcount (set_buffers d None) 0
  | None => d
  end.

(** The number of 32-bit words a buffer holds. *)
Definition buffer_words (b : logic_buffer) : nat := Z.to_nat (size b / 4).

(** A buffer that [beaglelogic_map_buffer] accepts. *)
Definition mappable (b : logic_buffer) : Prop :=
  buf_state b = STATE_BL_BUF_MAPPED \/ phys_addr b <> 0.

(** ** Sessions *)

(** A ring of [n] buffers of [U] bytes, linked circularly, of which the
    first [k] have been filled (Unmapped) and the others are still Mapped. *)
Definition ring_filled_upto (n : nat) (U : Z) (k : nat)
    (l : list logic_buffer) : Prop :=
  length l = n /\
  forall i, (i < n)%nat ->
    exists b, l !! i = Some b /\ size b = U /\ index b = Z.of_nat i /\
      next b = Some ((i + 1) mod n)%nat /\
      buf_state b = if (i <? k)%nat then STATE_BL_BUF_UNMAPPED
                    else STATE_BL_BUF_MAPPED.

(** [n] reads in a row, each with the same environment and length. *)
Fixpoint read_repeatedly (E : environment) (nonblock : bool) (n : nat)
    (sz : Z) (r : logic_buffer_reader) (d : beaglelogicdev)
  : outcome (list Z * logic_buffer_reader * beaglelogicdev) :=
  match n with
  | O => Done ([], r, d)
  | S n' =>
      do (ret, r1, d1) <- beaglelogic_f_read E nonblock sz r d;
      do (rets, r2, d2) <- read_repeatedly E nonblock n' sz r1 d1;
      Done (ret :: rets, r2, d2)
  end.

(** A oneshot capture read one buffer at a time: a freshly opened reader
    issues [n] blocking reads of one buffer each, the buffer-ready
    interrupt of the awaited buffer firing while it sleeps; the firmware
    then signals completion; and the reader reads once more.  No stop is
    called.  The result is the return values of the first [n] reads, that
    of the last read, and the device at the end. *)
Definition oneshot_capture (fw : Z -> option Z) (n : nat)
    (d : beaglelogicdev) : outcome (list Z * Z * beaglelogicdev) :=
  let E := mk_environment fw [] [from_bl_irq_1 d] false 0 0 false false in
  do (rets, r1, d1) <-
    read_repeatedly E false n (bufunitsize d) (mk_reader None 0 0) d;
  do d2 <- beaglelogic_serve_irq (from_bl_irq_2 d1) d1;
  do (last, _, d3) <- beaglelogic_f_read E false (bufunitsize d) r1 d2;
  Done (rets, last, d3).

(** The device in the middle of a oneshot session over such a ring, after
    [k] buffers were filled: the write cursor is on buffer [k], or stays on
    the last buffer once all are filled. *)
Definition dev_at (n : nat) (U : Z) (irq1 irq2 : Z) (k : nat)
    (d : beaglelogicdev) : Prop :=
  (exists l, buffers d = Some l /\ ring_filled_upto n U k l) /\
  bufbeingread d = Some (Nat.min k (n - 1)) /\
  state d = STATE_BL_RUNNING /\ mutex d = true /\
  triggerflags d = BL_TRIGGERFLAGS_ONESHOT /\
  from_bl_irq_1 d = irq1 /\ from_bl_irq_2 d = irq2.

(** The device has a ring of [n] buffers of [U] bytes each, linked
    circularly in the order of the array; the buffer states are left
    open. *)
Definition ring_of (n : nat) (U : Z) (d : beaglelogicdev) : Prop :=
  exists l, buffers d = Some l /\ length l = n /\
    forall i b, l !! i = Some b ->
      size b = U /\ next b = Some ((i + 1) mod n)%nat.

(** A capture read buffer by buffer through one file: from a freshly
    opened reader on, interrupts are served and reads are issued in any
    order and under any environment.  [k] counts the reads that returned a
    whole buffer of [U] bytes; the other reads of the session are those
    that returned an error. *)
Inductive read_session (n : nat) (U : Z)
  : nat -> logic_buffer_reader -> beaglelogicdev -> Prop :=
| session_open (d : beaglelogicdev) :
    ring_of n U d -> read_session n U 0 (mk_reader None 0 0) d
| session_irq (k : nat) (r : logic_buffer_reader) (d d' : beaglelogicdev)
    (irqno : Z) :
    read_session n U k r d ->
    beaglelogic_serve_irq irqno d = Done d' ->
    read_session n U k r d'
| session_read (k : nat) (r r' : logic_buffer_reader)
    (d d' : beaglelogicdev) (E : environment) (nonblock : bool) (sz : Z) :
    read_session n U k r d -> 0 <= sz ->
    beaglelogic_f_read E nonblock sz r d = Done (U, r', d') ->
    read_session n U (S k) r' d'
| session_failed_read (k : nat) (r r' : logic_buffer_reader)
    (d d' : beaglelogicdev) (E : environment) (nonblock : bool)
    (sz ret : Z) :
    read_session n U k r d -> 0 <= sz ->
    beaglelogic_f_read E nonblock sz r d = Done (ret, r', d') -> ret < 0 ->
    read_session n U k r' d'.

(** Where the reader of such a session stands after [k] whole reads. *)
Definition reader_after (n : nat) (U : Z) (k : nat)
    (r : logic_buffer_reader) : Prop :=
  (k = 0%nat /\ r = mk_reader None 0 0) \/
  r = mk_reader (Some (k mod n)%nat) 0 U.

(** A buffer array in which every buffer has a non-empty [uint32_t] size
    and a [next] pointer into the array. *)
Definition ring_sound (l : list logic_buffer) : Prop :=
  forall k b, l !! k = Some b ->
    0 < size b < 2 ^ 32 /\ exists j, next b = Some j /\ (j < length l)%nat.

(** A reader in the middle of such a ring, with bytes left in its buffer. *)
Definition reader_ok (r : logic_buffer_reader) (d : beaglelogicdev) : Prop :=
  exists l p,
    buffers d = Some l /\ ring_sound l /\
    rd_buf r = Some p /\ (p < length l)%nat /\
    0 < remaining r < 2 ^ 32.

(** Buffer [q] of the device is marked Dropped. *)
Definition dropped_in (d : beaglelogicdev) (q : nat) : Prop :=
  exists l b, buffers d = Some l /\ l !! q = Some b /\
              buf_state b = STATE_BL_BUF_DROPPED.

(** A reader inside its buffer, in a sound ring of buffers below 2 GiB:
    the bytes read so far and the bytes remaining make up the buffer. *)
Definition reader_within (r : logic_buffer_reader) (d : beaglelogicdev)
  : Prop :=
  exists l p b,
    buffers d = Some l /\ ring_sound l /\
    (forall k c, l !! k = Some c -> size c < 2 ^ 31) /\
    rd_buf r = Some p /\ l !! p = Some b /\
    0 <= pos r /\ 0 < remaining r /\ pos r + remaining r = size b.

(** Buffer [q] of the device is Unmapped and holds [sz] bytes. *)
Definition unmapped_in (d : beaglelogicdev) (q : nat) (sz : Z) : Prop :=
  exists l b, buffers d = Some l /\ l !! q = Some b /\
              buf_state b = STATE_BL_BUF_UNMAPPED /\ size b = sz.

(** ** Example devices *)

(** A ring of two 4096-byte buffers in the given states. *)
Definition example_ring (s0 s1 : Z) : list logic_buffer :=
  [ mk_logic_buffer 3221225472 2415919104 4096 s0 0 (Some 1%nat);
    mk_logic_buffer 3221229568 2415923200 4096 s1 1 (Some 0%nat) ].

(** A device with that ring, interrupt lines 1 (buffer ready) and 2
    (capture complete), the firmware advertising 128 buffers. *)
Definition example_dev (trig st : Z) (locked : bool) (s0 s1 : Z)
  : beaglelogicdev :=
  mk_beaglelogicdev 1 2 200000000 locked (Some (example_ring s0 s1)) None
    (Some 0%nat) 2 (mk_capture_context 0 0 2 1 trig 0) 128 4096 100000000
    trig 1 st 0.

(** The device right after a probe with 128 advertised buffers: nothing
    allocated yet. *)
Definition probed_dev : beaglelogicdev :=
  mk_beaglelogicdev 1 2 200000000 false None None None 0
    (mk_capture_context 0 128 0 0 0 0) 128 (4 * 1024 * 1024)
    (100 * 1000 * 1000) 0 1 STATE_BL_INITIALIZED 0.

(** The device in the middle of a probe, before the handshake with the
    firmware: zeroed but for the clock, and Disabled. *)
Definition unprobed_dev : beaglelogicdev :=
  mk_beaglelogicdev 1 2 200000000 false None None None 0
    (mk_capture_context 0 0 0 0 0 0) 0 0 0 0 0 STATE_BL_DISABLED 0.

(** A device whose second buffer has no DMA address and was left
    Unmapped. *)
Definition unbacked_ring : list logic_buffer :=
  [ mk_logic_buffer 3221225472 2415919104 4096 STATE_BL_BUF_MAPPED 0
      (Some 1%nat);
    mk_logic_buffer 3221229568 0 4096 STATE_BL_BUF_UNMAPPED 1 (Some 0%nat) ].

Definition unbacked_dev : beaglelogicdev :=
  mk_beaglelogicdev 1 2 200000000 false (Some unbacked_ring)
    None (Some 0%nat) 2 (mk_capture_context 0 0 2 1 0 0) 128 4096 100000000
    0 1 STATE_BL_MEMALLOCD 0.

(** A firmware that acknowledges every command with response 0. *)
Definition fw_ack : Z -> option Z := fun _ => Some 0.

(** An environment in which nothing happens while the caller sleeps. *)
Definition quiet_env : environment :=
  mk_environment fw_ack [] [] false 0 0 false false.

(** An allocator that never fails, handing out 4 MiB apart addresses, one
    whose buffer-list allocation fails, and one whose third DMA allocation
    fails. *)
Definition good_allocator : allocator :=
  mk_allocator true
    (fun i => (3221225472 + Z.of_nat i * 4194304,
               2415919104 + Z.of_nat i * 4194304)).

Definition no_list_allocator : allocator :=
  mk_allocator false (dma_alloc_coherent good_allocator).

Definition third_fails_allocator : allocator :=
  mk_allocator true
    (fun i => if (i =? 2)%nat then (0, 0)
              else dma_alloc_coherent good_allocator i).

(** The probed device after an 8 MiB ring was set through ioctl, and the
    same device after a start through ioctl. *)
Definition armed_dev : beaglelogicdev :=
  match beaglelogic_f_ioctl quiet_env good_allocator IOCTL_BL_SET_BUFFER_SIZE
          8388608 (mk_reader None 0 0) probed_dev [] with
  | Done res => io_dev res
  | _ => probed_dev
  end.

Definition running_dev : beaglelogicdev :=
  match beaglelogic_f_ioctl quiet_env good_allocator IOCTL_BL_START
          0 (mk_reader None 0 0) armed_dev [] with
  | Done res => io_dev res
  | _ => armed_dev
  end.

(** * Properties *)

(** ** Records and outcomes *)

Lemma trylock_unlock_free (d : beaglelogicdev) :
  mutex d = false -> mutex_unlock (set_mutex d true) = d.
Proof. destruct d; simpl; intros ->; reflexivity. Qed.

Lemma obind_done {A B : Type} (m : outcome A) (f : A -> outcome B) (b : B) :
  obind m f = Done b -> exists a, m = Done a /\ f a = Done b.
Proof. destruct m; simpl; intros H; try discriminate; eauto. Qed.

(** ** Sample rate *)

(** Dividing the half clock by an achievable divisor twice lands on the
    same rate. *)
Lemma rate_of_rate_fixed (H k : Z) :
  1 <= k <= H -> H / (H / (H / k)) = H / k.
Proof.
  intros [Hk HkH].
  assert (Hq : 1 <= H / k) by (apply Z.div_le_lower_bound; lia).
  assert (Hkq : k <= H / (H / k)).
  { apply Z.div_le_lower_bound; [lia|].
    rewrite Z.mul_comm. apply Z.mul_div_le. lia. }
  apply Z.le_antisymm.
  - apply Z.div_le_compat_l; lia.
  - apply Z.div_le_lower_bound; [lia|].
    rewrite Z.mul_comm. apply Z.mul_div_le. lia.
Qed.

Lemma set_samplerate_accepted (d : beaglelogicdev) (r : Z) :
  1 <= r <= coreclockfreq d / 2 -> mutex d = false ->
  beaglelogic_set_samplerate d r =
    (0, set_samplerate d
          ((coreclockfreq d / 2) / ((coreclockfreq d / 2) / r))).
Proof.
  intros Hr Hm. unfold beaglelogic_set_samplerate, mutex_trylock.
  replace (coreclockfreq d / 2 <? r) with false by (symmetry; apply Z.ltb_ge; lia).
  replace (r <? 1) with false by (symmetry; apply Z.ltb_ge; lia).
  rewrite Hm. simpl. f_equal. destruct d; simpl in *; subst; reflexivity.
Qed.

Lemma set_samplerate_busy (d : beaglelogicdev) (r : Z) :
  1 <= r <= coreclockfreq d / 2 -> mutex d = true ->
  beaglelogic_set_samplerate d r = (- EBUSY, d).
Proof.
  intros Hr Hm. unfold beaglelogic_set_samplerate, mutex_trylock.
  replace (coreclockfreq d / 2 <? r) with false by (symmetry; apply Z.ltb_ge; lia).
  replace (r <? 1) with false by (symmetry; apply Z.ltb_ge; lia).
  rewrite Hm. reflexivity.
Qed.

Lemma set_samplerate_rejected (d : beaglelogicdev) (r : Z) :
  r < 1 \/ coreclockfreq d / 2 < r ->
  beaglelogic_set_samplerate d r = (- EINVAL, d).
Proof.
  intros Hr. unfold beaglelogic_set_samplerate.
  destruct (Z.ltb_spec (coreclockfreq d / 2) r); simpl; [reflexivity|].
  destruct (Z.ltb_spec r 1); simpl; [reflexivity|lia].
Qed.




(** ** Buffers behind pointers *)

Lemma deref_done (d : beaglelogicdev) (p : option nat) (b : logic_buffer) :
  deref d p = Done b <->
  exists i l, p = Some i /\ buffers d = Some l /\ l !! i = Some b.
Proof.
  unfold deref. split.
  - destruct p as [i|]; [|discriminate].
    destruct (buffers d) as [l|]; [|discriminate].
    destruct (l !! i) eqn:E; [|discriminate].
    intros [= <-]. eauto.
  - intros (i & l & -> & -> & ->). reflexivity.
Qed.

Lemma deref_lookup (d : beaglelogicdev) (l : list logic_buffer) (i : nat)
    (b : logic_buffer) :
  buffers d = Some l -> l !! i = Some b -> deref d (Some i) = Done b.
Proof. intros Hl Hb. unfold deref. rewrite Hl, Hb. reflexivity. Qed.

Lemma write_buf_state_lookup (d : beaglelogicdev) (l : list logic_buffer)
    (i : nat) (b : logic_buffer) (s : Z) :
  buffers d = Some l -> l !! i = Some b ->
  write_buf_state d (Some i) s
    = Done (set_buffers d (Some (<[i := set_buf_state b s]> l))).
Proof. intros Hl Hb. unfold write_buf_state. rewrite Hl, Hb. reflexivity. Qed.

(** Writing a buffer state keeps the [next] pointers of the whole array. *)
Lemma next_after_state_write (l : list logic_buffer) (i k : nat)
    (b c : logic_buffer) (s : Z) :
  l !! i = Some b ->
  <[i := set_buf_state b s]> l !! k = Some c ->
  exists c0, l !! k = Some c0 /\ next c = next c0 /\ size c = size c0 /\
             index c = index c0 /\
             buf_state c = if decide (i = k) then s else buf_state c0.
Proof.
  intros Hb Hc. destruct (decide (i = k)) as [->|Hne].
  - rewrite list_lookup_insert_eq in Hc by (eapply lookup_lt_Some; eassumption).
    injection Hc as <-. exists b. auto.
  - rewrite list_lookup_insert_ne in Hc by assumption.
    exists c. auto.
Qed.

(** ** The interrupt handler *)

(** The handler on the capture-complete line, case by case. *)
Lemma serve_irq_complete (d : beaglelogicdev) (irqno : Z) :
  irqno = from_bl_irq_2 d -> irqno <> from_bl_irq_1 d ->
  beaglelogic_serve_irq irqno d =
    if state d <=? STATE_BL_ARMED then Done d
    else if negb (state d =? STATE_BL_REQUEST_STOP)
            && negb (state d =? STATE_BL_RUNNING)
    then Done (set_state d STATE_BL_ERROR)
    else if (triggerflags d =? BL_TRIGGERFLAGS_ONESHOT)
            && negb (Z.land (state d) STATE_BL_RUNNING =? 0)
    then Done (mutex_unlock (set_state d STATE_BL_INITIALIZED))
    else Done (set_state d STATE_BL_INITIALIZED).
Proof.
  intros H2 H1. unfold beaglelogic_serve_irq.
  destruct (Z.eqb_spec irqno (from_bl_irq_1 d)); [contradiction|].
  destruct (Z.eqb_spec irqno (from_bl_irq_2 d)); [|contradiction].
  reflexivity.
Qed.

(** C2 (as the driver has it): on the capture-complete line the handler
    ignores the signal in every state up to Armed (Disabled, Initialized,
    MemAllocd, Armed), where it is the acknowledgement of a configuration;
    it moves Running and RequestStop to Initialized; and it moves every
    remaining state to Error. *)
Theorem completion_signal_by_state (d : beaglelogicdev) (irqno : Z) :
  irqno = from_bl_irq_2 d -> irqno <> from_bl_irq_1 d ->
  exists d', beaglelogic_serve_irq irqno d = Done d' /\
    (state d <= STATE_BL_ARMED -> d' = d) /\
    (state d = STATE_BL_RUNNING \/ state d = STATE_BL_REQUEST_STOP ->
     state d' = STATE_BL_INITIALIZED) /\
    (STATE_BL_ARMED < state d -> state d <> STATE_BL_RUNNING ->
     state d <> STATE_BL_REQUEST_STOP -> state d' = STATE_BL_ERROR).
Proof.
  intros H2 H1. rewrite (serve_irq_complete d irqno H2 H1).
  unfold STATE_BL_ARMED, STATE_BL_RUNNING, STATE_BL_REQUEST_STOP,
    STATE_BL_INITIALIZED, STATE_BL_ERROR in *.
  destruct (Z.leb_spec (state d) 3).
  { exists d. repeat split; intros; try reflexivity; lia. }
  destruct (Z.eqb_spec (state d) 5) as [E5|N5];
    destruct (Z.eqb_spec (state d) 4) as [E4|N4]; simpl; try lia.
  - destruct (_ && _); eexists; (split; [reflexivity|]);
      repeat split; intros; try reflexivity; lia.
  - destruct (_ && _); eexists; (split; [reflexivity|]);
      repeat split; intros; try reflexivity; lia.
  - eexists; split; [reflexivity|].
    repeat split; intros; try reflexivity; lia.
Qed.

(** The three cases on the example device: MemAllocd, RequestStop, Error. *)
Lemma completion_signal_by_state_witness :
  (exists d', beaglelogic_serve_irq 2
       (example_dev 1 STATE_BL_MEMALLOCD false 1 1) = Done d' /\
       d' = example_dev 1 STATE_BL_MEMALLOCD false 1 1) /\
  (exists d', beaglelogic_serve_irq 2
       (example_dev 1 STATE_BL_REQUEST_STOP true 1 1) = Done d' /\
       state d' = STATE_BL_INITIALIZED) /\
  (exists d', beaglelogic_serve_irq 2
       (example_dev 1 STATE_BL_ERROR false 1 1) = Done d' /\
       state d' = STATE_BL_ERROR).
Proof.
  split; [|split].
  - destruct (completion_signal_by_state
                (example_dev 1 STATE_BL_MEMALLOCD false 1 1) 2)
      as (d' & Hrun & Hlow & _); [reflexivity|discriminate|].
    exists d'. split; [exact Hrun|]. apply Hlow. vm_compute. discriminate.
  - destruct (completion_signal_by_state
                (example_dev 1 STATE_BL_REQUEST_STOP true 1 1) 2)
      as (d' & Hrun & _ & Hstop & _); [reflexivity|discriminate|].
    exists d'. split; [exact Hrun|]. apply Hstop. right. reflexivity.
  - destruct (completion_signal_by_state
                (example_dev 1 STATE_BL_ERROR false 1 1) 2)
      as (d' & Hrun & _ & _ & Herr); [reflexivity|discriminate|].
    exists d'. split; [exact Hrun|].
    apply Herr; vm_compute; [reflexivity|discriminate|discriminate].
Defined.

(** C2, counterexample: a capture-complete signal that arrives while the
    device is Disabled is taken for a configuration acknowledgement; the
    device stays Disabled and does not enter Error. *)
Lemma completion_in_disabled_is_ignored :
  let d := unprobed_dev in
  state d = STATE_BL_DISABLED /\
  exists d', beaglelogic_serve_irq (from_bl_irq_2 d) d = Done d' /\
             state d' = STATE_BL_DISABLED /\ state d' <> STATE_BL_ERROR.
Proof.
  cbn zeta. split; [reflexivity|]. eexists. split; [reflexivity|].
  split; [reflexivity|discriminate].
Qed.

(** The handler on the buffer-ready line: the buffer under the write
    cursor becomes Unmapped and is remembered in [lastbufready]; the
    cursor moves on unless the session is oneshot and the successor has
    index 0.  No other buffer state is written. *)
Lemma serve_irq_ready (d : beaglelogicdev) (irqno : Z)
    (l : list logic_buffer) (i j : nat) (b nb : logic_buffer) :
  irqno = from_bl_irq_1 d ->
  buffers d = Some l -> bufbeingread d = Some i ->
  l !! i = Some b -> next b = Some j -> l !! j = Some nb ->
  beaglelogic_serve_irq irqno d =
    Done (let d2 := set_buffers (set_lastbufready d (Some i))
                      (Some (<[i := set_buf_state b STATE_BL_BUF_UNMAPPED]> l)) in
          if negb (triggerflags d =? BL_TRIGGERFLAGS_ONESHOT)
             || negb (index nb =? 0)
          then set_bufbeingread d2 (Some j) else d2).
Proof.
  intros Hirq Hl Hi Hb Hn Hnb.
  assert (Hlt : (i < length l)%nat) by (eapply lookup_lt_Some; eassumption).
  set (l' := <[i := set_buf_state b STATE_BL_BUF_UNMAPPED]> l).
  assert (Hb' : l' !! i = Some (set_buf_state b STATE_BL_BUF_UNMAPPED))
    by (apply list_lookup_insert_eq; assumption).
  assert (Hnb' : exists nb', l' !! j = Some nb' /\ index nb' = index nb).
  { destruct (decide (i = j)) as [->|Hne].
    - exists (set_buf_state b STATE_BL_BUF_UNMAPPED). split; [assumption|].
      rewrite Hb in Hnb. injection Hnb as <-. reflexivity.
    - exists nb. split; [|reflexivity].
      unfold l'. rewrite list_lookup_insert_ne by assumption. assumption. }
  destruct Hnb' as (nb' & Hnb' & Hidx).
  unfold beaglelogic_serve_irq.
  rewrite Hirq, Z.eqb_refl. cbn zeta.
  unfold beaglelogic_unmap_buffer.
  replace (lastbufready (set_lastbufready d (bufbeingread d)))
    with (Some i) by (rewrite <- Hi; destruct d; reflexivity).
  rewrite (write_buf_state_lookup _ l i b) by (try assumption; destruct d; assumption).
  rewrite Hi. fold l'.
  set (d2 := set_buffers (set_lastbufready d (Some i)) (Some l')).
  assert (Hl2 : buffers d2 = Some l') by (destruct d; reflexivity).
  assert (Hi2 : bufbeingread d2 = Some i) by (destruct d; simpl in *; assumption).
  assert (Ht2 : triggerflags d2 = triggerflags d) by (destruct d; reflexivity).
  cbn [obind]. rewrite Ht2, Hi2.
  rewrite (deref_lookup d2 l' i _ Hl2 Hb').
  cbn [obind next set_buf_state]. rewrite Hn.
  assert (Hmap : beaglelogic_map_buffer (set_bufbeingread d2 (Some j))
                   (bufbeingread (set_bufbeingread d2 (Some j)))
                 = Done 0 \/
                 beaglelogic_map_buffer (set_bufbeingread d2 (Some j))
                   (bufbeingread (set_bufbeingread d2 (Some j)))
                 = Done (- EINVAL)).
  { unfold beaglelogic_map_buffer.
    replace (bufbeingread (set_bufbeingread d2 (Some j))) with (Some j)
      by (destruct d; reflexivity).
    rewrite (deref_lookup _ l' j nb') by (try assumption; destruct d; reflexivity).
    cbn [obind]. destruct (_ =? _); [left; reflexivity|].
    destruct (negb _); [left|right]; reflexivity. }
  destruct (triggerflags d =? BL_TRIGGERFLAGS_ONESHOT); cbn [negb orb obind].
  - rewrite (deref_lookup d2 l' j _ Hl2 Hnb'). cbn [obind]. rewrite Hidx.
    destruct (negb (index nb =? 0)); [|reflexivity].
    destruct Hmap as [-> | ->]; reflexivity.
  - destruct Hmap as [-> | ->]; reflexivity.
Qed.

(** The handler touches neither the device state nor the mutex on the
    buffer-ready line, and follows valid pointers to valid pointers. *)
Lemma ring_ok_same_ring (d d' : beaglelogicdev) :
  buffers d' = buffers d -> bufbeingread d' = bufbeingread d ->
  ring_ok d -> ring_ok d'.
Proof.
  intros Hb Hp (l & i & Hl & Hi & Hlt & Hnext).
  exists l, i. rewrite Hb, Hp. auto.
Qed.

Lemma serve_irq_ring_ok (d : beaglelogicdev) (irqno : Z) :
  ring_ok d ->
  exists d', beaglelogic_serve_irq irqno d = Done d' /\ ring_ok d'.
Proof.
  intros Hok. destruct (Z.eq_dec irqno (from_bl_irq_1 d)) as [H1|H1].
  - destruct Hok as (l & i & Hl & Hi & Hlt & Hnext).
    destruct (lookup_lt_is_Some_2 l i Hlt) as [b Hb].
    destruct (Hnext i b Hb) as (j & Hn & Hj).
    destruct (lookup_lt_is_Some_2 l j Hj) as [nb Hnb].
    rewrite (serve_irq_ready d irqno l i j b nb H1 Hl Hi Hb Hn Hnb).
    eexists. split; [reflexivity|].
    assert (Hnext' : forall k c,
               <[i := set_buf_state b STATE_BL_BUF_UNMAPPED]> l !! k = Some c ->
               exists j0, next c = Some j0 /\
                 (j0 < length (<[i := set_buf_state b STATE_BL_BUF_UNMAPPED]> l))%nat).
    { intros k c Hc.
      destruct (next_after_state_write l i k b c _ Hb Hc) as (c0 & Hc0 & Hnx & _).
      destruct (Hnext k c0 Hc0) as (j0 & Hj0 & Hlt0).
      exists j0. rewrite length_insert. rewrite Hnx. auto. }
    cbn zeta. destruct (_ || _).
    + exists (<[i := set_buf_state b STATE_BL_BUF_UNMAPPED]> l), j.
      split; [destruct d; reflexivity|].
      split; [destruct d; reflexivity|].
      split; [rewrite length_insert; assumption|exact Hnext'].
    + exists (<[i := set_buf_state b STATE_BL_BUF_UNMAPPED]> l), i.
      split; [destruct d; reflexivity|].
      split; [destruct d; simpl in *; assumption|].
      split; [rewrite length_insert; assumption|exact Hnext'].
  - unfold beaglelogic_serve_irq.
    destruct (Z.eqb_spec irqno (from_bl_irq_1 d)); [contradiction|].
    destruct (irqno =? from_bl_irq_2 d); [|eauto].
    destruct (_ <=? _); [eauto|].
    destruct (_ && _).
    { eexists; split; [reflexivity|].
      eapply ring_ok_same_ring; [| |exact Hok]; destruct d; reflexivity. }
    cbn zeta. destruct (_ && _).
    + eexists; split; [reflexivity|].
      eapply ring_ok_same_ring; [| |exact Hok]; destruct d; reflexivity.
    + eexists; split; [reflexivity|].
      eapply ring_ok_same_ring; [| |exact Hok]; destruct d; reflexivity.
Qed.

(** ** Sleeping *)

(** A sleep that a timeout or a signal can end always ends, and when it
    ends because of its condition the condition holds. *)
Lemma sleep_until_ends (cond : beaglelogicdev -> bool) (irqs : list Z)
    (e : wait_end) (d : beaglelogicdev) :
  e <> NothingElse -> ring_ok d ->
  exists w d',
    sleep_until (fun x => Done (cond x)) irqs e d = Done (w, d') /\
    ring_ok d' /\
    (w = CondTrue -> cond d' = true) /\
    (w = TimedOut -> e = TimeoutElapses) /\
    (w = Interrupted -> e = SignalArrives).
Proof.
  intros He. revert d. induction irqs as [|irq rest IH]; intros d Hok.
  - cbn [sleep_until obind]. destruct (cond d) eqn:Hc.
    + exists CondTrue, d. split; [reflexivity|]; split; [assumption|];
        (split; [|split]); intros; first [assumption|discriminate|reflexivity].
    + destruct e; [| |congruence].
      * exists TimedOut, d. split; [reflexivity|]; split; [assumption|];
        (split; [|split]); intros; first [assumption|discriminate|reflexivity].
      * exists Interrupted, d. split; [reflexivity|]; split; [assumption|];
        (split; [|split]); intros; first [assumption|discriminate|reflexivity].
  - cbn [sleep_until obind]. destruct (cond d) eqn:Hc.
    + exists CondTrue, d. split; [reflexivity|]; split; [assumption|];
        (split; [|split]); intros; first [assumption|discriminate|reflexivity].
    + destruct (serve_irq_ring_ok d irq Hok) as (d1 & Hrun & Hok1).
      rewrite Hrun. cbn [obind]. apply IH. assumption.
Qed.

(** After a buffer-ready interrupt the successor buffer is in the state it
    was in before: the handler calls [beaglelogic_map_buffer] on it, which
    writes nothing. *)
Lemma serve_irq_ready_successor_untouched (d d' : beaglelogicdev) (irqno : Z)
    (l : list logic_buffer) (i j : nat) (b nb : logic_buffer) :
  irqno = from_bl_irq_1 d ->
  buffers d = Some l -> bufbeingread d = Some i ->
  l !! i = Some b -> next b = Some j -> l !! j = Some nb -> i <> j ->
  beaglelogic_serve_irq irqno d = Done d' ->
  exists l', buffers d' = Some l' /\ l' !! j = Some nb /\
    l' !! i = Some (set_buf_state b STATE_BL_BUF_UNMAPPED).
Proof.
  intros Hirq Hl Hi Hb Hn Hnb Hne Hrun.
  rewrite (serve_irq_ready d irqno l i j b nb Hirq Hl Hi Hb Hn Hnb) in Hrun.
  injection Hrun as <-. cbn zeta.
  exists (<[i := set_buf_state b STATE_BL_BUF_UNMAPPED]> l).
  split; [destruct (_ || _); destruct d; reflexivity|].
  split.
  - rewrite list_lookup_insert_ne by assumption. assumption.
  - apply list_lookup_insert_eq. eapply lookup_lt_Some; eassumption.
Qed.

(** C1, at the second buffer-ready interrupt of a continuous session over
    two buffers: the first interrupt marks buffer 0 Unmapped and moves the
    write cursor to buffer 1; the second marks buffer 1 Unmapped and moves
    the cursor back to buffer 0, but buffer 0 stays Unmapped; it is not
    set back to Mapped. *)
Theorem buffer_ready_does_not_rearm :
  let d := example_dev BL_TRIGGERFLAGS_CONTINUOUS STATE_BL_RUNNING true
             STATE_BL_BUF_MAPPED STATE_BL_BUF_MAPPED in
  exists d1 d2 l2,
    beaglelogic_serve_irq (from_bl_irq_1 d) d = Done d1 /\
    bufbeingread d1 = Some 1%nat /\
    beaglelogic_serve_irq (from_bl_irq_1 d1) d1 = Done d2 /\
    buffers d2 = Some l2 /\
    lastbufready d2 = Some 1%nat /\
    buf_state <$> l2 !! 1%nat = Some STATE_BL_BUF_UNMAPPED /\
    bufbeingread d2 = Some 0%nat /\
    buf_state <$> l2 !! 0%nat = Some STATE_BL_BUF_UNMAPPED /\
    buf_state <$> l2 !! 0%nat <> Some STATE_BL_BUF_MAPPED.
Proof.
  cbn zeta. eexists. eexists. eexists.
  split; [vm_compute; reflexivity|].
  split; [reflexivity|].
  split; [vm_compute; reflexivity|].
  split; [reflexivity|].
  split; [reflexivity|].
  split; [reflexivity|].
  split; [reflexivity|].
  split; [reflexivity|discriminate].
Qed.

(** ** Start *)

Lemma send_cmd_device (fw : Z -> option Z) (d : beaglelogicdev) (c : Z) :
  exists x, snd (beaglelogic_send_cmd fw d c) = set_cxt_pru d x.
Proof.
  unfold beaglelogic_send_cmd. destruct (fw c); eexists; reflexivity.
Qed.

(** Whenever [beaglelogic_start] returns, it returns 0 with the lock
    taken from whatever state the sleep on the mutex ended in. *)
Lemma start_returns (E : environment) (d d' : beaglelogicdev) (ret : Z) :
  beaglelogic_start E d = Done (ret, d') ->
  exists w dl x,
    sleep_until (fun y => Done (negb (mutex y))) (lock_irqs E) NothingElse d
      = Done (w, dl) /\
    ret = 0 /\
    d' = set_lasterror
           (set_state
              (set_cxt_pru (set_bufbeingread (set_mutex dl true) (buffers_ptr dl)) x)
              STATE_BL_RUNNING) 0.
Proof.
  unfold beaglelogic_start, mutex_lock. intros H.
  apply obind_done in H as (d1 & Hlock & H).
  apply obind_done in Hlock as ([w dl] & Hsleep & Hd1).
  injection Hd1 as <-.
  apply obind_done in H as ([r d3] & Hcfg & H).
  unfold beaglelogic_write_configuration in Hcfg.
  destruct (samplerate _ =? 0); [discriminate|].
  cbn zeta in Hcfg.
  match type of Hcfg with
  | context [beaglelogic_send_cmd ?f ?y ?c] =>
      destruct (send_cmd_device f y c) as (x1 & Hx1);
      destruct (beaglelogic_send_cmd f y c) as [r1 y1] eqn:Hs1
  end.
  simpl in Hx1. subst y1. injection Hcfg as <- <-.
  cbn [negb Z.eqb] in H.
  match type of H with
  | context [beaglelogic_send_cmd ?f ?y ?c] =>
      destruct (send_cmd_device f y c) as (x2 & Hx2);
      destruct (beaglelogic_send_cmd f y c) as [r2 y2] eqn:Hs2
  end.
  simpl in Hx2. subst y2. injection H as <- <-.
  exists w, dl, x2. split; [assumption|]. split; [reflexivity|].
  destruct dl; reflexivity.
Qed.

(** With the lock free and a non-zero sample rate, [beaglelogic_start]
    returns at once. *)
Lemma start_free (E : environment) (d : beaglelogicdev) :
  mutex d = false -> samplerate d <> 0 ->
  exists x,
    beaglelogic_start E d =
      Done (0, set_lasterror
                 (set_state
                    (set_cxt_pru (set_bufbeingread (set_mutex d true) (buffers_ptr d)) x)
                    STATE_BL_RUNNING) 0).
Proof.
  intros Hm Hs.
  assert (Hsleep : forall irqs,
             sleep_until (fun y => Done (negb (mutex y))) irqs NothingElse d
             = Done (CondTrue, d)).
  { intros irqs. destruct irqs; cbn [sleep_until obind]; rewrite Hm; reflexivity. }
  unfold beaglelogic_start, mutex_lock. rewrite Hsleep. cbn [obind].
  unfold beaglelogic_write_configuration.
  replace (samplerate _ =? 0) with false
    by (symmetry; apply Z.eqb_neq; destruct d; exact Hs).
  cbn zeta. unfold beaglelogic_send_cmd.
  destruct (firmware E CMD_SET_CONFIG); cbn [obind negb Z.eqb];
    destruct (firmware E CMD_START); eexists; destruct d; reflexivity.
Qed.





(** The sleeping start goes ahead once the session ends: in a oneshot
    session the capture-complete interrupt releases the lock, and the
    waiting start then takes it. *)
Lemma start_queued_behind_oneshot :
  let d := example_dev BL_TRIGGERFLAGS_ONESHOT STATE_BL_RUNNING true
             STATE_BL_BUF_UNMAPPED STATE_BL_BUF_UNMAPPED in
  exists d',
    beaglelogic_start (mk_environment fw_ack [2] [] false 0 0 false false) d
      = Done (0, d') /\
    mutex d' = true /\ state d' = STATE_BL_RUNNING.
Proof.
  cbn zeta. eexists. split; [vm_compute; reflexivity|]. split; reflexivity.
Qed.

(** ** Stop *)

(** A stop on a Running device that holds the session lock and has a
    ring the interrupt handler can follow returns.  The device is then
    Initialized (completion observed, recovery succeeded, or the wait was
    interrupted by a signal) or Error, the latter only when one of the PRUs
    failed to boot during recovery; it is never left in RequestStop, and
    the lock is free. *)
Theorem stop_from_running (E : environment) (d : beaglelogicdev) :
  state d = STATE_BL_RUNNING -> mutex d = true -> ring_ok d ->
  exists d',
    beaglelogic_stop E d = Done d' /\
    (state d' = STATE_BL_INITIALIZED \/
     (state d' = STATE_BL_ERROR /\ signal E = false /\
      (boot_pru0 E <> 0 \/ boot_pru1 E <> 0))) /\
    state d' <> STATE_BL_REQUEST_STOP /\
    mutex d' = false.
Proof.
  intros Hs Hm Hok.
  unfold beaglelogic_stop, mutex_is_locked. rewrite Hm, Hs. cbn [Z.eqb STATE_BL_RUNNING Pos.eqb].
  unfold wait_event_interruptible_timeout.
  set (d2 := set_state (beaglelogic_request_stop d) STATE_BL_REQUEST_STOP).
  assert (Hok2 : ring_ok d2).
  { eapply ring_ok_same_ring; [| |exact Hok]; destruct d; reflexivity. }
  destruct (sleep_until_ends (fun x => state x =? STATE_BL_INITIALIZED)
              (wait_irqs E)
              (if signal E then SignalArrives else TimeoutElapses) d2)
    as (w & d3 & Hsleep & _ & Hcond & Hto & Hsig);
    [destruct (signal E); discriminate|exact Hok2|].
  rewrite Hsleep. cbn [obind]. destruct w; cbn [obind].
  - (* completion observed *)
    specialize (Hcond eq_refl). apply Z.eqb_eq in Hcond.
    cbn [Z.eqb ERESTARTSYS Z.opp]. exists (mutex_unlock d3).
    split; [reflexivity|]. split; [left; exact Hcond|].
    split; [|reflexivity].
    cbn. rewrite Hcond. discriminate.
  - (* timeout: forced recovery *)
    cbn [Z.eqb]. exists (mutex_unlock (stop_recover E d3)).
    split; [reflexivity|].
    assert (Hsg : signal E = false).
    { specialize (Hto eq_refl). destruct (signal E); [discriminate|reflexivity]. }
    unfold stop_recover.
    destruct (Z.eqb_spec (boot_pru0 E) 0) as [B0|B0]; cbn [negb].
    + destruct (Z.eqb_spec (boot_pru1 E) 0) as [B1|B1]; cbn [negb].
      * split; [left; reflexivity|]. split; [discriminate|reflexivity].
      * split; [right; auto|]. split; [discriminate|reflexivity].
    + split; [right; auto|]. split; [discriminate|reflexivity].
  - (* interrupted by a signal *)
    cbn [Z.eqb ERESTARTSYS Z.opp Pos.eqb].
    exists (mutex_unlock (set_state d3 STATE_BL_INITIALIZED)).
    split; [reflexivity|]. split; [left; reflexivity|].
    split; [discriminate|reflexivity].
Qed.

(** The example ring has valid pointers. *)
Lemma example_ring_ok (trig st : Z) (locked : bool) (s0 s1 : Z) :
  ring_ok (example_dev trig st locked s0 s1).
Proof.
  exists (example_ring s0 s1), 0%nat.
  split; [reflexivity|]. split; [reflexivity|]. split; [simpl; lia|].
  intros [|[|k]] b; simpl; intros Hb; try discriminate;
    injection Hb as <-; eexists; (split; [reflexivity|simpl; lia]).
Defined.

(** A stop on the running example device, with a buffer-ready and a
    capture-complete interrupt arriving during the wait. *)
Lemma stop_from_running_witness :
  exists d',
    beaglelogic_stop (mk_environment fw_ack [] [1; 2] false 0 0 false false)
      (example_dev 1 STATE_BL_RUNNING true 1 1) = Done d' /\
    (state d' = STATE_BL_INITIALIZED \/
     (state d' = STATE_BL_ERROR /\ false = false /\ (0 <> 0 \/ 0 <> 0))) /\
    state d' <> STATE_BL_REQUEST_STOP /\
    mutex d' = false.
Proof.
  apply (stop_from_running
           (mk_environment fw_ack [] [1; 2] false 0 0 false false)
           (example_dev 1 STATE_BL_RUNNING true 1 1)).
  - reflexivity.
  - reflexivity.
  - apply example_ring_ok.
Defined.

(** The ways out of the wait, on the example device: completion
    observed, timeout with both PRUs booting again, timeout with a PRU that
    does not boot, and a signal. *)
Lemma stop_paths_example :
  let d := example_dev BL_TRIGGERFLAGS_CONTINUOUS STATE_BL_RUNNING true
             STATE_BL_BUF_MAPPED STATE_BL_BUF_MAPPED in
  (exists d',
     beaglelogic_stop (mk_environment fw_ack [] [2] false 0 0 false false) d
       = Done d' /\ state d' = STATE_BL_INITIALIZED /\ mutex d' = false) /\
  (exists d',
     beaglelogic_stop (mk_environment fw_ack [] [1] false 0 0 false false) d
       = Done d' /\ state d' = STATE_BL_INITIALIZED /\ mutex d' = false) /\
  (exists d',
     beaglelogic_stop (mk_environment fw_ack [] [] false 0 (-5) false false) d
       = Done d' /\ state d' = STATE_BL_ERROR /\ mutex d' = false) /\
  (exists d',
     beaglelogic_stop (mk_environment fw_ack [] [] true 0 0 false false) d
       = Done d' /\ state d' = STATE_BL_INITIALIZED /\ mutex d' = false).
Proof.
  cbn zeta. repeat split; eexists; (split; [vm_compute; reflexivity|]);
    split; reflexivity.
Qed.

(** With such a ring the outcome of the stop is fixed by how the wait
    ended: Initialized when the completion was observed or a signal
    arrived, and after a timeout Initialized when both PRUs boot again and
    Error when one of them does not; the lock is free in every case. *)
Lemma stop_with_ring_outcome (E : environment) (d : beaglelogicdev) :
  state d = STATE_BL_RUNNING -> mutex d = true -> ring_ok d ->
  exists w d3 d',
    sleep_until (fun x => Done (state x =? STATE_BL_INITIALIZED)) (wait_irqs E)
      (if signal E then SignalArrives else TimeoutElapses)
      (set_state (beaglelogic_request_stop d) STATE_BL_REQUEST_STOP)
      = Done (w, d3) /\
    beaglelogic_stop E d = Done d' /\
    mutex d' = false /\
    state d' = match w with
               | TimedOut =>
                   if (boot_pru0 E =? 0) && (boot_pru1 E =? 0)
                   then STATE_BL_INITIALIZED else STATE_BL_ERROR
               | _ => STATE_BL_INITIALIZED
               end.
Proof.
  intros Hs Hm Hok.
  unfold beaglelogic_stop, mutex_is_locked. rewrite Hm, Hs.
  change (STATE_BL_RUNNING =? STATE_BL_RUNNING) with true. cbv iota.
  unfold wait_event_interruptible_timeout.
  set (d2 := set_state (beaglelogic_request_stop d) STATE_BL_REQUEST_STOP).
  assert (Hok2 : ring_ok d2).
  { eapply ring_ok_same_ring; [| |exact Hok]; destruct d; reflexivity. }
  destruct (sleep_until_ends (fun x => state x =? STATE_BL_INITIALIZED)
              (wait_irqs E)
              (if signal E then SignalArrives else TimeoutElapses) d2)
    as (w & d3 & Hsleep & _ & Hcond & _);
    [destruct (signal E); discriminate|exact Hok2|].
  exists w, d3. rewrite Hsleep. cbn [obind]. destruct w; cbn [obind].
  - specialize (Hcond eq_refl). apply Z.eqb_eq in Hcond.
    eexists. split; [reflexivity|]. split; [reflexivity|].
    split; [reflexivity|]. exact Hcond.
  - eexists. split; [reflexivity|]. split; [reflexivity|].
    split; [reflexivity|]. unfold stop_recover.
    destruct (boot_pru0 E =? 0); [|reflexivity].
    destruct (boot_pru1 E =? 0); reflexivity.
  - eexists. split; [reflexivity|]. split; [reflexivity|].
    split; reflexivity.
Qed.

(** Without a ring it is otherwise: on a Running device whose write
    cursor is NULL, a buffer-ready interrupt served first in the wait makes
    the handler dereference the cursor, and the stop does not return. *)
Lemma stop_faults_on_null_cursor (E : environment) (d : beaglelogicdev)
    (rest : list Z) :
  state d = STATE_BL_RUNNING -> mutex d = true -> bufbeingread d = None ->
  wait_irqs E = from_bl_irq_1 d :: rest ->
  beaglelogic_stop E d = Fault.
Proof.
  intros Hs Hm Hcur Hirqs.
  unfold beaglelogic_stop, mutex_is_locked. rewrite Hm, Hs.
  change (STATE_BL_RUNNING =? STATE_BL_RUNNING) with true. cbv iota.
  unfold wait_event_interruptible_timeout. rewrite Hirqs.
  cbn [sleep_until obind].
  change (state (set_state (beaglelogic_request_stop d) STATE_BL_REQUEST_STOP)
          =? STATE_BL_INITIALIZED) with false. cbv iota.
  unfold beaglelogic_serve_irq.
  replace (from_bl_irq_1
             (set_state (beaglelogic_request_stop d) STATE_BL_REQUEST_STOP))
    with (from_bl_irq_1 d) by (destruct d; reflexivity).
  rewrite Z.eqb_refl. cbn zeta.
  unfold beaglelogic_unmap_buffer, write_buf_state.
  replace (lastbufready _) with (@None nat)
    by (destruct d; simpl in *; subst; reflexivity).
  reflexivity.
Qed.

(** C3, at the failing input.  A freshly probed device has no buffers;
    writing 1 to the sysfs attribute [state] starts it all the same
    ([beaglelogic_start] checks nothing, while [beaglelogic_f_open] refuses
    a device without buffers), so the device is Running with the lock held
    and a NULL write cursor.  A stop of that device, here by writing 0 to
    the same attribute, sets RequestStop and waits; the buffer-ready
    interrupt served during the wait dereferences the NULL cursor, and the
    stop never gets to set Initialized or Error or to release the lock. *)
Theorem stop_without_ring_faults :
  let E := mk_environment fw_ack [] [from_bl_irq_1 probed_dev] false 0 0
             false false in
  exists d,
    bl_state_store quiet_env (Some 1) 2 probed_dev = Done (2, d) /\
    driver_reachable d /\
    state d = STATE_BL_RUNNING /\ mutex d = true /\ buffers d = None /\
    beaglelogic_stop E d = Fault /\
    bl_state_store E (Some 0) 2 d = Fault.
Proof.
  cbn zeta.
  destruct (bl_state_store quiet_env (Some 1) 2 probed_dev)
    as [[ret d]| | |] eqn:Hstore; try (vm_compute in Hstore; discriminate Hstore).
  assert (Hstep : driver_step probed_dev d)
    by exact (dstep_state_store _ _ _ _ _ _ Hstore).
  vm_compute in Hstore. injection Hstore as <- <-.
  eexists. split; [reflexivity|].
  split.
  { eapply dreach_step; [|exact Hstep].
    apply (dreach_probe 1 2 128). reflexivity. }
  split; [reflexivity|]. split; [reflexivity|]. split; [reflexivity|].
  split; vm_compute; reflexivity.
Qed.

(** ** Machine integers *)

Lemma wrap32_range (x : Z) : 0 <= wrap32 x < 2 ^ 32.
Proof. unfold wrap32. apply Z.mod_pos_bound. reflexivity. Qed.

Lemma wrap32_small (x : Z) : 0 <= x < 2 ^ 32 -> wrap32 x = x.
Proof. intros H. unfold wrap32. apply Z.mod_small. exact H. Qed.

Lemma to_int32_small (x : Z) : 0 <= x < 2 ^ 31 -> to_int32 x = x.
Proof.
  intros H. unfold to_int32. rewrite wrap32_small by lia.
  destruct (Z.ltb_spec x (2 ^ 31)); [reflexivity|lia].
Qed.

Lemma wrap32_to_int32 (x : Z) : 0 <= x < 2 ^ 32 -> wrap32 (to_int32 x) = x.
Proof.
  intros H. unfold to_int32. rewrite (wrap32_small x) by exact H.
  destruct (Z.ltb_spec x (2 ^ 31)).
  - apply wrap32_small. lia.
  - unfold wrap32. symmetry. apply (Z.mod_unique_pos _ _ (-1)); lia.
Qed.

(** Without wrap-around, [DIV_ROUND_UP] is the ceiling of the quotient. *)
Lemma DIV_ROUND_UP_ceil (b u : Z) :
  0 <= b -> 0 < u -> b + u - 1 < 2 ^ 32 -> DIV_ROUND_UP b u = ceil_div b u.
Proof.
  intros Hb Hu Hfit. unfold DIV_ROUND_UP, ceil_div.
  rewrite wrap32_small by lia.
  pose proof (Z.div_mod (- b) u ltac:(lia)) as Hdm.
  pose proof (Z.mod_pos_bound (- b) u Hu) as Hr.
  symmetry. apply (Z.div_unique _ _ _ (u - 1 - (- b) mod u)); lia.
Qed.

(** The buffer count is a [uint32_t] of at least 2. *)
Lemma count_range (b u : Z) :
  u <> 0 -> 2 <= Z.max (DIV_ROUND_UP b u) 2 < 2 ^ 32.
Proof.
  intros Hu. unfold DIV_ROUND_UP.
  pose proof (wrap32_range (b + u - 1)) as Hw.
  set (a := wrap32 (b + u - 1)) in *.
  pose proof (Z.div_mod a u Hu) as Hdm.
  destruct (Z.lt_total u 0) as [Hneg|[H0|Hpos]]; [|contradiction|].
  - pose proof (Z.mod_neg_bound a u Hneg) as Hr. nia.
  - pose proof (Z.mod_pos_bound a u Hpos) as Hr. nia.
Qed.

(** ** Ring allocation *)

Lemma memalloc_loop_true (A : allocator) (U : Z) (cnt : nat) :
  forall (n i : nat) (l : list logic_buffer) (heap : list dma_region)
         (l' : list logic_buffer) (heap' : list dma_region),
    memalloc_loop A U cnt n i l heap = (true, l', heap') ->
    (i + n <= length l)%nat ->
    length l' = length l /\
    (forall k, (k < i)%nat \/ (i + n <= k)%nat -> l' !! k = l !! k) /\
    (forall k, (i <= k < i + n)%nat -> l' !! k = Some (alloc_entry A U cnt k)) /\
    (forall k, (i <= k < i + n)%nat -> fst (dma_alloc_coherent A k) <> 0) /\
    length heap' = (n + length heap)%nat.
Proof.
  induction n as [|n IH]; intros i l heap l' heap' Hrun Hlen.
  - simpl in Hrun. injection Hrun as <- <-.
    split; [reflexivity|]. split; [reflexivity|].
    split; [intros k ?; lia|]. split; [intros k ?; lia|reflexivity].
  - simpl in Hrun. destruct (dma_alloc_coherent A i) as [b h] eqn:Ha.
    destruct (Z.eqb_spec b 0) as [|Hb]; [discriminate|].
    apply IH in Hrun; [|rewrite length_insert; lia].
    destruct Hrun as (Hlen' & Hout & Hin & Hok & Hheap).
    rewrite length_insert in Hlen'.
    split; [exact Hlen'|]. split; [|split; [|split]].
    + intros k Hk. rewrite Hout by lia.
      apply list_lookup_insert_ne. lia.
    + intros k Hk. destruct (decide (k = i)) as [->|Hne].
      * rewrite Hout by lia.
        rewrite list_lookup_insert_eq by lia.
        unfold alloc_entry. rewrite Ha. reflexivity.
      * apply Hin. lia.
    + intros k Hk. destruct (decide (k = i)) as [->|Hne].
      * rewrite Ha. exact Hb.
      * apply Hok. lia.
    + rewrite Hheap. simpl. lia.
Qed.

Lemma memalloc_loop_succeeds (A : allocator) (U : Z) (cnt : nat) :
  forall (n i : nat) (l : list logic_buffer) (heap : list dma_region),
    (forall k, (i <= k < i + n)%nat -> fst (dma_alloc_coherent A k) <> 0) ->
    exists l' heap', memalloc_loop A U cnt n i l heap = (true, l', heap').
Proof.
  induction n as [|n IH]; intros i l heap Hok.
  - simpl. eauto.
  - simpl. destruct (dma_alloc_coherent A i) as [b h] eqn:Ha.
    destruct (Z.eqb_spec b 0) as [Hb|Hb].
    + exfalso. apply (Hok i); [lia|]. rewrite Ha. exact Hb.
    + apply IH. intros k Hk. apply Hok. lia.
Qed.

(** A call that returns 0 went through the whole allocation loop. *)
Lemma memalloc_returns_0 (A : allocator) (d d' : beaglelogicdev) (B : Z)
    (heap heap' : list dma_region) :
  beaglelogic_memalloc A d B heap = Done (0, d', heap') ->
  let cnt := to_int32 (Z.max (DIV_ROUND_UP B (bufunitsize d)) 2) in
  mutex d = false /\ bufunitsize d <> 0 /\
  wrap32 cnt <= maxbufcount d /\ kzalloc_ok A = true /\
  exists l,
    memalloc_loop A (bufunitsize d) (Z.to_nat cnt) (Z.to_nat cnt) 0
      (replicate (Z.to_nat cnt) zero_buffer) heap = (true, l, heap') /\
    d' = set_buffers (set_bufcount d (wrap32 cnt)) (Some l).
Proof.
  unfold beaglelogic_memalloc, mutex_trylock. intros H.
  destruct (mutex d) eqn:Hm; cbn [negb] in H; [discriminate|].
  cbn [bufunitsize set_mutex maxbufcount] in H.
  destruct (Z.eqb_spec (bufunitsize d) 0) as [|HU]; [discriminate|].
  cbn zeta in H.
  destruct (Z.ltb_spec (maxbufcount d)
              (wrap32 (to_int32 (Z.max (DIV_ROUND_UP B (bufunitsize d)) 2))))
    as [|Hmax]; [discriminate|].
  destruct (kzalloc_ok A); cbn [negb] in H; [|discriminate].
  destruct (memalloc_loop _ _ _ _ _ _ _) as [[ok l] heap1] eqn:Hloop.
  destruct ok; [|discriminate].
  injection H as <- <-.
  cbn zeta. split; [reflexivity|]. split; [assumption|].
  split; [assumption|]. split; [reflexivity|].
  exists l. split; [first [exact Hloop|reflexivity]|].
  destruct d; simpl in *; subst; reflexivity.
Qed.

(** With the lock free, a buffer list that can be allocated and a DMA
    allocator that does not fail, a request within the advertised
    capacity allocates exactly [cnt] buffers of the unit size, all Mapped,
    each linked to the next and the last to the first. *)
Lemma memalloc_succeeds (A : allocator) (d : beaglelogicdev) (B : Z)
    (heap : list dma_region) :
  let c := Z.max (DIV_ROUND_UP B (bufunitsize d)) 2 in
  mutex d = false -> bufunitsize d <> 0 ->
  c <= maxbufcount d -> maxbufcount d < 2 ^ 31 ->
  kzalloc_ok A = true ->
  (forall k, (k < Z.to_nat c)%nat -> fst (dma_alloc_coherent A k) <> 0) ->
  exists l heap',
    beaglelogic_memalloc A d B heap
      = Done (0, set_buffers (set_bufcount d c) (Some l), heap') /\
    length l = Z.to_nat c /\
    length heap' = (Z.to_nat c + length heap)%nat /\
    forall k, (k < Z.to_nat c)%nat ->
      l !! k = Some (alloc_entry A (bufunitsize d) (Z.to_nat c) k).
Proof.
  intros c Hm HU Hmax Hcap Hkz Hdma.
  pose proof (count_range B (bufunitsize d) HU) as Hc. fold c in Hc.
  assert (Hcnt : to_int32 c = c) by (apply to_int32_small; lia).
  destruct (memalloc_loop_succeeds A (bufunitsize d) (Z.to_nat c) (Z.to_nat c)
              0 (replicate (Z.to_nat c) zero_buffer) heap)
    as (l & heap' & Hloop); [intros k Hk; apply Hdma; lia|].
  destruct (memalloc_loop_true _ _ _ _ _ _ _ _ _ Hloop)
    as (Hlen & _ & Hin & _ & Hheap); [rewrite length_replicate; lia|].
  rewrite length_replicate in Hlen.
  exists l, heap'. split; [|split; [exact Hlen|split; [exact Hheap|]]].
  - unfold beaglelogic_memalloc, mutex_trylock. rewrite Hm. cbn [negb].
    cbn [bufunitsize set_mutex maxbufcount].
    destruct (Z.eqb_spec (bufunitsize d) 0) as [|_]; [contradiction|].
    cbn zeta. fold c. rewrite Hcnt. rewrite (wrap32_small c) by lia.
    destruct (Z.ltb_spec (maxbufcount d) c) as [|_]; [lia|].
    rewrite Hkz. cbn [negb bufunitsize set_bufcount set_mutex]. rewrite Hloop.
    do 2 f_equal. f_equal. destruct d; simpl in *; subst; reflexivity.
  - intros k Hk. apply Hin. lia.
Qed.

(** A request above the advertised capacity fails with -ENOMEM and leaves
    the device and the DMA heap as they were. *)
Lemma memalloc_over_capacity (A : allocator) (d : beaglelogicdev) (B : Z)
    (heap : list dma_region) :
  let c := Z.max (DIV_ROUND_UP B (bufunitsize d)) 2 in
  mutex d = false -> bufunitsize d <> 0 -> maxbufcount d < c ->
  beaglelogic_memalloc A d B heap = Done (- ENOMEM, d, heap).
Proof.
  intros c Hm HU Hmax.
  pose proof (count_range B (bufunitsize d) HU) as Hc. fold c in Hc.
  unfold beaglelogic_memalloc, mutex_trylock. rewrite Hm. cbn [negb].
  cbn [bufunitsize set_mutex maxbufcount].
  destruct (Z.eqb_spec (bufunitsize d) 0) as [|_]; [contradiction|].
  cbn zeta. fold c. rewrite (wrap32_to_int32 c) by lia.
  destruct (Z.ltb_spec (maxbufcount d) c) as [_|]; [|lia].
  do 2 f_equal. f_equal. apply trylock_unlock_free. exact Hm.
Qed.

(** Following [next] around a ring linked the way the allocation loop
    links it. *)
Lemma follow_next_ring (l : list logic_buffer) (n : nat) :
  (forall k, (k < n)%nat ->
     exists b, l !! k = Some b /\ next b = Some ((k + 1) mod n)%nat) ->
  forall m i, (i < n)%nat ->
    follow_next l m (Some i) = Some ((i + m) mod n)%nat.
Proof.
  intros Hring. induction m as [|m IH]; intros i Hi.
  - simpl. rewrite Nat.add_0_r, Nat.mod_small by exact Hi. reflexivity.
  - simpl. destruct (Hring i Hi) as (b & -> & ->).
    rewrite IH by (apply Nat.mod_upper_bound; lia).
    f_equal. rewrite Nat.Div0.add_mod_idemp_l. f_equal. lia.
Qed.

(** C9: after an allocation that returned 0 the device has a ring of
    [bufcount] buffers, at least two; following [next] as many times as
    there are buffers leads from every buffer back to itself, and the
    [next] of the last buffer is the first buffer. *)
Theorem ring_is_circular (A : allocator) (d d' : beaglelogicdev) (B : Z)
    (heap heap' : list dma_region) :
  maxbufcount d < 2 ^ 31 ->
  beaglelogic_memalloc A d B heap = Done (0, d', heap') ->
  exists l,
    buffers d' = Some l /\
    Z.of_nat (length l) = bufcount d' /\
    2 <= bufcount d' /\
    (forall i, (i < length l)%nat ->
       follow_next l (length l) (Some i) = Some i) /\
    (exists last, l !! (length l - 1)%nat = Some last /\
                  next last = Some 0%nat).
Proof.
  intros Hcap Hrun.
  destruct (memalloc_returns_0 A d d' B heap heap' Hrun)
    as (Hm & HU & Hmax & Hkz & l & Hloop & ->).
  pose proof (count_range B (bufunitsize d) HU) as Hc.
  set (c := Z.max (DIV_ROUND_UP B (bufunitsize d)) 2) in *.
  rewrite (wrap32_to_int32 c) in * by lia.
  rewrite (to_int32_small c) in Hloop by lia.
  destruct (memalloc_loop_true _ _ _ _ _ _ _ _ _ Hloop)
    as (Hlen & _ & Hin & _ & _); [rewrite length_replicate; lia|].
  rewrite length_replicate in Hlen.
  assert (Hring : forall k, (k < Z.to_nat c)%nat ->
             exists b, l !! k = Some b /\
                       next b = Some ((k + 1) mod Z.to_nat c)%nat).
  { intros k Hk. eexists. split; [apply Hin; lia|reflexivity]. }
  exists l. split; [reflexivity|].
  split; [rewrite Hlen; cbn [bufcount set_buffers set_bufcount]; lia|].
  split; [cbn [bufcount set_buffers set_bufcount]; lia|].
  rewrite Hlen. split.
  - intros i Hi. rewrite (follow_next_ring l (Z.to_nat c) Hring) by exact Hi.
    f_equal. replace (i + Z.to_nat c)%nat with (i + 1 * Z.to_nat c)%nat by lia.
    rewrite Nat.Div0.mod_add. apply Nat.mod_small. exact Hi.
  - destruct (Hring (Z.to_nat c - 1)%nat) as (b & Hb & Hn); [lia|].
    exists b. split; [exact Hb|]. rewrite Hn. f_equal.
    replace (Z.to_nat c - 1 + 1)%nat with (Z.to_nat c) by lia.
    apply Nat.Div0.mod_same.
Qed.

(** A 12 MiB request on the probed device: a ring of three buffers. *)
Lemma ring_is_circular_witness :
  exists d' heap' l,
    beaglelogic_memalloc good_allocator probed_dev 12582912 []
      = Done (0, d', heap') /\
    buffers d' = Some l /\
    Z.of_nat (length l) = bufcount d' /\
    2 <= bufcount d' /\
    (forall i, (i < length l)%nat ->
       follow_next l (length l) (Some i) = Some i) /\
    (exists last, l !! (length l - 1)%nat = Some last /\
                  next last = Some 0%nat).
Proof.
  eexists. eexists.
  assert (E : beaglelogic_memalloc good_allocator probed_dev 12582912 []
              = Done (0, _, _)) by (vm_compute; reflexivity).
  destruct (ring_is_circular good_allocator probed_dev _ 12582912 [] _
              ltac:(vm_compute; reflexivity) E) as (l & H).
  exists l. split; [exact E|exact H].
Defined.

(** C4, at a request of 4294967295 bytes with the default 4 MiB unit and
    128 advertised buffers: the ceiling of the quotient is 1024, far above
    the capacity, yet [DIV_ROUND_UP] wraps around in 32 bits, the count
    becomes 2, and the call succeeds with two regions allocated. *)
Theorem memalloc_count_wraps :
  let d := probed_dev in
  let B := 4294967295 in
  Z.max (ceil_div B (bufunitsize d)) 2 = 1024 /\
  maxbufcount d = 128 /\
  exists d' heap',
    beaglelogic_memalloc good_allocator d B [] = Done (0, d', heap') /\
    bufcount d' = 2 /\ length heap' = 2%nat.
Proof.
  cbn zeta. split; [reflexivity|]. split; [reflexivity|].
  eexists. eexists. split; [vm_compute; reflexivity|].
  split; reflexivity.
Qed.

(** Where [DIV_ROUND_UP] does not wrap, allocation does what C4 says: the
    count is [max (ceil (B / U)) 2]; above the advertised capacity the
    call fails with -ENOMEM and changes nothing; otherwise, the buffer
    list and every region being available, exactly that many regions of
    the unit size are allocated, all Mapped. *)
Lemma memalloc_count_without_wrap (A : allocator) (d : beaglelogicdev)
    (B : Z) (heap : list dma_region) :
  let c := Z.max (ceil_div B (bufunitsize d)) 2 in
  0 <= B -> 0 < bufunitsize d -> B + bufunitsize d - 1 < 2 ^ 32 ->
  mutex d = false -> maxbufcount d < 2 ^ 31 ->
  (maxbufcount d < c ->
   beaglelogic_memalloc A d B heap = Done (- ENOMEM, d, heap)) /\
  (c <= maxbufcount d -> kzalloc_ok A = true ->
   (forall k, (k < Z.to_nat c)%nat -> fst (dma_alloc_coherent A k) <> 0) ->
   exists l heap',
     beaglelogic_memalloc A d B heap
       = Done (0, set_buffers (set_bufcount d c) (Some l), heap') /\
     length l = Z.to_nat c /\
     length heap' = (Z.to_nat c + length heap)%nat /\
     forall k, (k < Z.to_nat c)%nat ->
       exists b, l !! k = Some b /\ size b = bufunitsize d /\
                 buf_state b = STATE_BL_BUF_MAPPED).
Proof.
  intros c HB HU Hfit Hm Hcap.
  assert (Hc : c = Z.max (DIV_ROUND_UP B (bufunitsize d)) 2).
  { unfold c. rewrite DIV_ROUND_UP_ceil by assumption. reflexivity. }
  split.
  - intros Hover. apply memalloc_over_capacity; [assumption|lia|].
    rewrite <- Hc. exact Hover.
  - intros Hle Hkz Hdma.
    assert (HU0 : bufunitsize d <> 0) by lia.
    rewrite Hc in Hle, Hdma.
    destruct (memalloc_succeeds A d B heap Hm HU0 Hle Hcap Hkz Hdma)
      as (l & heap' & Hrun & Hlen & Hheap & Hin).
    rewrite <- Hc in *. exists l, heap'.
    split; [exact Hrun|]. split; [exact Hlen|]. split; [exact Hheap|].
    intros k Hk. eexists. split; [apply Hin; exact Hk|].
    split; reflexivity.
Qed.

(** C10, at a failure of the buffer-list allocation ([devm_kzalloc]
    returns NULL) for an 8 MiB request on a freshly probed device: the
    call returns -ENOMEM with the buffer array NULL, but [bufcount] keeps
    the count 2 that was stored before the allocation was attempted. *)
Theorem memalloc_list_failure_keeps_count :
  exists d',
    beaglelogic_memalloc no_list_allocator probed_dev (8 * 1024 * 1024) []
      = Done (- ENOMEM, d', []) /\
    buffers d' = None /\ bufcount d' = 2 /\ bufcount d' <> 0.
Proof.
  eexists. split; [vm_compute; reflexivity|].
  split; [reflexivity|]. split; [reflexivity|discriminate].
Qed.

(** The same failure in general: whenever the buffer list cannot be
    allocated, the count is left at the number of buffers asked for. *)
Lemma memalloc_list_failure (A : allocator) (d : beaglelogicdev) (B : Z)
    (heap : list dma_region) :
  let c := Z.max (DIV_ROUND_UP B (bufunitsize d)) 2 in
  mutex d = false -> bufunitsize d <> 0 -> c <= maxbufcount d ->
  kzalloc_ok A = false ->
  beaglelogic_memalloc A d B heap
    = Done (- ENOMEM, set_buffers (set_bufcount d c) None, heap).
Proof.
  intros c Hm HU Hmax Hkz.
  pose proof (count_range B (bufunitsize d) HU) as Hc. fold c in Hc.
  unfold beaglelogic_memalloc, mutex_trylock. rewrite Hm. cbn [negb].
  cbn [bufunitsize set_mutex maxbufcount].
  destruct (Z.eqb_spec (bufunitsize d) 0) as [|_]; [contradiction|].
  cbn zeta. fold c. rewrite (wrap32_to_int32 c) by lia.
  destruct (Z.ltb_spec (maxbufcount d) c) as [|_]; [lia|].
  rewrite Hkz. cbn [negb].
  do 2 f_equal. f_equal. destruct d; simpl in *; subst; reflexivity.
Qed.

(** ** Read *)

(** A copy of a positive number of bytes never returns 0. *)
Lemma perform_copy_nonzero (E : environment) (sz : Z)
    (r r' : logic_buffer_reader) (d d' : beaglelogicdev) (ret : Z) :
  0 < sz < 2 ^ 31 -> 0 < remaining r ->
  perform_copy E sz r d = Done (ret, r', d') -> ret <> 0.
Proof.
  intros Hsz Hrem. unfold perform_copy.
  rewrite (to_int32_small (Z.min (remaining r) sz)) by lia.
  intros H. apply obind_done in H as (_b & _ & H).
  destruct (copy_fails E).
  - injection H as <- _ _. discriminate.
  - apply obind_done in H as (d1 & _ & H).
    apply obind_done in H as (r2 & _ & H).
    injection H as <- _ _. lia.
Qed.

(** When read returns 0 and when it does not, for a reader that has been
    initialized, has bytes left in its buffer and asks for at least one
    byte. *)
Lemma read_eof_iff (E : environment) (nonblock : bool) (sz : Z)
    (r : logic_buffer_reader) (d : beaglelogicdev) :
  rd_buf r <> None -> 0 <= pos r -> 0 < remaining r -> 0 < sz < 2 ^ 31 ->
  (exists r' d', beaglelogic_f_read E nonblock sz r d = Done (0, r', d')) <->
  (rd_buf r = Some 0%nat /\ buffers d <> None /\ pos r = 0 /\
   state d = STATE_BL_INITIALIZED).
Proof.
  intros Hinit Hpos Hrem Hsz. unfold beaglelogic_f_read. split.
  - intros (r' & d' & H).
    destruct (Z.eqb_spec (state d) STATE_BL_ERROR) as [|Herr].
    { injection H as H _ _. discriminate. }
    destruct (Z.ltb_spec 0 (pos r)) as [Hp|Hp].
    { exfalso. eapply perform_copy_nonzero; [exact Hsz|exact Hrem|exact H|reflexivity]. }
    destruct (rd_buf r) as [p|] eqn:Hp0; [|contradiction].
    destruct (ptr_eqb (Some p) (buffers_ptr d)) eqn:Hptr; cbn [andb] in H.
    + destruct (Z.eqb_spec (state d) STATE_BL_INITIALIZED) as [Hst|Hst].
      * unfold buffers_ptr in Hptr.
        destruct (buffers d) eqn:Hb; [|discriminate].
        simpl in Hptr. apply Nat.eqb_eq in Hptr. subst p.
        split; [reflexivity|]. split; [discriminate|]. split; [lia|exact Hst].
      * exfalso. cbn [obind] in H. unfold read_when_ready in H.
        destruct nonblock.
        -- apply obind_done in H as (b & _ & H).
           destruct (negb _).
           ++ injection H as H _ _. discriminate.
           ++ eapply perform_copy_nonzero; [exact Hsz|exact Hrem|exact H|reflexivity].
        -- apply obind_done in H as ([ret d2] & _ & H).
           destruct (negb _).
           ++ injection H as H _ _. discriminate.
           ++ eapply perform_copy_nonzero; [exact Hsz|exact Hrem|exact H|reflexivity].
    + exfalso. cbn [obind] in H. unfold read_when_ready in H.
      destruct nonblock.
      * apply obind_done in H as (b & _ & H).
        destruct (negb _).
        -- injection H as H _ _. discriminate.
        -- eapply perform_copy_nonzero; [exact Hsz|exact Hrem|exact H|reflexivity].
      * apply obind_done in H as ([ret d2] & _ & H).
        destruct (negb _).
        -- injection H as H _ _. discriminate.
        -- eapply perform_copy_nonzero; [exact Hsz|exact Hrem|exact H|reflexivity].
  - intros (Hb0 & Hbufs & Hp & Hst). exists r, d.
    rewrite Hst, Hp, Hb0. cbn [Z.eqb Z.ltb Z.compare STATE_BL_INITIALIZED STATE_BL_ERROR Pos.eqb].
    unfold buffers_ptr. destruct (buffers d); [|contradiction].
    reflexivity.
Qed.

(** C5, counterexample, in two parts.  In a continuous session whose
    first buffer has just been filled, a read of length 0 by the reader
    standing at the start of that buffer returns 0 although the device is
    Running, not Initialized.  And in a oneshot capture over two buffers
    of 4096 bytes, read in two blocking reads with the two buffer-ready
    interrupts, a third read issued before the completion signal has been
    served is not the end of file: buffer 0 is still Unmapped, so the read
    returns its 4096 bytes again and the device is still Running. *)
Lemma read_eof_fails_two_ways :
  (let d := example_dev BL_TRIGGERFLAGS_CONTINUOUS STATE_BL_RUNNING true
              STATE_BL_BUF_MAPPED STATE_BL_BUF_MAPPED in
   let r := mk_reader (Some 0%nat) 0 4096 in
   exists d1,
     beaglelogic_serve_irq (from_bl_irq_1 d) d = Done d1 /\
     rd_buf r <> None /\
     state d1 = STATE_BL_RUNNING /\ state d1 <> STATE_BL_INITIALIZED /\
     exists r' d', beaglelogic_f_read quiet_env false 0 r d1 = Done (0, r', d')) /\
  (let d := example_dev BL_TRIGGERFLAGS_ONESHOT STATE_BL_INITIALIZED false
              STATE_BL_BUF_MAPPED STATE_BL_BUF_MAPPED in
   let E := mk_environment fw_ack [] [from_bl_irq_1 d] false 0 0 false false in
   bufcount d = 2 /\ bufunitsize d = 4096 /\
   exists r' d',
     read_repeatedly E false 3 (bufunitsize d) (mk_reader None 0 0) d
       = Done ([4096; 4096; 4096], r', d') /\
     state d' = STATE_BL_RUNNING).
Proof.
  cbn zeta. split.
  - eexists. split; [vm_compute; reflexivity|].
    split; [discriminate|]. split; [reflexivity|]. split; [discriminate|].
    eexists. eexists. vm_compute. reflexivity.
  - split; [reflexivity|]. split; [reflexivity|].
    eexists. eexists. split; [vm_compute; reflexivity|]. reflexivity.
Qed.

(** ** A oneshot session, read buffer by buffer *)

Section OneshotSession.

Variable E : environment.
Variables (n : nat) (U irq1 irq2 : Z).

Hypothesis n_pos : (0 < n)%nat.
Hypothesis U_range : 0 < U < 2 ^ 31.
Hypothesis one_ready_irq : wait_irqs E = [irq1].
Hypothesis copy_works : copy_fails E = false.

(** Filling buffer [k] of a ring filled up to [k]. *)
Lemma ring_filled_upto_step (k : nat) (l : list logic_buffer)
    (b : logic_buffer) :
  (k < n)%nat -> ring_filled_upto n U k l -> l !! k = Some b ->
  ring_filled_upto n U (S k)
    (<[k := set_buf_state b STATE_BL_BUF_UNMAPPED]> l).
Proof.
  intros Hk [Hlen Hring] Hb. split; [rewrite length_insert; exact Hlen|].
  intros i Hi. destruct (decide (i = k)) as [->|Hne].
  - rewrite list_lookup_insert_eq by lia.
    destruct (Hring k Hk) as (b0 & Hb0 & Hsz & Hidx & Hnx & _).
    rewrite Hb in Hb0. injection Hb0 as <-.
    eexists. split; [reflexivity|]. cbn [size index next buf_state set_buf_state].
    split; [exact Hsz|]. split; [exact Hidx|]. split; [exact Hnx|].
    destruct (Nat.ltb_spec k (S k)); [reflexivity|lia].
  - rewrite list_lookup_insert_ne by (intros ->; contradiction).
    destruct (Hring i Hi) as (b0 & Hb0 & Hsz & Hidx & Hnx & Hst).
    exists b0. split; [exact Hb0|]. split; [exact Hsz|].
    split; [exact Hidx|]. split; [exact Hnx|].
    rewrite Hst.
    destruct (Nat.ltb_spec i k), (Nat.ltb_spec i (S k)); try reflexivity; lia.
Qed.

(** The blocking part of a read of one whole buffer [k], the next to be
    filled: the reader sleeps, the buffer-ready interrupt marks the
    buffer Unmapped and moves the write cursor, the reader copies [U]
    bytes and moves on to the successor. *)
Lemma read_next_buffer (k : nat) (d : beaglelogicdev) :
  (k < n)%nat -> dev_at n U irq1 irq2 k d ->
  exists d',
    read_when_ready E false U (mk_reader (Some k) 0 U) d
      = Done (U, mk_reader (Some ((k + 1) mod n)%nat) 0 U, d') /\
    dev_at n U irq1 irq2 (S k) d'.
Proof.
  intros Hk ((l & Hl & Hring) & Hcur & Hst & Hmx & Htrig & Hi1 & Hi2).
  pose proof Hring as [Hlen Hall].
  replace (Nat.min k (n - 1)) with k in Hcur by lia.
  destruct (Hall k Hk) as (b & Hb & Hsz & Hidx & Hnx & Hbs).
  destruct (Nat.ltb_spec k k) as [|_]; [lia|].
  set (j := ((k + 1) mod n)%nat) in *.
  assert (Hj : (j < n)%nat) by (apply Nat.mod_upper_bound; lia).
  destruct (Hall j Hj) as (nb & Hnb & Hnsz & Hnidx & _ & _).
  set (l' := <[k := set_buf_state b STATE_BL_BUF_UNMAPPED]> l).
  pose proof (ring_filled_upto_step k l b Hk Hring Hb) as Hring'.
  fold l' in Hring'. destruct Hring' as [Hlen' Hall'].
  destruct (Hall' k Hk) as (b' & Hb' & Hsz' & _ & Hnx' & Hbs').
  destruct (Nat.ltb_spec k (S k)) as [_|]; [|lia].
  destruct (Hall' j Hj) as (nb' & Hnb' & Hnsz' & _ & _ & _).
  (* the device after the interrupt *)
  pose proof (serve_irq_ready d irq1 l k j b nb (eq_sym Hi1) Hl Hcur Hb Hnx Hnb)
    as Hirq.
  cbn zeta in Hirq. fold l' in Hirq.
  rewrite Htrig, Hnidx in Hirq. cbn [Z.eqb BL_TRIGGERFLAGS_ONESHOT negb orb] in Hirq.
  set (d2 := set_buffers (set_lastbufready d (Some k)) (Some l')) in *.
  set (d' := if negb (Z.of_nat j =? 0) then set_bufbeingread d2 (Some j) else d2) in *.
  assert (Hl' : buffers d' = Some l').
  { unfold d'. destruct (negb _); reflexivity. }
  exists d'. split.
  - unfold read_when_ready, wait_event_interruptible.
    rewrite one_ready_irq. cbn [rd_buf sleep_until].
    rewrite (deref_lookup d l k b Hl Hb). cbn [obind].
    rewrite Hbs. cbn [Z.eqb STATE_BL_BUF_MAPPED STATE_BL_BUF_UNMAPPED Pos.eqb].
    rewrite Hirq. cbn [obind].
    rewrite (deref_lookup d' l' k b' Hl' Hb'). cbn [obind].
    rewrite Hbs'. cbn [Z.eqb STATE_BL_BUF_UNMAPPED Pos.eqb negb obind].
    unfold perform_copy. cbn zeta. cbn [rd_buf pos remaining].
    rewrite (deref_lookup d' l' k b' Hl' Hb'). cbn [obind].
    rewrite copy_works.
    unfold detect_drop.
    rewrite (deref_lookup d' l' k b' Hl' Hb'). cbn [obind].
    rewrite Hbs'. cbn [Z.eqb STATE_BL_BUF_UNMAPPED STATE_BL_BUF_MAPPED Pos.eqb obind].
    rewrite Z.min_id, (to_int32_small U) by lia.
    replace (U - U) with 0 by lia. replace (0 + U) with U by lia.
    unfold advance_reader. cbn [remaining rd_buf].
    rewrite (wrap32_small 0) by lia. cbn [Z.eqb].
    rewrite (deref_lookup d' l' k b' Hl' Hb'). cbn [obind].
    rewrite Hnx'. fold j.
    rewrite (deref_lookup d' l' j nb' Hl' Hnb'). cbn [obind].
    rewrite Hnsz', (wrap32_small U) by lia. reflexivity.
  - split; [exists l'; split; [exact Hl'|split; assumption]|].
    split.
    { unfold d', j.
      destruct (decide (k + 1 = n)%nat) as [Hlast|Hmid].
      - rewrite Hlast, Nat.Div0.mod_same.
        change (negb (Z.of_nat 0 =? 0)) with false.
        unfold d2. cbn [bufbeingread set_buffers set_lastbufready].
        rewrite Hcur.
        f_equal. lia.
      - rewrite Nat.mod_small by lia.
        destruct (Z.eqb_spec (Z.of_nat (k + 1)) 0) as [|_]; [lia|].
        cbn [negb bufbeingread set_bufbeingread]. f_equal. lia. }
    unfold d'. destruct (negb _); cbn; auto.
Qed.

(** A read in the middle of the session is such a blocking read. *)
Lemma read_in_session (k : nat) (d : beaglelogicdev) :
  (k < n)%nat -> dev_at n U irq1 irq2 k d ->
  beaglelogic_f_read E false U (mk_reader (Some k) 0 U) d
    = read_when_ready E false U (mk_reader (Some k) 0 U) d.
Proof.
  intros Hk (_ & _ & Hst & _). unfold beaglelogic_f_read.
  rewrite Hst. cbn [pos rd_buf].
  change (STATE_BL_RUNNING =? STATE_BL_ERROR) with false.
  change (STATE_BL_RUNNING =? STATE_BL_INITIALIZED) with false.
  change (0 <? 0) with false.
  rewrite andb_false_r. reflexivity.
Qed.

(** The first read of a fresh reader starts the capture and then is
    such a blocking read of buffer 0. *)
Lemma first_read_starts (d : beaglelogicdev) (l : list logic_buffer) :
  buffers d = Some l -> ring_filled_upto n U 0 l ->
  state d <> STATE_BL_ERROR -> state d <> STATE_BL_RUNNING ->
  mutex d = false -> samplerate d <> 0 ->
  triggerflags d = BL_TRIGGERFLAGS_ONESHOT ->
  from_bl_irq_1 d = irq1 -> from_bl_irq_2 d = irq2 ->
  exists d1,
    beaglelogic_f_read E false U (mk_reader None 0 0) d
      = read_when_ready E false U (mk_reader (Some 0%nat) 0 U) d1 /\
    dev_at n U irq1 irq2 0 d1.
Proof.
  intros Hl Hring Herr Hrun Hmx Hrate Htrig Hi1 Hi2.
  destruct (start_free E d Hmx Hrate) as (x & Hstart).
  pose proof Hring as [Hlen Hall].
  destruct (Hall 0%nat n_pos) as (b & Hb & Hsz & _).
  assert (Hp : buffers_ptr d = Some 0%nat) by (unfold buffers_ptr; rewrite Hl; reflexivity).
  rewrite Hp in Hstart.
  exists (set_lasterror
            (set_state
               (set_cxt_pru
                  (set_bufbeingread (set_mutex d true) (Some 0%nat)) x)
               STATE_BL_RUNNING) 0).
  split.
  - unfold beaglelogic_f_read.
    destruct (Z.eqb_spec (state d) STATE_BL_ERROR) as [|_]; [contradiction|].
    cbn [pos rd_buf]. change (0 <? 0) with false. cbv iota.
    rewrite Hp.
    rewrite (deref_lookup d l 0 b Hl Hb). cbn [obind].
    destruct (Z.eqb_spec (state d) STATE_BL_RUNNING) as [|_]; [contradiction|].
    cbn [negb]. rewrite Hstart. cbn [obind negb Z.eqb].
    rewrite Hsz, (wrap32_small U) by lia.
    reflexivity.
  - split; [exists l; split; [exact Hl|exact Hring]|].
    split; [reflexivity|].
    cbn. auto.
Qed.

(** [m] more reads from the middle of the session. *)
Lemma reads_in_session (m k : nat) (d : beaglelogicdev) :
  (0 < k)%nat -> (k + m <= n)%nat -> dev_at n U irq1 irq2 k d ->
  exists d',
    read_repeatedly E false m U (mk_reader (Some (k mod n)%nat) 0 U) d
      = Done (replicate m U,
              mk_reader (Some ((k + m) mod n)%nat) 0 U, d') /\
    dev_at n U irq1 irq2 (k + m) d'.
Proof.
  revert k d. induction m as [|m IH]; intros k d Hk Hkm Hdev.
  - exists d. rewrite Nat.add_0_r. split; [reflexivity|exact Hdev].
  - cbn [read_repeatedly]. rewrite Nat.mod_small by lia.
    rewrite read_in_session by (try lia; exact Hdev).
    destruct (read_next_buffer k d) as (d1 & Hread & Hdev1); [lia|exact Hdev|].
    rewrite Hread. cbn [obind].
    replace (k + 1)%nat with (S k) by lia.
    destruct (IH (S k) d1) as (d' & Hrest & Hdev'); [lia|lia|exact Hdev1|].
    rewrite Hrest. cbn [obind].
    replace (S k + m)%nat with (k + S m)%nat in * by lia.
    exists d'. split; [reflexivity|exact Hdev'].
Qed.

(** All [n] reads of the session. *)
Lemma reads_of_session (d : beaglelogicdev) (l : list logic_buffer) :
  buffers d = Some l -> ring_filled_upto n U 0 l ->
  state d <> STATE_BL_ERROR -> state d <> STATE_BL_RUNNING ->
  mutex d = false -> samplerate d <> 0 ->
  triggerflags d = BL_TRIGGERFLAGS_ONESHOT ->
  from_bl_irq_1 d = irq1 -> from_bl_irq_2 d = irq2 ->
  exists d',
    read_repeatedly E false n U (mk_reader None 0 0) d
      = Done (replicate n U, mk_reader (Some 0%nat) 0 U, d') /\
    dev_at n U irq1 irq2 n d'.
Proof.
  intros Hl Hring Herr Hrun Hmx Hrate Htrig Hi1 Hi2.
  assert (Hgen : forall m, n = S m ->
            exists d',
              read_repeatedly E false (S m) U (mk_reader None 0 0) d
                = Done (replicate (S m) U, mk_reader (Some 0%nat) 0 U, d') /\
              dev_at n U irq1 irq2 n d').
  { intros m Hn.
    destruct (first_read_starts d l Hl Hring Herr Hrun Hmx Hrate Htrig Hi1 Hi2)
      as (d1 & Hfirst & Hdev0).
    destruct (read_next_buffer 0 d1 n_pos Hdev0) as (d2 & Hread & Hdev1).
    cbn [read_repeatedly]. rewrite Hfirst, Hread. cbn [obind].
    change (0 + 1)%nat with 1%nat.
    destruct (reads_in_session m 1 d2) as (d' & Hrest & Hdev');
      [lia|lia|exact Hdev1|].
    rewrite Hrest. cbn [obind].
    replace (1 + m)%nat with n in * by lia.
    rewrite Nat.Div0.mod_same.
    exists d'. split; [reflexivity|exact Hdev']. }
  destruct (Hgen (n - 1)%nat) as (d' & Hrun' & Hdev'); [lia|].
  replace (S (n - 1)) with n in Hrun' by lia.
  exists d'. split; assumption.
Qed.

End OneshotSession.

(** The whole capture: every one of the [n] reads returns a full buffer,
    the read after the completion signal returns 0, and the device is
    back in Initialized with the session lock released, without a stop. *)
Lemma oneshot_capture_eof (fw : Z -> option Z) (n : nat)
    (d : beaglelogicdev) (l : list logic_buffer) :
  (0 < n)%nat -> 0 < bufunitsize d < 2 ^ 31 ->
  buffers d = Some l -> ring_filled_upto n (bufunitsize d) 0 l ->
  state d <> STATE_BL_ERROR -> state d <> STATE_BL_RUNNING ->
  mutex d = false -> samplerate d <> 0 ->
  triggerflags d = BL_TRIGGERFLAGS_ONESHOT ->
  from_bl_irq_1 d <> from_bl_irq_2 d ->
  exists d',
    oneshot_capture fw n d = Done (replicate n (bufunitsize d), 0, d') /\
    state d' = STATE_BL_INITIALIZED /\ mutex d' = false.
Proof.
  intros Hn HU Hl Hring Herr Hrun Hmx Hrate Htrig Hlines.
  unfold oneshot_capture.
  set (E := mk_environment fw [] [from_bl_irq_1 d] false 0 0 false false).
  destruct (reads_of_session E n (bufunitsize d) (from_bl_irq_1 d)
              (from_bl_irq_2 d) Hn HU eq_refl eq_refl d l)
    as (d1 & Hreads & Hdev); try assumption; try reflexivity.
  rewrite Hreads. cbn [obind].
  destruct Hdev as ((l1 & Hl1 & _) & _ & Hst & _ & Htrig1 & Hi1 & Hi2).
  rewrite (serve_irq_complete d1 (from_bl_irq_2 d1)) by congruence.
  rewrite Hst, Htrig1.
  change (STATE_BL_RUNNING <=? STATE_BL_ARMED) with false.
  change (negb (STATE_BL_RUNNING =? STATE_BL_REQUEST_STOP)
          && negb (STATE_BL_RUNNING =? STATE_BL_RUNNING)) with false.
  change ((BL_TRIGGERFLAGS_ONESHOT =? BL_TRIGGERFLAGS_ONESHOT)
          && negb (Z.land STATE_BL_RUNNING STATE_BL_RUNNING =? 0)) with true.
  cbv iota. cbn [obind].
  set (d2 := mutex_unlock (set_state d1 STATE_BL_INITIALIZED)).
  assert (Hread : beaglelogic_f_read E false (bufunitsize d)
                    (mk_reader (Some 0%nat) 0 (bufunitsize d)) d2
                  = Done (0, mk_reader (Some 0%nat) 0 (bufunitsize d), d2)).
  { unfold beaglelogic_f_read. cbn [pos rd_buf].
    change (state d2) with STATE_BL_INITIALIZED.
    change (STATE_BL_INITIALIZED =? STATE_BL_ERROR) with false.
    change (0 <? 0) with false. cbv iota.
    unfold buffers_ptr. change (buffers d2) with (buffers d1). rewrite Hl1.
    reflexivity. }
  rewrite Hread. cbn [obind].
  exists d2. split; [reflexivity|]. split; reflexivity.
Qed.

(** The ring a successful allocation leaves is such a fresh ring. *)
Lemma memalloc_ring_fresh (A : allocator) (d d' : beaglelogicdev) (B : Z)
    (heap heap' : list dma_region) :
  maxbufcount d < 2 ^ 16 ->
  beaglelogic_memalloc A d B heap = Done (0, d', heap') ->
  exists l,
    buffers d' = Some l /\
    ring_filled_upto (Z.to_nat (bufcount d')) (bufunitsize d') 0 l /\
    (0 < Z.to_nat (bufcount d'))%nat.
Proof.
  intros Hcap Hrun.
  destruct (memalloc_returns_0 A d d' B heap heap' Hrun)
    as (Hm & HU & Hmax & Hkz & l & Hloop & ->).
  pose proof (count_range B (bufunitsize d) HU) as Hc.
  set (c := Z.max (DIV_ROUND_UP B (bufunitsize d)) 2) in *.
  rewrite (wrap32_to_int32 c) in * by lia.
  rewrite (to_int32_small c) in Hloop by lia.
  destruct (memalloc_loop_true _ _ _ _ _ _ _ _ _ Hloop)
    as (Hlen & _ & Hin & _ & _); [rewrite length_replicate; lia|].
  rewrite length_replicate in Hlen.
  exists l. split; [reflexivity|].
  cbn [bufcount bufunitsize set_buffers set_bufcount].
  split; [|lia]. split; [exact Hlen|].
  intros i Hi. eexists. split; [apply Hin; lia|].
  cbn [size index next buf_state alloc_entry].
  split; [reflexivity|]. split; [|split; reflexivity].
  unfold wrap16. apply Z.mod_small. lia.
Qed.

(** The example ring, all Mapped, is a fresh ring of two 4096-byte buffers. *)
Lemma example_ring_fresh :
  ring_filled_upto 2 4096 0
    (example_ring STATE_BL_BUF_MAPPED STATE_BL_BUF_MAPPED).
Proof.
  split; [reflexivity|].
  intros [|[|i]] Hi; [| |lia]; eexists;
    (split; [reflexivity|]); repeat split.
Defined.

(** ** Reading a capture under any schedule *)

Section ReadSession.

Variables (n : nat) (U : Z).
Hypothesis n_pos : (0 < n)%nat.
Hypothesis U_range : 0 < U < 2 ^ 31.

Lemma ring_of_buffers (d d' : beaglelogicdev) :
  buffers d' = buffers d -> ring_of n U d -> ring_of n U d'.
Proof. intros Hb (l & Hl & H). exists l. rewrite Hb. auto. Qed.

Lemma write_buf_state_ring_of (d d' : beaglelogicdev) (q : option nat)
    (s : Z) :
  write_buf_state d q s = Done d' -> ring_of n U d -> ring_of n U d'.
Proof.
  unfold write_buf_state. intros H (l & Hl & Hlen & Hall).
  destruct q as [i|]; [|discriminate]. rewrite Hl in H.
  destruct (l !! i) as [c|] eqn:Hc; [|discriminate]. injection H as <-.
  exists (<[i := set_buf_state c s]> l).
  split; [reflexivity|]. split; [rewrite length_insert; exact Hlen|].
  intros k x Hx.
  destruct (next_after_state_write l i k c x s Hc Hx)
    as (x0 & Hx0 & -> & -> & _).
  apply Hall. exact Hx0.
Qed.

Lemma serve_irq_ring_of (irqno : Z) (d d' : beaglelogicdev) :
  beaglelogic_serve_irq irqno d = Done d' -> ring_of n U d -> ring_of n U d'.
Proof.
  unfold beaglelogic_serve_irq. intros H Hin.
  destruct (irqno =? from_bl_irq_1 d).
  - apply obind_done in H as (d2 & Hun & H).
    assert (Hin2 : ring_of n U d2).
    { eapply write_buf_state_ring_of; [exact Hun|].
      eapply ring_of_buffers; [|exact Hin]. reflexivity. }
    apply obind_done in H as (adv & _ & H). destruct adv.
    + apply obind_done in H as (b1 & _ & H).
      apply obind_done in H as (_z & _ & H). injection H as <-.
      eapply ring_of_buffers; [|exact Hin2]. reflexivity.
    + injection H as <-. exact Hin2.
  - destruct (irqno =? from_bl_irq_2 d); [|injection H as <-; exact Hin].
    destruct (state d <=? STATE_BL_ARMED); [injection H as <-; exact Hin|].
    destruct (_ && _);
      [injection H as <-; eapply ring_of_buffers; [|exact Hin]; reflexivity|].
    cbn zeta in H. destruct (_ && _); injection H as <-;
      (eapply ring_of_buffers; [|exact Hin]; reflexivity).
Qed.

Lemma sleep_until_ring_of (cond : beaglelogicdev -> outcome bool)
    (irqs : list Z) (e : wait_end) :
  forall (d d' : beaglelogicdev) (w : wake),
    sleep_until cond irqs e d = Done (w, d') ->
    ring_of n U d -> ring_of n U d'.
Proof.
  induction irqs as [|irq rest IH]; intros d d' w H Hin.
  - cbn [sleep_until] in H. apply obind_done in H as (c & _ & H).
    destruct c; [injection H as _ <-; exact Hin|].
    destruct e; try discriminate; injection H as _ <-; exact Hin.
  - cbn [sleep_until] in H. apply obind_done in H as (c & _ & H).
    destruct c; [injection H as _ <-; exact Hin|].
    apply obind_done in H as (d1 & Hirq & H).
    eapply IH; [exact H|]. eapply serve_irq_ring_of; eassumption.
Qed.

Lemma start_ring_of (E : environment) (d d' : beaglelogicdev) (ret : Z) :
  beaglelogic_start E d = Done (ret, d') -> ring_of n U d -> ring_of n U d'.
Proof.
  intros H Hin.
  destruct (start_returns E d d' ret H) as (w & dl & x & Hsleep & _ & ->).
  eapply ring_of_buffers;
    [|eapply sleep_until_ring_of; [exact Hsleep|exact Hin]].
  reflexivity.
Qed.

Lemma detect_drop_ring_of (d d' : beaglelogicdev) (q : option nat) :
  detect_drop d q = Done d' -> ring_of n U d -> ring_of n U d'.
Proof.
  unfold detect_drop. intros H Hin.
  apply obind_done in H as (b & _ & H).
  destruct (buf_state b =? STATE_BL_BUF_MAPPED).
  - apply obind_done in H as (d1 & Hw & H). injection H as <-.
    eapply ring_of_buffers; [|eapply write_buf_state_ring_of; eassumption].
    reflexivity.
  - injection H as <-. exact Hin.
Qed.

(** The copy of a reader at the start of buffer [p]: a whole buffer takes
    it to the start of the successor, an error leaves it where it is. *)
Lemma perform_copy_whole (E : environment) (sz ret : Z) (p : nat)
    (r' : logic_buffer_reader) (d d' : beaglelogicdev) :
  ring_of n U d -> (p < n)%nat -> 0 <= sz ->
  perform_copy E sz (mk_reader (Some p) 0 U) d = Done (ret, r', d') ->
  ring_of n U d' /\
  (ret = U -> r' = mk_reader (Some ((p + 1) mod n)%nat) 0 U) /\
  (ret < 0 -> r' = mk_reader (Some p) 0 U).
Proof.
  intros Hin Hp Hsz. unfold perform_copy. cbn zeta.
  cbn [rd_buf pos remaining].
  rewrite (to_int32_small (Z.min U sz)) by lia.
  intros H. apply obind_done in H as (_b & _ & H).
  destruct (copy_fails E).
  { injection H as <- <- <-. split; [exact Hin|].
    split; [unfold EFAULT; lia|reflexivity]. }
  apply obind_done in H as (d1 & Hdrop & H).
  pose proof (detect_drop_ring_of d d1 _ Hdrop Hin) as Hin1.
  apply obind_done in H as (r2 & Hadv & H). injection H as Hret <- <-.
  split; [exact Hin1|]. split; [|lia].
  intros ->. rewrite Hret in Hadv. unfold advance_reader in Hadv.
  cbn [remaining rd_buf] in Hadv.
  replace (U - U) with 0 in Hadv by lia.
  rewrite (wrap32_small 0) in Hadv by lia.
  change (0 =? 0) with true in Hadv. cbv iota in Hadv.
  destruct Hin1 as (l & Hl & Hlen & Hall).
  destruct (lookup_lt_is_Some_2 l p) as [b Hb]; [lia|].
  destruct (Hall p b Hb) as (_ & Hnx).
  assert (Hq : ((p + 1) mod n < length l)%nat)
    by (rewrite Hlen; apply Nat.mod_upper_bound; lia).
  destruct (lookup_lt_is_Some_2 l _ Hq) as [nb Hnb].
  destruct (Hall _ nb Hnb) as (Hnsz & _).
  rewrite (deref_lookup d1 l p b Hl Hb) in Hadv. cbn [obind] in Hadv.
  rewrite Hnx, (deref_lookup d1 l _ nb Hl Hnb) in Hadv.
  cbn [obind] in Hadv. rewrite Hnsz, (wrap32_small U) in Hadv by lia.
  injection Hadv as <-. reflexivity.
Qed.

(** The same for the part of a read from the readiness check on. *)
Lemma read_when_ready_whole (E : environment) (nonblock : bool)
    (sz ret : Z) (p : nat) (r' : logic_buffer_reader)
    (d d' : beaglelogicdev) :
  ring_of n U d -> (p < n)%nat -> 0 <= sz ->
  read_when_ready E nonblock sz (mk_reader (Some p) 0 U) d
    = Done (ret, r', d') ->
  ring_of n U d' /\
  (ret = U -> r' = mk_reader (Some ((p + 1) mod n)%nat) 0 U) /\
  (ret < 0 -> r' = mk_reader (Some p) 0 U).
Proof.
  intros Hin Hp Hsz H. unfold read_when_ready in H. destruct nonblock.
  - apply obind_done in H as (b & _ & H). destruct (negb _).
    + injection H as <- <- <-. split; [exact Hin|].
      split; [unfold EAGAIN; lia|reflexivity].
    + eapply perform_copy_whole; eassumption.
  - apply obind_done in H as ([rt d2] & Hwait & H).
    unfold wait_event_interruptible in Hwait.
    apply obind_done in Hwait as ([w d3] & Hsleep & Hwait).
    pose proof (sleep_until_ring_of _ _ _ _ _ _ Hsleep Hin) as Hin3.
    assert (d2 = d3) by (destruct w; injection Hwait as _ <-; reflexivity).
    subst d3. destruct (negb _).
    + injection H as <- <- <-. split; [exact Hin3|].
      split; [unfold ERESTARTSYS; lia|reflexivity].
    + eapply perform_copy_whole; eassumption.
Qed.

(** One read of the session: the ring stays, a read that returns a whole
    buffer moves the reader to the start of the next buffer, and a read
    that fails leaves it where it stands (a fresh reader possibly set on
    buffer 0). *)
Lemma read_step (E : environment) (nonblock : bool) (sz ret : Z) (k : nat)
    (r r' : logic_buffer_reader) (d d' : beaglelogicdev) :
  ring_of n U d -> reader_after n U k r -> 0 <= sz ->
  beaglelogic_f_read E nonblock sz r d = Done (ret, r', d') ->
  ring_of n U d' /\
  (ret = U -> reader_after n U (S k) r') /\
  (ret < 0 -> reader_after n U k r').
Proof.
  intros Hin Hr Hsz H. unfold beaglelogic_f_read in H.
  destruct (state d =? STATE_BL_ERROR).
  { injection H as <- <- <-. split; [exact Hin|].
    split; [unfold EIO; lia|intros _; exact Hr]. }
  assert (Hmod : (k mod n < n)%nat) by (apply Nat.mod_upper_bound; lia).
  assert (Hnext : ((k mod n + 1) mod n = S k mod n)%nat).
  { rewrite Nat.Div0.add_mod_idemp_l. f_equal. lia. }
  destruct Hr as [[-> ->] | ->]; cbn [pos rd_buf] in H;
    change (0 <? 0) with false in H; cbv iota in H.
  - (* the first read of a fresh reader *)
    pose proof Hin as (l & Hl & Hlen & Hall).
    destruct (lookup_lt_is_Some_2 l 0) as [b0 Hb0]; [lia|].
    destruct (Hall _ b0 Hb0) as (Hsz0 & _).
    assert (Hptr : buffers_ptr d = Some 0%nat)
      by (unfold buffers_ptr; rewrite Hl; reflexivity).
    rewrite Hptr, (deref_lookup d l 0 b0 Hl Hb0) in H. cbn [obind] in H.
    rewrite Hsz0, (wrap32_small U) in H by lia.
    apply obind_done in H as ([[early r1] d1] & Hinit & H).
    assert (Hinit' : r1 = mk_reader (Some 0%nat) 0 U /\ ring_of n U d1 /\
                     (forall v, early = Some v -> v < 0)).
    { destruct (negb _).
      - apply obind_done in Hinit as ([rt ds] & Hstart & Hinit).
        pose proof (start_ring_of E d ds rt Hstart Hin) as Hins.
        destruct (negb _); injection Hinit as <- <- <-;
          (split; [reflexivity|]; split; [exact Hins|]);
          intros v [= <-]; unfold ENOEXEC; lia.
      - injection Hinit as <- <- <-. split; [reflexivity|].
        split; [exact Hin|]. intros v Hv. discriminate Hv. }
    destruct Hinit' as (-> & Hin1 & Hearly).
    destruct early as [v|].
    + injection H as <- <- <-. pose proof (Hearly v eq_refl).
      split; [exact Hin1|]. split; [lia|].
      intros _. right. rewrite Nat.Div0.mod_0_l. reflexivity.
    + destruct (read_when_ready_whole E nonblock sz ret 0 r' d1 d'
                  Hin1 n_pos Hsz H) as (Hin' & Hwhole & Hfail).
      split; [exact Hin'|]. split.
      * intros Hret. right. rewrite (Hwhole Hret). reflexivity.
      * intros Hret. right. rewrite (Hfail Hret), Nat.Div0.mod_0_l.
        reflexivity.
  - destruct (_ && _); cbn [obind] in H.
    { injection H as <- <- <-. split; [exact Hin|].
      split; [lia|intros _; right; reflexivity]. }
    destruct (read_when_ready_whole E nonblock sz ret (k mod n) r' d d'
                Hin Hmod Hsz H) as (Hin' & Hwhole & Hfail).
    split; [exact Hin'|]. split.
    + intros Hret. right. rewrite (Hwhole Hret), Hnext. reflexivity.
    + intros Hret. right. exact (Hfail Hret).
Qed.

(** The ring and the place of the reader throughout a session. *)
Lemma read_session_invariant (k : nat) (r : logic_buffer_reader)
    (d : beaglelogicdev) :
  read_session n U k r d -> ring_of n U d /\ reader_after n U k r.
Proof.
  induction 1 as [d Hin | k r d d' irqno _ [Hin Hr] Hirq
                 | k r r' d d' E nonblock sz _ [Hin Hr] Hsz Hread
                 | k r r' d d' E nonblock sz ret _ [Hin Hr] Hsz Hread Hneg].
  - split; [exact Hin|]. left. split; reflexivity.
  - split; [eapply serve_irq_ring_of; eassumption|exact Hr].
  - destruct (read_step E nonblock sz U k r r' d d' Hin Hr Hsz Hread)
      as (Hin' & Hwhole & _).
    split; [exact Hin'|]. apply Hwhole. reflexivity.
  - destruct (read_step E nonblock sz ret k r r' d d' Hin Hr Hsz Hread)
      as (Hin' & _ & Hfail).
    split; [exact Hin'|]. apply Hfail. exact Hneg.
Qed.

(** After [n] whole reads the reader is back at the start of buffer 0,
    and the next read of at least one byte is the end of file exactly when
    the device is Initialized. *)
Lemma read_after_session (r : logic_buffer_reader) (d : beaglelogicdev)
    (E : environment) (nonblock : bool) (sz : Z) :
  read_session n U n r d -> 0 < sz < 2 ^ 31 ->
  r = mk_reader (Some 0%nat) 0 U /\
  ((exists r' d', beaglelogic_f_read E nonblock sz r d = Done (0, r', d'))
   <-> state d = STATE_BL_INITIALIZED).
Proof.
  intros Hs Hsz.
  destruct (read_session_invariant n r d Hs) as ((l & Hl & _) & Hr).
  assert (Hr0 : r = mk_reader (Some 0%nat) 0 U).
  { destruct Hr as [[Hn _] | ->]; [lia|].
    rewrite Nat.Div0.mod_same. reflexivity. }
  split; [exact Hr0|]. subst r.
  rewrite (read_eof_iff E nonblock sz _ d);
    [|discriminate|cbn; lia|cbn; lia|exact Hsz].
  cbn [rd_buf pos]. rewrite Hl. split.
  - intros (_ & _ & _ & Hst). exact Hst.
  - intros Hst. split; [reflexivity|]. split; [discriminate|].
    split; [reflexivity|exact Hst].
Qed.

(** The completion signal on a running device, without a stop: the device
    is back in Initialized, with the lock released in a oneshot session. *)
Lemma completion_ends_capture (d : beaglelogicdev) :
  state d = STATE_BL_RUNNING -> from_bl_irq_2 d <> from_bl_irq_1 d ->
  exists d',
    beaglelogic_serve_irq (from_bl_irq_2 d) d = Done d' /\
    state d' = STATE_BL_INITIALIZED /\
    (triggerflags d = BL_TRIGGERFLAGS_ONESHOT -> mutex d' = false).
Proof.
  intros Hst Hlines.
  rewrite (serve_irq_complete d (from_bl_irq_2 d) eq_refl Hlines), Hst.
  change (STATE_BL_RUNNING <=? STATE_BL_ARMED) with false.
  change (negb (STATE_BL_RUNNING =? STATE_BL_REQUEST_STOP)
          && negb (STATE_BL_RUNNING =? STATE_BL_RUNNING)) with false.
  cbv iota.
  destruct (Z.eqb_spec (triggerflags d) BL_TRIGGERFLAGS_ONESHOT) as [Ht|Ht].
  - change (negb (Z.land STATE_BL_RUNNING STATE_BL_RUNNING =? 0)) with true.
    cbn [andb]. eexists. split; [reflexivity|]. split; reflexivity.
  - cbn [andb]. eexists. split; [reflexivity|].
    split; [reflexivity|contradiction].
Qed.

End ReadSession.

(** The example device has such a ring of two 4096-byte buffers. *)
Lemma example_ring_of (trig st : Z) (locked : bool) (s0 s1 : Z) :
  ring_of 2 4096 (example_dev trig st locked s0 s1).
Proof.
  exists (example_ring s0 s1). split; [reflexivity|]. split; [reflexivity|].
  intros [|[|i]] b Hb; simpl in Hb; try discriminate;
    injection Hb as <-; split; reflexivity.
Defined.

(** C5 (for reads that ask for at least one byte): once the reader has
    been initialized, and with bytes left in its current buffer, a read
    returns 0 exactly when the reader is at position 0 of the first ring
    buffer and the device is Initialized.  In particular, once a capture
    over [n] buffers of [U] bytes has been read in [n] reads of a whole
    buffer each, whatever interrupts were served and whatever reads failed
    in between, the reader is back at the start of the first buffer and
    the read that follows returns 0 exactly when the device is Initialized
    by then: while the device is still Running it does not, and once the
    completion signal has been served, without any call of stop, it does
    (in a oneshot session the signal also releases the lock).  A schedule
    in which all this happens exists for every ring: each of the [n]
    blocking reads is woken by the buffer-ready interrupt of its buffer,
    the completion signal follows, and the read after it returns 0. *)
Theorem read_eof_and_oneshot_capture :
  (forall (E : environment) (nonblock : bool) (sz : Z)
          (r : logic_buffer_reader) (d : beaglelogicdev),
     rd_buf r <> None -> 0 <= pos r -> 0 < remaining r -> 0 < sz < 2 ^ 31 ->
     ((exists r' d', beaglelogic_f_read E nonblock sz r d = Done (0, r', d'))
      <->
      (rd_buf r = Some 0%nat /\ buffers d <> None /\ pos r = 0 /\
       state d = STATE_BL_INITIALIZED))) /\
  (forall (n : nat) (U : Z) (r : logic_buffer_reader) (d : beaglelogicdev),
     (0 < n)%nat -> 0 < U < 2 ^ 31 -> read_session n U n r d ->
     r = mk_reader (Some 0%nat) 0 U /\
     (forall (E : environment) (nonblock : bool) (sz : Z),
        0 < sz < 2 ^ 31 ->
        ((exists r' d', beaglelogic_f_read E nonblock sz r d = Done (0, r', d'))
         <-> state d = STATE_BL_INITIALIZED)) /\
     (state d = STATE_BL_RUNNING -> from_bl_irq_2 d <> from_bl_irq_1 d ->
      exists d1,
        beaglelogic_serve_irq (from_bl_irq_2 d) d = Done d1 /\
        state d1 = STATE_BL_INITIALIZED /\
        (triggerflags d = BL_TRIGGERFLAGS_ONESHOT -> mutex d1 = false) /\
        forall (E : environment) (nonblock : bool) (sz : Z),
          0 < sz < 2 ^ 31 ->
          exists r' d',
            beaglelogic_f_read E nonblock sz r d1 = Done (0, r', d'))) /\
  (forall (fw : Z -> option Z) (n : nat) (d : beaglelogicdev)
          (l : list logic_buffer),
     (0 < n)%nat -> 0 < bufunitsize d < 2 ^ 31 ->
     buffers d = Some l -> ring_filled_upto n (bufunitsize d) 0 l ->
     state d <> STATE_BL_ERROR -> state d <> STATE_BL_RUNNING ->
     mutex d = false -> samplerate d <> 0 ->
     triggerflags d = BL_TRIGGERFLAGS_ONESHOT ->
     from_bl_irq_1 d <> from_bl_irq_2 d ->
     exists d',
       oneshot_capture fw n d = Done (replicate n (bufunitsize d), 0, d') /\
       state d' = STATE_BL_INITIALIZED /\ mutex d' = false).
Proof.
  split; [|split].
  - intros E nonblock sz r d. apply read_eof_iff.
  - intros n U r d Hn HU Hs.
    assert (H1 : 0 < 1 < 2 ^ 31) by lia.
    split; [exact (proj1 (read_after_session n U Hn HU r d quiet_env false 1
                            Hs H1))|].
    split.
    + intros E nonblock sz Hsz.
      exact (proj2 (read_after_session n U Hn HU r d E nonblock sz Hs Hsz)).
    + intros Hst Hlines.
      destruct (completion_ends_capture d Hst Hlines)
        as (d1 & Hirq & Hst1 & Hfree).
      exists d1. split; [exact Hirq|]. split; [exact Hst1|].
      split; [exact Hfree|].
      intros E nonblock sz Hsz.
      apply (read_after_session n U Hn HU r d1 E nonblock sz); [|exact Hsz|exact Hst1].
      eapply session_irq; eassumption.
  - intros fw n d l. apply oneshot_capture_eof.
Qed.

(** End of file on the example device; the two reads of a oneshot capture
    over its two buffers, with the read after them before and after the
    completion signal; and the whole capture. *)
Lemma read_eof_and_oneshot_capture_witness :
  ((exists r' d',
      beaglelogic_f_read quiet_env false 100 (mk_reader (Some 0%nat) 0 4096)
        (example_dev 0 STATE_BL_INITIALIZED false 2 2) = Done (0, r', d'))
   <->
   (Some 0%nat = Some 0%nat /\
    Some (example_ring 2 2) <> None /\ 0 = 0 /\
    STATE_BL_INITIALIZED = STATE_BL_INITIALIZED)) /\
  (exists d,
     read_session 2 4096 2 (mk_reader (Some 0%nat) 0 4096) d /\
     state d = STATE_BL_RUNNING /\
     ((exists r' d',
         beaglelogic_f_read quiet_env false 4096
           (mk_reader (Some 0%nat) 0 4096) d = Done (0, r', d'))
      <-> state d = STATE_BL_INITIALIZED) /\
     exists d1,
       beaglelogic_serve_irq (from_bl_irq_2 d) d = Done d1 /\
       state d1 = STATE_BL_INITIALIZED /\ mutex d1 = false /\
       exists r' d',
         beaglelogic_f_read quiet_env false 4096
           (mk_reader (Some 0%nat) 0 4096) d1 = Done (0, r', d')) /\
  (exists d',
     oneshot_capture fw_ack 2
       (example_dev BL_TRIGGERFLAGS_ONESHOT STATE_BL_INITIALIZED false
          STATE_BL_BUF_MAPPED STATE_BL_BUF_MAPPED)
     = Done ([4096; 4096], 0, d') /\
     state d' = STATE_BL_INITIALIZED /\ mutex d' = false).
Proof.
  destruct read_eof_and_oneshot_capture as (Hiff & Hses & Hcap).
  split; [|split].
  - apply (Hiff quiet_env false 100 (mk_reader (Some 0%nat) 0 4096)
             (example_dev 0 STATE_BL_INITIALIZED false 2 2)).
    + discriminate.
    + simpl. lia.
    + simpl. lia.
    + lia.
  - set (E := mk_environment fw_ack [] [1] false 0 0 false false).
    set (d0 := example_dev BL_TRIGGERFLAGS_ONESHOT STATE_BL_INITIALIZED false
                 STATE_BL_BUF_MAPPED STATE_BL_BUF_MAPPED).
    destruct (beaglelogic_f_read E false 4096 (mk_reader None 0 0) d0)
      as [[[ret1 r1] d1]| | |] eqn:H1;
      try (vm_compute in H1; discriminate H1).
    destruct (beaglelogic_f_read E false 4096 r1 d1)
      as [[[ret2 r2] d2]| | |] eqn:H2;
      try (vm_compute in H1; injection H1 as <- <- <-;
           vm_compute in H2; discriminate H2).
    assert (Hret1 : ret1 = 4096)
      by (vm_compute in H1; injection H1 as <- _ _; reflexivity).
    assert (Hret2 : ret2 = 4096 /\ state d2 = STATE_BL_RUNNING /\
                    triggerflags d2 = BL_TRIGGERFLAGS_ONESHOT /\
                    from_bl_irq_2 d2 <> from_bl_irq_1 d2).
    { vm_compute in H1. injection H1 as _ <- <-.
      vm_compute in H2. injection H2 as <- _ <-.
      split; [reflexivity|]. split; [reflexivity|].
      split; [reflexivity|]. discriminate. }
    destruct Hret2 as (Hret2 & Hst2 & Htrig2 & Hlines2).
    subst ret1 ret2.
    assert (Hs : read_session 2 4096 2 r2 d2).
    { apply (session_read 2 4096 1 r1 r2 d1 d2 E false 4096); [|lia|exact H2].
      apply (session_read 2 4096 0 (mk_reader None 0 0) r1 d0 d1 E false 4096);
        [|lia|exact H1].
      apply session_open. apply example_ring_of. }
    assert (Hn : (0 < 2)%nat) by lia.
    assert (HU : 0 < 4096 < 2 ^ 31) by lia.
    destruct (Hses 2%nat 4096 r2 d2 Hn HU Hs) as (-> & Heof & Hdone).
    destruct (Hdone Hst2 Hlines2) as (d3 & Hirq & Hst3 & Hfree & Hread).
    exists d2. split; [exact Hs|]. split; [exact Hst2|].
    split; [apply Heof; lia|].
    exists d3. split; [exact Hirq|]. split; [exact Hst3|].
    split; [exact (Hfree Htrig2)|]. apply Hread. lia.
  - apply (Hcap fw_ack 2%nat
             (example_dev BL_TRIGGERFLAGS_ONESHOT STATE_BL_INITIALIZED false
                STATE_BL_BUF_MAPPED STATE_BL_BUF_MAPPED)
             (example_ring STATE_BL_BUF_MAPPED STATE_BL_BUF_MAPPED)).
    + lia.
    + simpl. lia.
    + reflexivity.
    + apply example_ring_fresh.
    + discriminate.
    + discriminate.
    + reflexivity.
    + discriminate.
    + reflexivity.
    + discriminate.
Defined.

(** ** Drop detection *)

Lemma ring_sound_state_write (l : list logic_buffer) (i : nat)
    (b : logic_buffer) (s : Z) :
  l !! i = Some b -> ring_sound l ->
  ring_sound (<[i := set_buf_state b s]> l).
Proof.
  intros Hb Hsound k c Hc.
  destruct (next_after_state_write l i k b c s Hb Hc)
    as (c0 & Hc0 & Hnx & Hsz & _).
  destruct (Hsound k c0 Hc0) as (Hsize & j & Hj & Hlt).
  rewrite Hsz, Hnx, length_insert. eauto.
Qed.

(** What the drop detection does to a buffer, case by case. *)
Lemma detect_drop_lookup (d : beaglelogicdev) (l : list logic_buffer)
    (p : nat) (b : logic_buffer) :
  buffers d = Some l -> l !! p = Some b ->
  detect_drop d (Some p) =
    Done (if buf_state b =? STATE_BL_BUF_MAPPED then
            set_lasterror
              (set_buffers d
                 (Some (<[p := set_buf_state b STATE_BL_BUF_DROPPED]> l)))
              (Z.lor 65536 (index b))
          else d).
Proof.
  intros Hl Hb. unfold detect_drop.
  rewrite (deref_lookup d l p b Hl Hb). cbn [obind].
  destruct (buf_state b =? STATE_BL_BUF_MAPPED); [|reflexivity].
  rewrite (write_buf_state_lookup d l p b _ Hl Hb). reflexivity.
Qed.

Lemma detect_drop_reader_ok (r : logic_buffer_reader) (d : beaglelogicdev) :
  reader_ok r d ->
  exists d1, detect_drop d (rd_buf r) = Done d1 /\ reader_ok r d1 /\
    forall r', reader_ok r' d -> reader_ok r' d1.
Proof.
  intros (l & p & Hl & Hsound & Hp & Hlt & Hrem).
  destruct (lookup_lt_is_Some_2 l p Hlt) as [b Hb].
  rewrite Hp, (detect_drop_lookup d l p b Hl Hb).
  eexists. split; [reflexivity|].
  assert (Hkeep : forall r', reader_ok r' d ->
            reader_ok r'
              (if buf_state b =? STATE_BL_BUF_MAPPED
               then set_lasterror
                      (set_buffers d
                         (Some (<[p:=set_buf_state b STATE_BL_BUF_DROPPED]> l)))
                      (Z.lor 65536 (index b))
               else d)).
  { intros r' Hr'. destruct (buf_state b =? STATE_BL_BUF_MAPPED); [|exact Hr'].
    destruct Hr' as (l0 & p' & Hl0 & _ & Hp' & Hlt' & Hrem').
    rewrite Hl in Hl0. injection Hl0 as <-.
    exists (<[p:=set_buf_state b STATE_BL_BUF_DROPPED]> l), p'.
    split; [reflexivity|].
    split; [apply ring_sound_state_write; assumption|].
    split; [exact Hp'|]. split; [rewrite length_insert; exact Hlt'|exact Hrem']. }
  split; [|exact Hkeep].
  apply Hkeep. exists l, p. auto.
Qed.

(** A read that gets to the copy with its buffer still Mapped marks the
    buffer Dropped, records the marker with the buffer's index, and
    returns the number of bytes copied as usual. *)
Lemma read_marks_drop (E : environment) (nonblock : bool) (sz : Z)
    (r : logic_buffer_reader) (d : beaglelogicdev)
    (l : list logic_buffer) (p : nat) (b : logic_buffer) :
  state d <> STATE_BL_ERROR -> 0 < pos r -> copy_fails E = false ->
  buffers d = Some l -> ring_sound l -> rd_buf r = Some p ->
  l !! p = Some b -> buf_state b = STATE_BL_BUF_MAPPED ->
  exists r',
    beaglelogic_f_read E nonblock sz r d
      = Done (to_int32 (Z.min (remaining r) sz), r',
              set_lasterror
                (set_buffers d
                   (Some (<[p := set_buf_state b STATE_BL_BUF_DROPPED]> l)))
                (Z.lor 65536 (index b))).
Proof.
  intros Herr Hpos Hcopy Hl Hsound Hp Hb Hmapped.
  unfold beaglelogic_f_read.
  destruct (Z.eqb_spec (state d) STATE_BL_ERROR) as [|_]; [contradiction|].
  destruct (Z.ltb_spec 0 (pos r)) as [_|]; [|lia].
  unfold perform_copy. cbn zeta. rewrite Hp.
  rewrite (deref_lookup d l p b Hl Hb). cbn [obind]. rewrite Hcopy.
  rewrite (detect_drop_lookup d l p b Hl Hb).
  rewrite Hmapped. change (STATE_BL_BUF_MAPPED =? STATE_BL_BUF_MAPPED) with true.
  cbv iota. cbn [obind].
  set (d1 := set_lasterror _ _).
  set (l1 := <[p := set_buf_state b STATE_BL_BUF_DROPPED]> l) in *.
  assert (Hl1 : buffers d1 = Some l1) by reflexivity.
  assert (Hb1 : l1 !! p = Some (set_buf_state b STATE_BL_BUF_DROPPED)).
  { apply list_lookup_insert_eq. eapply lookup_lt_Some; exact Hb. }
  unfold advance_reader. cbn [remaining rd_buf].
  destruct (_ =? 0).
  - rewrite (deref_lookup d1 l1 p _ Hl1 Hb1). cbn [obind next set_buf_state].
    destruct (Hsound p b Hb) as (_ & j & Hj & Hlt).
    rewrite Hj.
    destruct (lookup_lt_is_Some_2 l1 j) as [nb Hnb];
      [unfold l1; rewrite length_insert; exact Hlt|].
    rewrite (deref_lookup d1 l1 j nb Hl1 Hnb). cbn [obind].
    eexists. reflexivity.
  - cbn [obind]. eexists. reflexivity.
Qed.

(** ** Seek *)

(** A relative seek of fewer than 2^32 bytes returns: [Z.to_nat i]
    iterations are enough for [i] bytes. *)
Lemma llseek_loop_returns (fuel : nat) :
  forall (i : Z) (r : logic_buffer_reader) (d : beaglelogicdev),
    i < 2 ^ 32 -> (Z.to_nat i <= fuel)%nat -> reader_ok r d ->
    exists r' d', llseek_loop fuel i r d = Done (r', d') /\ reader_ok r' d'.
Proof.
  induction fuel as [|fuel IH]; intros i r d Hi Hfuel Hok.
  - exists r, d. simpl. destruct (Z.leb_spec i 0); [auto|lia].
  - cbn [llseek_loop]. destruct (Z.leb_spec i 0) as [|Hpos]; [eauto|].
    destruct (detect_drop_reader_ok r d Hok) as (d1 & Hdrop & Hok1 & _).
    rewrite Hdrop. cbn [obind].
    rewrite (wrap32_small i) by lia.
    destruct Hok1 as (l & p & Hl & Hsound & Hp & Hlt & Hrem).
    set (j := Z.min i (remaining r)).
    assert (Hj : 0 < j <= remaining r) by (unfold j; lia).
    unfold advance_reader. cbn [remaining rd_buf].
    rewrite (wrap32_small (remaining r - j)) by lia.
    destruct (Z.eqb_spec (remaining r - j) 0) as [Hz|Hnz].
    + destruct (lookup_lt_is_Some_2 l p Hlt) as [b Hb].
      rewrite Hp, (deref_lookup d1 l p b Hl Hb). cbn [obind].
      destruct (Hsound p b Hb) as (_ & q & Hq & Hqlt).
      rewrite Hq.
      destruct (lookup_lt_is_Some_2 l q Hqlt) as [nb Hnb].
      rewrite (deref_lookup d1 l q nb Hl Hnb). cbn [obind].
      destruct (Hsound q nb Hnb) as (Hsz & _).
      apply IH; [lia|lia|].
      exists l, q. cbn [rd_buf remaining].
      rewrite (wrap32_small (size nb)) by lia. auto.
    + cbn [obind]. apply IH; [lia|lia|].
      exists l, p. cbn [rd_buf remaining]. split; [exact Hl|].
      split; [exact Hsound|]. split; [exact Hp|]. split; [exact Hlt|lia].
Qed.

(** A relative seek by a positive multiple of 2^32 never returns: the
    step [j = min ((uint32_t) i, remaining)] is 0, so neither [i] nor the
    reader changes from one iteration to the next. *)
Lemma llseek_loop_spins (i : Z) (fuel : nat) :
  0 < i -> wrap32 i = 0 ->
  forall (r : logic_buffer_reader) (d : beaglelogicdev),
    reader_ok r d -> llseek_loop fuel i r d = Spins.
Proof.
  intros Hi Hw. induction fuel as [|fuel IH]; intros r d Hok.
  - simpl. destruct (Z.leb_spec i 0); [lia|reflexivity].
  - cbn [llseek_loop]. destruct (Z.leb_spec i 0) as [|_]; [lia|].
    destruct (detect_drop_reader_ok r d Hok) as (d1 & Hdrop & Hok1 & _).
    rewrite Hdrop. cbn [obind]. rewrite Hw.
    destruct Hok1 as (l & p & Hl & Hsound & Hp & Hlt & Hrem).
    rewrite Z.min_l by lia.
    unfold advance_reader. cbn [remaining rd_buf].
    rewrite Z.sub_0_r, (wrap32_small (remaining r)) by lia.
    destruct (Z.eqb_spec (remaining r) 0) as [|_]; [lia|].
    cbn [obind]. rewrite Z.sub_0_r. apply IH.
    exists l, p. cbn [rd_buf remaining]. auto.
Qed.

(** A reader at the start of the example ring. *)
Lemma example_reader_ok (trig st : Z) (locked : bool) (s0 s1 : Z) :
  reader_ok (mk_reader (Some 0%nat) 0 4096) (example_dev trig st locked s0 s1).
Proof.
  exists (example_ring s0 s1), 0%nat.
  split; [reflexivity|]. split.
  - intros [|[|k]] b; simpl; intros Hb; try discriminate;
      injection Hb as <-; (split; [simpl; lia|]);
      eexists; (split; [reflexivity|simpl; lia]).
  - split; [reflexivity|]. split; simpl; lia.
Qed.

(** C6, at a forward relative seek by 4294967296 bytes (2^32) on a reader
    whose current buffer is still Mapped: the drop detection runs on the
    buffer (it would mark it Dropped and record 0x10000 | 0), but the seek
    never completes; whatever number of loop iterations is allowed, the
    loop is still spinning. *)
Theorem seek_by_4GiB_never_returns :
  let d := example_dev BL_TRIGGERFLAGS_CONTINUOUS STATE_BL_RUNNING true
             STATE_BL_BUF_MAPPED STATE_BL_BUF_MAPPED in
  let r := mk_reader (Some 0%nat) 0 4096 in
  (exists d1 l1,
     detect_drop d (rd_buf r) = Done d1 /\ buffers d1 = Some l1 /\
     buf_state <$> l1 !! 0%nat = Some STATE_BL_BUF_DROPPED /\
     lasterror d1 = Z.lor 65536 0) /\
  forall fuel : nat,
    beaglelogic_f_llseek quiet_env fuel 4294967296 SEEK_CUR r d = Spins.
Proof.
  cbn zeta. split.
  - eexists. eexists. split; [vm_compute; reflexivity|].
    split; [reflexivity|]. split; reflexivity.
  - intros fuel. unfold beaglelogic_f_llseek.
    change (SEEK_CUR =? SEEK_CUR) with true. cbv iota.
    rewrite (llseek_loop_spins 4294967296 fuel); [reflexivity|lia|reflexivity|].
    apply example_reader_ok.
Qed.

(** A buffer marked Dropped stays Dropped through later drop detections. *)
Lemma detect_drop_keeps_dropped (d d1 : beaglelogicdev) (p : option nat)
    (q : nat) :
  detect_drop d p = Done d1 -> dropped_in d q -> dropped_in d1 q.
Proof.
  intros Hrun (l & b & Hl & Hb & Hst).
  unfold detect_drop in Hrun.
  apply obind_done in Hrun as (c & Hc & Hrun).
  apply deref_done in Hc as (i & l0 & -> & Hl0 & Hci).
  rewrite Hl in Hl0. injection Hl0 as <-.
  destruct (Z.eqb_spec (buf_state c) STATE_BL_BUF_MAPPED) as [Hm|_].
  - rewrite (write_buf_state_lookup d l i c _ Hl Hci) in Hrun.
    cbn [obind] in Hrun. injection Hrun as <-.
    assert (Hne : i <> q).
    { intros ->. rewrite Hb in Hci. injection Hci as ->.
      rewrite Hm in Hst. discriminate. }
    exists (<[i := set_buf_state c STATE_BL_BUF_DROPPED]> l), b.
    split; [reflexivity|].
    split; [rewrite list_lookup_insert_ne by exact Hne; exact Hb|exact Hst].
  - injection Hrun as <-. exists l, b. auto.
Qed.

Lemma llseek_loop_keeps_dropped (q : nat) (fuel : nat) :
  forall (i : Z) (r r' : logic_buffer_reader) (d d' : beaglelogicdev),
    llseek_loop fuel i r d = Done (r', d') ->
    dropped_in d q -> dropped_in d' q.
Proof.
  induction fuel as [|fuel IH]; intros i r r' d d' Hrun Hq.
  - simpl in Hrun. destruct (i <=? 0); [|discriminate].
    injection Hrun as _ <-. exact Hq.
  - cbn [llseek_loop] in Hrun. destruct (i <=? 0).
    + injection Hrun as _ <-. exact Hq.
    + apply obind_done in Hrun as (d1 & Hdrop & Hrun).
      apply obind_done in Hrun as (r2 & _ & Hrun).
      eapply IH; [exact Hrun|].
      eapply detect_drop_keeps_dropped; eassumption.
Qed.

(** A forward relative seek of fewer than 2^32 bytes that finds the
    current buffer still Mapped returns the offset; the buffer is Dropped
    afterwards, and when the seek stays within the buffer the error word
    is the marker with the buffer's index. *)
Lemma seek_marks_drop (E : environment) (fuel : nat) (offset : Z)
    (r : logic_buffer_reader) (d : beaglelogicdev)
    (l : list logic_buffer) (p : nat) (b : logic_buffer) :
  reader_ok r d -> buffers d = Some l -> rd_buf r = Some p ->
  l !! p = Some b -> buf_state b = STATE_BL_BUF_MAPPED ->
  0 < offset < 2 ^ 32 -> (Z.to_nat offset <= fuel)%nat ->
  exists r' d',
    beaglelogic_f_llseek E fuel offset SEEK_CUR r d = Done (offset, r', d') /\
    dropped_in d' p /\
    (offset <= remaining r -> lasterror d' = Z.lor 65536 (index b)).
Proof.
  intros Hok Hl Hp Hb Hmapped Hoff Hfuel.
  unfold beaglelogic_f_llseek.
  change (SEEK_CUR =? SEEK_CUR) with true. cbv iota.
  destruct fuel as [|fuel]; [lia|].
  cbn [llseek_loop]. destruct (Z.leb_spec offset 0) as [|_]; [lia|].
  destruct (detect_drop_reader_ok r d Hok) as (d1 & Hdrop & Hok1 & _).
  pose proof Hdrop as Hdrop'.
  rewrite Hp, (detect_drop_lookup d l p b Hl Hb), Hmapped in Hdrop'.
  change (STATE_BL_BUF_MAPPED =? STATE_BL_BUF_MAPPED) with true in Hdrop'.
  cbv iota in Hdrop'. injection Hdrop' as Hd1.
  assert (Hq1 : dropped_in d1 p).
  { subst d1. eexists. eexists. split; [reflexivity|].
    split; [apply list_lookup_insert_eq; eapply lookup_lt_Some; exact Hb|].
    reflexivity. }
  rewrite Hdrop. cbn [obind]. rewrite (wrap32_small offset) by lia.
  destruct Hok1 as (l1 & p1 & Hl1 & Hsound1 & Hp1 & Hlt1 & Hrem).
  set (j := Z.min offset (remaining r)).
  assert (Hj : 0 < j <= remaining r) by (unfold j; lia).
  assert (Hadv : exists r2,
             advance_reader d1
               (mk_reader (rd_buf r) (wrap32 (pos r + j)) (wrap32 (remaining r - j)))
             = Done r2 /\ reader_ok r2 d1).
  { unfold advance_reader. cbn [remaining rd_buf].
    rewrite (wrap32_small (remaining r - j)) by lia.
    destruct (Z.eqb_spec (remaining r - j) 0) as [Hz|Hnz].
    - destruct (lookup_lt_is_Some_2 l1 p1 Hlt1) as [c Hc].
      rewrite Hp1, (deref_lookup d1 l1 p1 c Hl1 Hc). cbn [obind].
      destruct (Hsound1 p1 c Hc) as (_ & q & Hq & Hqlt).
      rewrite Hq.
      destruct (lookup_lt_is_Some_2 l1 q Hqlt) as [nb Hnb].
      rewrite (deref_lookup d1 l1 q nb Hl1 Hnb). cbn [obind].
      destruct (Hsound1 q nb Hnb) as (Hsz & _).
      eexists. split; [reflexivity|].
      exists l1, q. cbn [rd_buf remaining].
      rewrite (wrap32_small (size nb)) by lia. auto.
    - eexists. split; [reflexivity|].
      exists l1, p1. cbn [rd_buf remaining]. split; [exact Hl1|].
      split; [exact Hsound1|]. split; [exact Hp1|]. split; [exact Hlt1|lia]. }
  destruct Hadv as (r2 & Hadv & Hok2). rewrite Hadv. cbn [obind].
  destruct (llseek_loop_returns fuel (offset - j) r2 d1) as (r' & d' & Hrest & _);
    [lia|lia|exact Hok2|].
  rewrite Hrest. cbn [obind].
  exists r', d'. split; [reflexivity|]. split.
  - eapply llseek_loop_keeps_dropped; eassumption.
  - intros Hwithin. assert (Hz : offset - j = 0) by (unfold j; lia).
    rewrite Hz in Hrest. destruct fuel; simpl in Hrest;
      injection Hrest as _ <-; subst d1; reflexivity.
Qed.

(** ** Failure of a region allocation *)

Lemma dma_region_eqb_eq (x y : dma_region) :
  dma_region_eqb x y = true <-> x = y.
Proof.
  destruct x as [[s1 v1] p1], y as [[s2 v2] p2]. unfold dma_region_eqb.
  rewrite !andb_true_iff, !Z.eqb_eq. split.
  - intros [[-> ->] ->]. reflexivity.
  - intros [= -> -> ->]. auto.
Qed.

(** Freeing a live region removes it from the heap once. *)
Lemma dma_free_coherent_perm (r : dma_region) (heap : list dma_region) :
  r ∈ heap -> r :: dma_free_coherent r heap ≡ₚ heap.
Proof.
  induction heap as [|x rest IH]; intros Hin.
  - inversion Hin.
  - simpl. destruct (dma_region_eqb r x) eqn:Heq.
    + apply dma_region_eqb_eq in Heq. subst x. reflexivity.
    + assert (Hrest : r ∈ rest).
      { apply elem_of_cons in Hin as [->|Hin]; [|exact Hin].
        assert (dma_region_eqb x x = true) by (apply dma_region_eqb_eq; reflexivity).
        congruence. }
      rewrite Permutation_swap. f_equiv. apply IH. exact Hrest.
Qed.

(** The release loop gives back exactly the regions the buffer list owns. *)
Lemma release_loop_perm (l : list logic_buffer) :
  forall heap base : list dma_region,
    heap ≡ₚ regions_of l ++ base -> release_loop l heap ≡ₚ base.
Proof.
  induction l as [|b rest IH]; intros heap base Hheap.
  - exact Hheap.
  - simpl in *. destruct (buf b =? 0).
    + apply IH. exact Hheap.
    + apply IH.
      assert (Hin : (size b, buf b, phys_addr b) ∈ heap).
      { rewrite Hheap. left. }
      pose proof (dma_free_coherent_perm _ _ Hin) as Hfree.
      rewrite Hheap in Hfree at 2.
      eapply Permutation_cons_inv. exact Hfree.
Qed.

Lemma regions_of_insert (l : list logic_buffer) :
  forall (i : nat) (z e : logic_buffer),
    l !! i = Some z -> buf z = 0 -> buf e <> 0 ->
    regions_of (<[i := e]> l) ≡ₚ (size e, buf e, phys_addr e) :: regions_of l.
Proof.
  induction l as [|x rest IH]; intros i z e Hz Hz0 He.
  - discriminate.
  - destruct i as [|i]; simpl in *.
    + injection Hz as ->. rewrite Hz0.
      destruct (Z.eqb_spec (buf e) 0); [contradiction|]. reflexivity.
    + destruct (buf x =? 0).
      * eapply IH; eassumption.
      * rewrite (IH i z e Hz Hz0 He). apply Permutation_swap.
Qed.

(** Whatever way the allocation loop ends, the heap holds the regions
    the buffer list owns on top of what it held before. *)
Lemma memalloc_loop_heap (A : allocator) (U : Z) (cnt : nat)
    (base : list dma_region) :
  forall (n i : nat) (l : list logic_buffer) (heap : list dma_region)
         (ok : bool) (l' : list logic_buffer) (heap' : list dma_region),
    memalloc_loop A U cnt n i l heap = (ok, l', heap') ->
    (i + n <= length l)%nat ->
    (forall k, (i <= k < length l)%nat -> l !! k = Some zero_buffer) ->
    heap ≡ₚ regions_of l ++ base ->
    heap' ≡ₚ regions_of l' ++ base.
Proof.
  induction n as [|n IH]; intros i l heap ok l' heap' Hrun Hlen Hzero Hheap.
  - simpl in Hrun. injection Hrun as _ <- <-. exact Hheap.
  - simpl in Hrun. destruct (dma_alloc_coherent A i) as [b h] eqn:Ha.
    destruct (Z.eqb_spec b 0) as [|Hb].
    + injection Hrun as _ <- <-. exact Hheap.
    + eapply IH; [exact Hrun|rewrite length_insert; lia| |].
      * intros k Hk. rewrite length_insert in Hk.
        rewrite list_lookup_insert_ne by lia. apply Hzero. lia.
      * rewrite (regions_of_insert l i zero_buffer); [| apply Hzero; lia
                                                      | reflexivity | exact Hb].
        simpl. rewrite Hheap. reflexivity.
Qed.

Lemma memalloc_loop_fails (A : allocator) (U : Z) (cnt : nat) :
  forall (n i : nat) (l : list logic_buffer) (heap : list dma_region),
    (exists k, (i <= k < i + n)%nat /\ fst (dma_alloc_coherent A k) = 0) ->
    exists l' heap', memalloc_loop A U cnt n i l heap = (false, l', heap').
Proof.
  induction n as [|n IH]; intros i l heap (k & Hk & Hfail).
  - lia.
  - simpl. destruct (dma_alloc_coherent A i) as [b h] eqn:Ha.
    destruct (Z.eqb_spec b 0) as [|Hb]; [eauto|].
    apply IH. exists k. split; [|exact Hfail].
    destruct (decide (k = i)) as [->|]; [|lia].
    rewrite Ha in Hfail. contradiction.
Qed.

Lemma regions_of_zero (n : nat) : regions_of (replicate n zero_buffer) = [].
Proof. induction n as [|n IH]; [reflexivity|exact IH]. Qed.

(** The sibling failure path of C10: when one of the region allocations
    fails, the call returns -ENOMEM with the count reset to 0 and the
    buffer array NULL, and every region allocated on the way has been
    given back. *)
Lemma memalloc_region_failure (A : allocator) (d : beaglelogicdev) (B : Z)
    (heap : list dma_region) :
  let c := Z.max (DIV_ROUND_UP B (bufunitsize d)) 2 in
  mutex d = false -> bufunitsize d <> 0 ->
  c <= maxbufcount d -> maxbufcount d < 2 ^ 31 ->
  kzalloc_ok A = true ->
  (exists k, (k < Z.to_nat c)%nat /\ fst (dma_alloc_coherent A k) = 0) ->
  exists heap',
    beaglelogic_memalloc A d B heap
      = Done (- ENOMEM, set_buffers (set_bufcount d 0) None, heap') /\
    heap' ≡ₚ heap.
Proof.
  intros c Hm HU Hmax Hcap Hkz (k & Hk & Hfail).
  pose proof (count_range B (bufunitsize d) HU) as Hc. fold c in Hc.
  assert (Hcnt : to_int32 c = c) by (apply to_int32_small; lia).
  destruct (memalloc_loop_fails A (bufunitsize d) (Z.to_nat c) (Z.to_nat c)
              0 (replicate (Z.to_nat c) zero_buffer) heap)
    as (l & heap1 & Hloop); [exists k; split; [lia|exact Hfail]|].
  assert (Hheap1 : heap1 ≡ₚ regions_of l ++ heap).
  { eapply memalloc_loop_heap; [exact Hloop| | |].
    - rewrite length_replicate. lia.
    - intros i Hi. rewrite length_replicate in Hi.
      apply lookup_replicate_2. lia.
    - rewrite regions_of_zero. reflexivity. }
  exists (release_loop l heap1). split.
  - unfold beaglelogic_memalloc, mutex_trylock. rewrite Hm. cbn [negb].
    cbn [bufunitsize set_mutex maxbufcount].
    destruct (Z.eqb_spec (bufunitsize d) 0) as [|_]; [contradiction|].
    cbn zeta. fold c. rewrite Hcnt. rewrite (wrap32_small c) by lia.
    destruct (Z.ltb_spec (maxbufcount d) c) as [|_]; [lia|].
    rewrite Hkz. cbn [negb bufunitsize set_bufcount set_mutex]. rewrite Hloop.
    do 2 f_equal. f_equal. destruct d; simpl in *; subst; reflexivity.
  - apply release_loop_perm. exact Hheap1.
Qed.

(** The third of four region allocations failing on the probed device. *)
Lemma memalloc_region_failure_example :
  exists d',
    beaglelogic_memalloc third_fails_allocator probed_dev (16 * 1024 * 1024) []
      = Done (- ENOMEM, d', []) /\
    bufcount d' = 0 /\ buffers d' = None.
Proof.
  eexists. split; [vm_compute; reflexivity|]. split; reflexivity.
Qed.

(** ** The session discipline *)

Lemma same_session_refl (d : beaglelogicdev) : same_session d d.
Proof. split; reflexivity. Qed.

Lemma same_session_trans (d1 d2 d3 : beaglelogicdev) :
  same_session d1 d2 -> same_session d2 d3 -> same_session d1 d3.
Proof. intros [H1 H2] [H3 H4]. split; congruence. Qed.

Lemma running_locked_same (d d' : beaglelogicdev) :
  same_session d d' -> running_locked d -> running_locked d'.
Proof. intros [Hs Hm] H. unfold running_locked in *. rewrite Hs, Hm. exact H. Qed.

(** A device whose lock is free is not Running, and stays within the
    discipline whatever happens to its lock as long as its state stays. *)
Lemma running_locked_free (d d' : beaglelogicdev) :
  running_locked d -> mutex d = false -> state d' = state d ->
  running_locked d'.
Proof.
  intros H Hm Hs Hr. rewrite Hs in Hr. apply H in Hr. congruence.
Qed.

Lemma write_buf_state_same (d d' : beaglelogicdev) (p : option nat) (s : Z) :
  write_buf_state d p s = Done d' -> same_session d d'.
Proof.
  unfold write_buf_state. destruct p as [i|]; [|discriminate].
  destruct (buffers d) as [l|]; [|discriminate].
  destruct (l !! i); [|discriminate].
  intros [= <-]. split; reflexivity.
Qed.

Lemma detect_drop_same (d d' : beaglelogicdev) (p : option nat) :
  detect_drop d p = Done d' -> same_session d d'.
Proof.
  unfold detect_drop. intros H.
  apply obind_done in H as (b & _ & H).
  destruct (buf_state b =? STATE_BL_BUF_MAPPED).
  - apply obind_done in H as (d1 & Hw & H). injection H as <-.
    apply write_buf_state_same in Hw. destruct Hw. split; assumption.
  - injection H as <-. apply same_session_refl.
Qed.

(** The interrupt handler keeps the discipline. *)
Lemma serve_irq_running_locked (irqno : Z) (d d' : beaglelogicdev) :
  beaglelogic_serve_irq irqno d = Done d' ->
  running_locked d -> running_locked d'.
Proof.
  unfold beaglelogic_serve_irq. intros H Hinv.
  destruct (irqno =? from_bl_irq_1 d).
  - apply obind_done in H as (d2 & Hun & H).
    apply write_buf_state_same in Hun.
    assert (H2 : same_session d d2) by (destruct Hun; split; assumption).
    apply obind_done in H as (adv & _ & H).
    destruct adv.
    + apply obind_done in H as (b & _ & H).
      apply obind_done in H as (_z & _ & H). injection H as <-.
      eapply running_locked_same; [|exact Hinv].
      destruct H2. split; assumption.
    + injection H as <-. eapply running_locked_same; eassumption.
  - destruct (irqno =? from_bl_irq_2 d); [|injection H as <-; exact Hinv].
    destruct (state d <=? STATE_BL_ARMED); [injection H as <-; exact Hinv|].
    destruct (_ && _); [injection H as <-; intros Hr; discriminate|].
    cbn zeta in H. destruct (_ && _); injection H as <-; intros Hr; discriminate.
Qed.

(** So does a sleep, whose condition holds when it is what ended it; a
    sleep that neither a timeout nor a signal can end is only ended by
    its condition. *)
Lemma sleep_until_running_locked (cond : beaglelogicdev -> outcome bool)
    (irqs : list Z) (e : wait_end) :
  forall (d d' : beaglelogicdev) (w : wake),
    sleep_until cond irqs e d = Done (w, d') ->
    running_locked d ->
    running_locked d' /\
    (w = CondTrue -> cond d' = Done true) /\
    (e = NothingElse -> w = CondTrue).
Proof.
  induction irqs as [|irq rest IH]; intros d d' w H Hinv.
  - cbn [sleep_until] in H. apply obind_done in H as (c & Hc & H).
    destruct c.
    + injection H as <- <-. auto.
    + destruct e; try discriminate; injection H as <- <-;
        (split; [exact Hinv|split; intros; discriminate]).
  - cbn [sleep_until] in H. apply obind_done in H as (c & Hc & H).
    destruct c.
    + injection H as <- <-. auto.
    + apply obind_done in H as (d1 & Hirq & H).
      eapply IH; [exact H|].
      eapply serve_irq_running_locked; eassumption.
Qed.

(** Taking the mutex: it was free, so the device was not Running. *)
Lemma mutex_lock_returns (irqs : list Z) (d d1 : beaglelogicdev) :
  mutex_lock irqs d = Done d1 -> running_locked d ->
  exists dl, d1 = set_mutex dl true /\ mutex dl = false /\ running_locked dl.
Proof.
  unfold mutex_lock. intros H Hinv.
  apply obind_done in H as ([w dl] & Hsleep & H). injection H as <-.
  destruct (sleep_until_running_locked _ _ _ _ _ _ Hsleep Hinv)
    as (Hdl & Hcond & Hw).
  specialize (Hcond (Hw eq_refl)). injection Hcond as Hfree.
  exists dl. split; [reflexivity|].
  split; [destruct (mutex dl); [discriminate|reflexivity]|exact Hdl].
Qed.

(** Start leaves a Running device holding the lock. *)
Lemma start_running_locked (E : environment) (d d' : beaglelogicdev) (ret : Z) :
  beaglelogic_start E d = Done (ret, d') ->
  state d' = STATE_BL_RUNNING /\ mutex d' = true.
Proof.
  intros H. destruct (start_returns E d d' ret H) as (w & dl & x & _ & _ & ->).
  split; reflexivity.
Qed.

(** Stop never leaves a device Running with the lock free. *)
Lemma stop_running_locked (E : environment) (d d' : beaglelogicdev) :
  beaglelogic_stop E d = Done d' -> running_locked d -> running_locked d'.
Proof.
  unfold beaglelogic_stop, mutex_is_locked. intros H Hinv.
  destruct (mutex d) eqn:Hm; [|injection H as <-; exact Hinv].
  apply obind_done in H as (d1 & H1 & H). injection H as <-.
  destruct (Z.eqb_spec (state d) STATE_BL_RUNNING) as [Hr|Hr].
  - unfold wait_event_interruptible_timeout in H1.
    apply obind_done in H1 as ([ret d3] & Hwait & H1).
    apply obind_done in Hwait as ([w d4] & Hsleep & Hwait).
    assert (Hinv2 : running_locked
                      (set_state (beaglelogic_request_stop d) STATE_BL_REQUEST_STOP))
      by (intros Hx; discriminate).
    destruct (sleep_until_running_locked _ _ _ _ _ _ Hsleep Hinv2)
      as (_ & Hcond & _).
    destruct w; injection Hwait as <- <-.
    + specialize (Hcond eq_refl). injection Hcond as Hc.
      apply Z.eqb_eq in Hc. cbn in H1. injection H1 as <-.
      intros Hx. cbn in Hx. rewrite Hc in Hx. discriminate.
    + cbn in H1. injection H1 as <-. unfold stop_recover.
      destruct (negb _); [intros Hx; discriminate|].
      destruct (negb _); intros Hx; discriminate.
    + cbn in H1. injection H1 as <-. intros Hx. discriminate.
  - injection H1 as <-. intros Hx. cbn in Hx. contradiction.
Qed.

Lemma perform_copy_same (E : environment) (sz : Z)
    (r r' : logic_buffer_reader) (d d' : beaglelogicdev) (ret : Z) :
  perform_copy E sz r d = Done (ret, r', d') -> same_session d d'.
Proof.
  unfold perform_copy. cbn zeta. intros H.
  apply obind_done in H as (_b & _ & H).
  destruct (copy_fails E).
  - injection H as _ _ <-. apply same_session_refl.
  - apply obind_done in H as (d1 & Hdrop & H).
    apply obind_done in H as (r2 & _ & H). injection H as _ _ <-.
    eapply detect_drop_same. exact Hdrop.
Qed.

Lemma read_when_ready_running_locked (E : environment) (nonblock : bool)
    (sz : Z) (r r' : logic_buffer_reader) (d d' : beaglelogicdev) (ret : Z) :
  read_when_ready E nonblock sz r d = Done (ret, r', d') ->
  running_locked d -> running_locked d'.
Proof.
  unfold read_when_ready. intros H Hinv. destruct nonblock.
  - apply obind_done in H as (b & _ & H). destruct (negb _).
    + injection H as _ _ <-. exact Hinv.
    + eapply running_locked_same; [|exact Hinv].
      eapply perform_copy_same. exact H.
  - apply obind_done in H as ([rt d2] & Hwait & H).
    unfold wait_event_interruptible in Hwait.
    apply obind_done in Hwait as ([w d3] & Hsleep & Hwait).
    destruct (sleep_until_running_locked _ _ _ _ _ _ Hsleep Hinv) as (Hinv3 & _).
    assert (d2 = d3) by (destruct w; injection Hwait as _ <-; reflexivity).
    subst d3. destruct (negb _).
    + injection H as _ _ <-. exact Hinv3.
    + eapply running_locked_same; [|exact Hinv3].
      eapply perform_copy_same. exact H.
Qed.

Lemma read_running_locked (E : environment) (nonblock : bool) (sz : Z)
    (r r' : logic_buffer_reader) (d d' : beaglelogicdev) (ret : Z) :
  beaglelogic_f_read E nonblock sz r d = Done (ret, r', d') ->
  running_locked d -> running_locked d'.
Proof.
  unfold beaglelogic_f_read. intros H Hinv.
  destruct (state d =? STATE_BL_ERROR); [injection H as _ _ <-; exact Hinv|].
  destruct (0 <? pos r).
  { eapply running_locked_same; [|exact Hinv].
    eapply perform_copy_same. exact H. }
  apply obind_done in H as ([[early r1] d1] & Hpre & H).
  assert (Hinv1 : running_locked d1).
  { destruct (rd_buf r).
    - destruct (_ && _); injection Hpre as _ _ <-; exact Hinv.
    - apply obind_done in Hpre as (b & _ & Hpre).
      destruct (negb (state d =? STATE_BL_RUNNING)).
      + apply obind_done in Hpre as ([rt ds] & Hstart & Hpre).
        apply start_running_locked in Hstart as [_ Hlocked].
        destruct (negb _); injection Hpre as _ _ <-; intros _; exact Hlocked.
      + injection Hpre as _ _ <-. exact Hinv. }
  destruct early.
  - injection H as _ _ <-. exact Hinv1.
  - eapply read_when_ready_running_locked; eassumption.
Qed.

Lemma llseek_loop_same (fuel : nat) :
  forall (i : Z) (r r' : logic_buffer_reader) (d d' : beaglelogicdev),
    llseek_loop fuel i r d = Done (r', d') -> same_session d d'.
Proof.
  induction fuel as [|fuel IH]; intros i r r' d d' H.
  - simpl in H. destruct (i <=? 0); [|discriminate].
    injection H as _ <-. apply same_session_refl.
  - cbn [llseek_loop] in H. destruct (i <=? 0).
    + injection H as _ <-. apply same_session_refl.
    + apply obind_done in H as (d1 & Hdrop & H).
      apply obind_done in H as (r2 & _ & H).
      eapply same_session_trans; [eapply detect_drop_same; exact Hdrop|].
      eapply IH. exact H.
Qed.

Lemma open_repair_loop_same (n : nat) :
  forall (i : nat) (d d' : beaglelogicdev) (ok : bool),
    open_repair_loop n i d = Done (ok, d') -> same_session d d'.
Proof.
  induction n as [|n IH]; intros i d d' ok H.
  - injection H as _ <-. apply same_session_refl.
  - cbn [open_repair_loop] in H. apply obind_done in H as (b & _ & H).
    destruct (negb (buf_state b =? STATE_BL_BUF_MAPPED)).
    + destruct (negb (phys_addr b =? 0)).
      * apply obind_done in H as (d1 & Hw & H).
        eapply same_session_trans; [eapply write_buf_state_same; exact Hw|].
        eapply IH. exact H.
      * injection H as _ <-. apply same_session_refl.
    + eapply IH. exact H.
Qed.

(** Every step keeps the discipline. *)
Lemma dev_step_running_locked (d d' : beaglelogicdev) :
  dev_step d d' -> running_locked d -> running_locked d'.
Proof.
  intros Hstep Hinv. destruct Hstep as
    [irqno d d' H | E d d' ret H | E d d' H | rate d d' ret H
    | unit d d' ret H | flags d d' ret H | A B heap heap' d d' ret H
    | irqs heap heap' d d' H | E d d' ret r H
    | E nonblock sz r r' d d' ret H | E fuel offset whence r r' d d' ret H].
  - eapply serve_irq_running_locked; eassumption.
  - apply start_running_locked in H as [_ Hl]. intros _. exact Hl.
  - eapply stop_running_locked; eassumption.
  - unfold beaglelogic_set_samplerate, mutex_trylock in H.
    destruct (_ || _); [injection H as _ <-; exact Hinv|].
    destruct (mutex d) eqn:Hm; injection H as _ <-; [exact Hinv|].
    eapply running_locked_free; [exact Hinv|exact Hm|reflexivity].
  - unfold beaglelogic_set_sampleunit, mutex_trylock in H.
    destruct (2 <? unit); [injection H as _ <-; exact Hinv|].
    destruct (mutex d) eqn:Hm; injection H as _ <-; [exact Hinv|].
    eapply running_locked_free; [exact Hinv|exact Hm|reflexivity].
  - unfold beaglelogic_set_triggerflags, mutex_trylock in H.
    destruct (1 <? flags); [injection H as _ <-; exact Hinv|].
    destruct (mutex d) eqn:Hm; injection H as _ <-; [exact Hinv|].
    eapply running_locked_free; [exact Hinv|exact Hm|reflexivity].
  - unfold beaglelogic_memalloc, mutex_trylock in H.
    destruct (mutex d) eqn:Hm; cbn [negb] in H;
      [injection H as _ <- _; exact Hinv|].
    destruct (_ =? 0); [discriminate|]. cbn zeta in H.
    destruct (_ <? _);
      [injection H as _ <- _;
       eapply running_locked_free; [exact Hinv|exact Hm|reflexivity]|].
    destruct (negb (kzalloc_ok A));
      [injection H as _ <- _;
       eapply running_locked_free; [exact Hinv|exact Hm|reflexivity]|].
    destruct (memalloc_loop _ _ _ _ _ _ _) as [[ok l] heap1].
    destruct ok; injection H as _ <- _;
      (eapply running_locked_free; [exact Hinv|exact Hm|reflexivity]).
  - unfold beaglelogic_memfree in H.
    apply obind_done in H as (d1 & Hlock & H).
    destruct (mutex_lock_returns irqs d d1 Hlock Hinv) as (dl & -> & Hfree & Hdl).
    cbn [buffers set_mutex] in H. destruct (buffers dl).
    + apply obind_done in H as (h & _ & H). injection H as <- _.
      eapply running_locked_free; [exact Hdl|exact Hfree|reflexivity].
    + injection H as <- _.
      eapply running_locked_free; [exact Hdl|exact Hfree|reflexivity].
  - unfold beaglelogic_f_open in H.
    destruct (bufcount d =? 0); [injection H as _ _ <-; exact Hinv|].
    destruct (reader_alloc_fails E); [injection H as _ _ <-; exact Hinv|].
    destruct (buffers d); [|injection H as _ _ <-; exact Hinv].
    apply obind_done in H as (d1 & Hlock & H).
    destruct (mutex_lock_returns _ d d1 Hlock Hinv) as (dl & -> & Hfree & Hdl).
    apply obind_done in H as ([ok d2] & Hloop & H).
    apply open_repair_loop_same in Hloop as [Hs2 _].
    destruct (negb ok).
    + injection H as _ _ <-.
      eapply running_locked_free; [exact Hdl|exact Hfree|exact Hs2].
    + apply obind_done in H as (_z & _ & H). injection H as _ _ <-.
      eapply running_locked_free; [exact Hdl|exact Hfree|exact Hs2].
  - eapply read_running_locked; eassumption.
  - unfold beaglelogic_f_llseek in H. destruct (whence =? SEEK_CUR).
    + apply obind_done in H as ([r1 d1] & Hloop & H). injection H as _ _ <-.
      eapply running_locked_same; [|exact Hinv].
      eapply llseek_loop_same. exact Hloop.
    + destruct (_ && _); [|injection H as _ _ <-; exact Hinv].
      apply obind_done in H as (d1 & Hstop & H).
      apply obind_done in H as (_z & _ & H). injection H as _ _ <-.
      eapply stop_running_locked; eassumption.
Qed.

(** Whatever sequence of calls and interrupts follows a probe, a Running
    device holds the session lock. *)
Lemma reachable_running_locked (d : beaglelogicdev) :
  reachable d -> running_locked d.
Proof.
  induction 1 as [irq1 irq2 max_sg d Hprobe | d d' _ IH Hstep].
  - unfold beaglelogic_probe in Hprobe.
    destruct (_ && _); [|discriminate]. injection Hprobe as <-.
    intros Hr. discriminate.
  - eapply dev_step_running_locked; eassumption.
Qed.

(** The same on reachable devices: the lock hypothesis is the session
    discipline. *)
Lemma stop_from_running_reachable (E : environment) (d : beaglelogicdev) :
  reachable d -> state d = STATE_BL_RUNNING -> ring_ok d ->
  exists d',
    beaglelogic_stop E d = Done d' /\
    (state d' = STATE_BL_INITIALIZED \/ state d' = STATE_BL_ERROR) /\
    state d' <> STATE_BL_REQUEST_STOP /\ mutex d' = false.
Proof.
  intros Hreach Hs Hok.
  pose proof (reachable_running_locked d Hreach Hs) as Hm.
  unfold beaglelogic_stop, mutex_is_locked. rewrite Hm, Hs.
  change (STATE_BL_RUNNING =? STATE_BL_RUNNING) with true. cbv iota.
  unfold wait_event_interruptible_timeout.
  set (d2 := set_state (beaglelogic_request_stop d) STATE_BL_REQUEST_STOP).
  assert (Hok2 : ring_ok d2).
  { eapply ring_ok_same_ring; [| |exact Hok]; destruct d; reflexivity. }
  destruct (sleep_until_ends (fun x => state x =? STATE_BL_INITIALIZED)
              (wait_irqs E)
              (if signal E then SignalArrives else TimeoutElapses) d2)
    as (w & d3 & Hsleep & _ & Hcond & _);
    [destruct (signal E); discriminate|exact Hok2|].
  rewrite Hsleep. cbn [obind]. destruct w; cbn [obind].
  - specialize (Hcond eq_refl). apply Z.eqb_eq in Hcond.
    eexists. split; [reflexivity|]. cbn.
    rewrite Hcond. split; [left; reflexivity|]. split; [discriminate|reflexivity].
  - eexists. split; [reflexivity|]. unfold stop_recover.
    destruct (negb (boot_pru0 E =? 0)); [cbn; split; [right; reflexivity|split; [discriminate|reflexivity]]|].
    destruct (negb (boot_pru1 E =? 0)); cbn;
      (split; [first [left; reflexivity|right; reflexivity]|split; [discriminate|reflexivity]]).
  - eexists. split; [reflexivity|]. cbn.
    split; [left; reflexivity|]. split; [discriminate|reflexivity].
Qed.

(** ** Open *)

Lemma open_repair_loop_mapped (n : nat) :
  forall (i : nat) (d : beaglelogicdev) (l : list logic_buffer),
    buffers d = Some l ->
    (forall k, (i <= k < i + n)%nat ->
       exists b, l !! k = Some b /\ buf_state b = STATE_BL_BUF_MAPPED) ->
    open_repair_loop n i d = Done (true, d).
Proof.
  induction n as [|n IH]; intros i d l Hl Hall.
  - reflexivity.
  - cbn [open_repair_loop].
    destruct (Hall i) as (b & Hb & Hst); [lia|].
    rewrite (deref_lookup d l i b Hl Hb). cbn [obind]. rewrite Hst.
    change (negb (STATE_BL_BUF_MAPPED =? STATE_BL_BUF_MAPPED)) with false.
    cbv iota. apply (IH (S i) d l Hl).
    intros k Hk. apply Hall. lia.
Qed.

(** Opening a device whose ring is fresh changes nothing and hands out
    the reader a oneshot capture starts from. *)
Lemma open_fresh_ring (E : environment) (d : beaglelogicdev)
    (l : list logic_buffer) (U : Z) :
  buffers d = Some l -> 0 < bufcount d ->
  ring_filled_upto (Z.to_nat (bufcount d)) U 0 l ->
  mutex d = false -> reader_alloc_fails E = false ->
  beaglelogic_f_open E d = Done (0, Some (mk_reader None 0 0), d).
Proof.
  intros Hl Hcnt [Hlen Hall] Hm Halloc. unfold beaglelogic_f_open.
  destruct (Z.eqb_spec (bufcount d) 0) as [|_]; [lia|].
  rewrite Halloc, Hl.
  assert (Hlock : mutex_lock (lock_irqs E) d = Done (set_mutex d true)).
  { unfold mutex_lock. destruct (lock_irqs E); cbn [sleep_until obind];
      rewrite Hm; reflexivity. }
  rewrite Hlock. cbn [obind bufcount set_mutex].
  rewrite (open_repair_loop_mapped _ 0 (set_mutex d true) l Hl).
  - cbn [obind negb]. rewrite (trylock_unlock_free d Hm).
    unfold beaglelogic_map_buffer, buffers_ptr. rewrite Hl.
    destruct (Hall 0%nat) as (b & Hb & _); [lia|].
    rewrite (deref_lookup d l 0 b Hl Hb). cbn [obind].
    destruct (_ =? _); [reflexivity|]. destruct (negb _); reflexivity.
  - intros k Hk. destruct (Hall k) as (b & Hb & _ & _ & _ & Hst); [lia|].
    exists b. split; [exact Hb|exact Hst].
Qed.


(** ** Freeing the ring *)

(** Taking a free mutex does not sleep. *)
Lemma mutex_lock_free (irqs : list Z) (d : beaglelogicdev) :
  mutex d = false -> mutex_lock irqs d = Done (set_mutex d true).
Proof.
  intros Hm. unfold mutex_lock.
  destruct irqs; cbn [sleep_until obind]; rewrite Hm; reflexivity.
Qed.

(** The loop of [beaglelogic_memfree] is the release loop over the entries
    it visits. *)
Lemma memfree_loop_release (l : list logic_buffer) :
  forall (n i : nat) (heap : list dma_region),
    (i + n <= length l)%nat ->
    memfree_loop l n i heap = Done (release_loop (take n (drop i l)) heap).
Proof.
  induction n as [|n IH]; intros i heap Hlen.
  - reflexivity.
  - destruct (lookup_lt_is_Some_2 l i) as [b Hb]; [lia|].
    cbn [memfree_loop]. rewrite Hb.
    rewrite (drop_S l b i Hb). cbn [take release_loop].
    apply IH. lia.
Qed.

(** What [beaglelogic_memfree] does to a device that owns a ring and
    whose lock is free. *)
Lemma memfree_run (irqs : list Z) (d : beaglelogicdev)
    (l : list logic_buffer) (heap : list dma_region) :
  mutex d = false -> buffers d = Some l ->
  Z.to_nat (bufcount d) = length l ->
  beaglelogic_memfree irqs d heap
    = Done (set_bufcount (set_buffers d None) 0, release_loop l heap).
Proof.
  intros Hm Hl Hlen. unfold beaglelogic_memfree.
  rewrite (mutex_lock_free irqs d Hm). cbn [obind buffers set_mutex bufcount].
  rewrite Hl, Hlen, (memfree_loop_release l (length l) 0 heap) by lia.
  cbn [obind]. rewrite drop_0, firstn_all.
  do 2 f_equal. destruct d; simpl in *; subst; reflexivity.
Qed.

(** Without a ring it does nothing. *)
Lemma memfree_nothing (irqs : list Z) (d : beaglelogicdev)
    (heap : list dma_region) :
  mutex d = false -> buffers d = None ->
  beaglelogic_memfree irqs d heap = Done (d, heap).
Proof.
  intros Hm Hl. unfold beaglelogic_memfree.
  rewrite (mutex_lock_free irqs d Hm). cbn [obind buffers set_mutex].
  rewrite Hl. do 2 f_equal. apply trylock_unlock_free. exact Hm.
Qed.

(** X1: [beaglelogic_memfree] on a device whose lock is free and whose
    ring owns its regions gives every region of the ring back to the DMA
    heap and leaves the device without buffers ([buffers] NULL, [bufcount]
    0); the device state is not touched (an Armed device stays Armed), the
    lock is free again, and a second call changes nothing. *)
Theorem memfree_returns_every_region (irqs : list Z) (d : beaglelogicdev)
    (l : list logic_buffer) (heap base : list dma_region) :
  mutex d = false -> buffers d = Some l ->
  Z.to_nat (bufcount d) = length l ->
  heap ≡ₚ regions_of l ++ base ->
  exists d' heap',
    beaglelogic_memfree irqs d heap = Done (d', heap') /\
    heap' ≡ₚ base /\
    buffers d' = None /\ bufcount d' = 0 /\
    state d' = state d /\ mutex d' = false /\
    beaglelogic_memfree irqs d' heap' = Done (d', heap').
Proof.
  intros Hm Hl Hlen Hheap.
  exists (set_bufcount (set_buffers d None) 0), (release_loop l heap).
  split; [apply memfree_run; assumption|].
  split; [apply release_loop_perm; exact Hheap|].
  split; [reflexivity|]. split; [reflexivity|]. split; [reflexivity|].
  split; [exact Hm|].
  apply memfree_nothing; [exact Hm|reflexivity].
Qed.

(** Freeing the example ring, whose two regions are all the heap holds. *)
Lemma memfree_returns_every_region_witness :
  exists d' heap',
    beaglelogic_memfree []
      (example_dev BL_TRIGGERFLAGS_ONESHOT STATE_BL_ARMED false
         STATE_BL_BUF_MAPPED STATE_BL_BUF_UNMAPPED)
      (regions_of (example_ring STATE_BL_BUF_MAPPED STATE_BL_BUF_UNMAPPED))
      = Done (d', heap') /\
    heap' ≡ₚ [] /\
    buffers d' = None /\ bufcount d' = 0 /\
    state d' = STATE_BL_ARMED /\ mutex d' = false /\
    beaglelogic_memfree [] d' heap' = Done (d', heap').
Proof.
  apply (memfree_returns_every_region []
           (example_dev BL_TRIGGERFLAGS_ONESHOT STATE_BL_ARMED false
              STATE_BL_BUF_MAPPED STATE_BL_BUF_UNMAPPED)
           (example_ring STATE_BL_BUF_MAPPED STATE_BL_BUF_UNMAPPED) _ []).
  - reflexivity.
  - reflexivity.
  - reflexivity.
  - rewrite app_nil_r. reflexivity.
Defined.


(** ** Allocation and the DMA heap *)

(** X2: a call of [beaglelogic_memalloc] that fails, for whatever reason,
    leaves the DMA heap as it found it: every region allocated on the way
    has been given back.  It fails with -EBUSY exactly when the lock is
    held, and then changes nothing at all, and with -ENOMEM otherwise; the
    lock is as it was before the call and the device state is not
    touched. *)
Theorem memalloc_failure_keeps_heap (A : allocator) (d d' : beaglelogicdev)
    (B ret : Z) (heap heap' : list dma_region) :
  beaglelogic_memalloc A d B heap = Done (ret, d', heap') -> ret <> 0 ->
  heap' ≡ₚ heap /\
  (ret = - EBUSY /\ mutex d = true /\ d' = d \/
   ret = - ENOMEM /\ mutex d = false) /\
  mutex d' = mutex d /\ state d' = state d.
Proof.
  unfold beaglelogic_memalloc, mutex_trylock. intros H Hret.
  destruct (mutex d) eqn:Hm; cbn [negb] in H.
  { injection H as <- <- <-. rewrite Hm. auto 10. }
  cbn [bufunitsize set_mutex maxbufcount] in H.
  destruct (Z.eqb_spec (bufunitsize d) 0) as [|HU]; [discriminate|].
  cbn zeta in H.
  destruct (_ <? _).
  { injection H as <- <- <-. split; [reflexivity|]. split; [right; auto|].
    split; reflexivity. }
  destruct (kzalloc_ok A); cbn [negb] in H.
  - destruct (memalloc_loop _ _ _ _ _ _ _) as [[ok l] heap1] eqn:Hloop.
    destruct ok; injection H as <- <- <-; [contradiction|].
    split; [|split; [right; auto|split; reflexivity]].
    apply release_loop_perm.
    eapply memalloc_loop_heap; [exact Hloop| | |].
    + rewrite length_replicate. lia.
    + intros i Hi. rewrite length_replicate in Hi.
      apply lookup_replicate_2. lia.
    + rewrite regions_of_zero. reflexivity.
  - injection H as <- <- <-. split; [reflexivity|]. split; [right; auto|].
    split; reflexivity.
Qed.

(** The third of four region allocations failing on the probed device. *)
Lemma memalloc_failure_keeps_heap_witness :
  exists d',
    beaglelogic_memalloc third_fails_allocator probed_dev (16 * 1024 * 1024) []
      = Done (- ENOMEM, d', []) /\
    ([] : list dma_region) ≡ₚ [] /\
    (- ENOMEM = - EBUSY /\ mutex probed_dev = true /\ d' = probed_dev \/
     - ENOMEM = - ENOMEM /\ mutex probed_dev = false) /\
    mutex d' = mutex probed_dev /\ state d' = state probed_dev.
Proof.
  eexists.
  assert (E : beaglelogic_memalloc third_fails_allocator probed_dev
                (16 * 1024 * 1024) [] = Done (- ENOMEM, _, []))
    by (vm_compute; reflexivity).
  split; [exact E|].
  exact (memalloc_failure_keeps_heap third_fails_allocator probed_dev _
           (16 * 1024 * 1024) (- ENOMEM) [] [] E ltac:(discriminate)).
Defined.

(** X3: allocation followed by [beaglelogic_memfree] is a round trip on
    the DMA heap: after a [beaglelogic_memalloc] that returned 0, freeing
    returns (the lock is free), gives back exactly the regions the
    allocation took, and leaves the device without buffers; a device that
    had no ring before the allocation is again as it was. *)
Theorem memalloc_memfree_round_trip (A : allocator) (irqs : list Z)
    (d d' : beaglelogicdev) (B : Z) (heap heap' : list dma_region) :
  maxbufcount d < 2 ^ 31 ->
  beaglelogic_memalloc A d B heap = Done (0, d', heap') ->
  exists d'' heap'',
    beaglelogic_memfree irqs d' heap' = Done (d'', heap'') /\
    heap'' ≡ₚ heap /\
    buffers d'' = None /\ bufcount d'' = 0 /\
    (buffers d = None -> bufcount d = 0 -> d'' = d).
Proof.
  intros Hcap Hrun.
  destruct (memalloc_returns_0 A d d' B heap heap' Hrun)
    as (Hm & HU & Hmax & Hkz & l & Hloop & ->).
  pose proof (count_range B (bufunitsize d) HU) as Hc.
  set (c := Z.max (DIV_ROUND_UP B (bufunitsize d)) 2) in *.
  rewrite (wrap32_to_int32 c) in * by lia.
  rewrite (to_int32_small c) in Hloop by lia.
  destruct (memalloc_loop_true _ _ _ _ _ _ _ _ _ Hloop)
    as (Hlen & _); [rewrite length_replicate; lia|].
  rewrite length_replicate in Hlen.
  assert (Hheap : heap' ≡ₚ regions_of l ++ heap).
  { eapply memalloc_loop_heap; [exact Hloop| | |].
    - rewrite length_replicate. lia.
    - intros i Hi. rewrite length_replicate in Hi.
      apply lookup_replicate_2. lia.
    - rewrite regions_of_zero. reflexivity. }
  eexists. eexists. split.
  - apply (memfree_run irqs _ l heap'); [exact Hm|reflexivity|].
    cbn [bufcount set_buffers set_bufcount]. lia.
  - split; [apply release_loop_perm; exact Hheap|].
    split; [reflexivity|]. split; [reflexivity|].
    intros Hb Hn. destruct d; simpl in *; subst; reflexivity.
Qed.

(** A 12 MiB ring allocated on the probed device and freed again. *)
Lemma memalloc_memfree_round_trip_witness :
  exists d' heap' d'' heap'',
    beaglelogic_memalloc good_allocator probed_dev 12582912 []
      = Done (0, d', heap') /\
    beaglelogic_memfree [] d' heap' = Done (d'', heap'') /\
    heap'' ≡ₚ [] /\
    buffers d'' = None /\ bufcount d'' = 0 /\
    (buffers probed_dev = None -> bufcount probed_dev = 0 -> d'' = probed_dev).
Proof.
  eexists. eexists.
  assert (E : beaglelogic_memalloc good_allocator probed_dev 12582912 []
              = Done (0, _, _)) by (vm_compute; reflexivity).
  destruct (memalloc_memfree_round_trip good_allocator [] probed_dev _
              12582912 [] _ ltac:(vm_compute; reflexivity) E)
    as (d'' & heap'' & H).
  exists d'', heap''. split; [exact E|exact H].
Defined.


(** ** Submitting the ring *)

Lemma map_buffer_mappable (d : beaglelogicdev) (l : list logic_buffer)
    (i : nat) (b : logic_buffer) :
  buffers d = Some l -> l !! i = Some b ->
  beaglelogic_map_buffer d (Some i)
    = Done (if (buf_state b =? STATE_BL_BUF_MAPPED) || negb (phys_addr b =? 0)
            then 0 else - EINVAL).
Proof.
  intros Hl Hb. unfold beaglelogic_map_buffer.
  rewrite (deref_lookup d l i b Hl Hb). cbn [obind].
  destruct (_ =? _); [reflexivity|]. destruct (negb _); reflexivity.
Qed.

Lemma mappable_test (b : logic_buffer) :
  mappable b <->
  (buf_state b =? STATE_BL_BUF_MAPPED) || negb (phys_addr b =? 0) = true.
Proof.
  unfold mappable. rewrite orb_true_iff, negb_true_iff, Z.eqb_eq, Z.eqb_neq.
  reflexivity.
Qed.

(** The first loop goes through when every buffer can be mapped. *)
Lemma map_all_loop_through (d : beaglelogicdev) (l : list logic_buffer) :
  buffers d = Some l ->
  forall n i : nat,
    (i + n <= length l)%nat ->
    (forall k b, (i <= k < i + n)%nat -> l !! k = Some b -> mappable b) ->
    map_all_loop n i d = Done None.
Proof.
  intros Hl. induction n as [|n IH]; intros i Hlen Hall.
  - reflexivity.
  - destruct (lookup_lt_is_Some_2 l i) as [b Hb]; [lia|].
    cbn [map_all_loop]. rewrite (map_buffer_mappable d l i b Hl Hb).
    cbn [obind].
    assert (Hm : mappable b) by (apply (Hall i); [lia|exact Hb]).
    apply mappable_test in Hm. rewrite Hm.
    change (negb (0 =? 0)) with false. cbv iota.
    apply IH; [lia|]. intros k c Hk. apply Hall. lia.
Qed.

(** It stops at the first buffer that cannot be mapped. *)
Lemma map_all_loop_stops (d : beaglelogicdev) (l : list logic_buffer) (k : nat)
    (bk : logic_buffer) :
  buffers d = Some l -> l !! k = Some bk -> ~ mappable bk ->
  forall n i : nat,
    (i <= k < i + n)%nat ->
    (forall j b, (i <= j < k)%nat -> l !! j = Some b -> mappable b) ->
    map_all_loop n i d = Done (Some k).
Proof.
  intros Hl Hk Hbad. induction n as [|n IH]; intros i Hik Hall.
  - lia.
  - cbn [map_all_loop]. destruct (decide (i = k)) as [->|Hne].
    + rewrite (map_buffer_mappable d l k bk Hl Hk). cbn [obind].
      rewrite mappable_test in Hbad. apply not_true_is_false in Hbad.
      rewrite Hbad. reflexivity.
    + destruct (lookup_lt_is_Some_2 l i) as [b Hb].
      { apply lookup_lt_Some in Hk. lia. }
      rewrite (map_buffer_mappable d l i b Hl Hb). cbn [obind].
      assert (Hm : mappable b) by (apply (Hall i); [lia|exact Hb]).
      apply mappable_test in Hm. rewrite Hm.
      change (negb (0 =? 0)) with false. cbv iota.
      apply IH; [lia|]. intros j c Hj. apply Hall. lia.
Qed.

(** The table loop writes the descriptors of the buffers it visits. *)
Lemma buflist_loop_entries (d : beaglelogicdev) (l : list logic_buffer) :
  buffers d = Some l ->
  forall n i : nat,
    (i + n <= length l)%nat ->
    buflist_loop n i d = Done (buflist_entry <$> take n (drop i l)).
Proof.
  intros Hl. induction n as [|n IH]; intros i Hlen.
  - reflexivity.
  - destruct (lookup_lt_is_Some_2 l i) as [b Hb]; [lia|].
    cbn [buflist_loop]. rewrite (deref_lookup d l i b Hl Hb). cbn [obind].
    rewrite IH by lia. cbn [obind].
    rewrite (drop_S l b i Hb). reflexivity.
Qed.

(** Marking a run of buffers Unmapped touches the states of those buffers
    and nothing else. *)
Lemma unmap_loop_run :
  forall (n j : nat) (d : beaglelogicdev) (l : list logic_buffer),
    buffers d = Some l -> (j + n <= length l)%nat ->
    exists l',
      unmap_loop n j d = Done (set_buffers d (Some l')) /\
      length l' = length l /\
      forall k b, l !! k = Some b ->
        l' !! k = Some (if (j <=? k)%nat && (k <? j + n)%nat
                        then set_buf_state b STATE_BL_BUF_UNMAPPED else b).
Proof.
  induction n as [|n IH]; intros j d l Hl Hlen.
  - exists l. split; [cbn; f_equal; destruct d; simpl in *; subst; reflexivity|].
    split; [reflexivity|]. intros k b Hb.
    replace (k <? j + 0)%nat with (k <? j)%nat by (f_equal; lia).
    destruct (Nat.leb_spec j k), (Nat.ltb_spec k j); try lia; exact Hb.
  - destruct (lookup_lt_is_Some_2 l j) as [bj Hbj]; [lia|].
    cbn [unmap_loop]. unfold beaglelogic_unmap_buffer.
    rewrite (write_buf_state_lookup d l j bj _ Hl Hbj). cbn [obind].
    set (l1 := <[j := set_buf_state bj STATE_BL_BUF_UNMAPPED]> l).
    destruct (IH (S j) (set_buffers d (Some l1)) l1) as (l' & Hrun & Hlen' & Hall);
      [reflexivity|unfold l1; rewrite length_insert; lia|].
    exists l'. split; [rewrite Hrun; f_equal; destruct d; reflexivity|].
    split; [rewrite Hlen'; unfold l1; apply length_insert|].
    intros k b Hb. destruct (decide (k = j)) as [->|Hne].
    + rewrite (Hall j (set_buf_state bj STATE_BL_BUF_UNMAPPED)).
      * rewrite Hbj in Hb. injection Hb as <-.
        destruct (Nat.leb_spec (S j) j), (Nat.leb_spec j j),
          (Nat.ltb_spec j (j + S n)); try lia; reflexivity.
      * unfold l1. apply list_lookup_insert_eq. lia.
    + rewrite (Hall k b).
      * f_equal.
        destruct (Nat.leb_spec (S j) k), (Nat.leb_spec j k),
          (Nat.ltb_spec k (S j + n)), (Nat.ltb_spec k (j + S n));
          try lia; reflexivity.
      * unfold l1. rewrite list_lookup_insert_ne by lia. exact Hb.
Qed.

(** What the submission does when every buffer can be mapped. *)
Lemma submit_run (d : beaglelogicdev) (l : list logic_buffer) :
  buffers d = Some l -> Z.to_nat (bufcount d) = length l ->
  (forall k b, l !! k = Some b -> mappable b) ->
  beaglelogic_map_and_submit_all_buffers d
    = Done (0,
            if negb (bufcount d =? 0) then set_state d STATE_BL_ARMED else d,
            (buflist_entry <$> l) ++ [(0, 0)]).
Proof.
  intros Hl Hlen Hall.
  unfold beaglelogic_map_and_submit_all_buffers. cbn zeta. rewrite Hlen.
  rewrite (map_all_loop_through d l Hl (length l) 0);
    [|lia|intros k b _; apply Hall].
  cbn [obind]. rewrite (buflist_loop_entries d l Hl (length l) 0) by lia.
  cbn [obind]. rewrite drop_0, firstn_all. reflexivity.
Qed.

(** X4: when every buffer of the ring can be mapped (it is Mapped or has
    a DMA address), [beaglelogic_map_and_submit_all_buffers] returns 0 and
    writes one descriptor per buffer, in ring order, each the physical
    start and end address of its buffer, followed by an all-zero
    terminator: [bufcount + 1] entries in all.  A device with at least one
    buffer becomes Armed; nothing else changes. *)
Theorem submit_writes_terminated_table (d : beaglelogicdev)
    (l : list logic_buffer) :
  buffers d = Some l -> Z.to_nat (bufcount d) = length l ->
  (forall k b, l !! k = Some b -> mappable b) ->
  exists entries,
    beaglelogic_map_and_submit_all_buffers d
      = Done (0,
              if negb (bufcount d =? 0) then set_state d STATE_BL_ARMED else d,
              entries) /\
    entries = (buflist_entry <$> l) ++ [(0, 0)] /\
    length entries = S (Z.to_nat (bufcount d)) /\
    last entries = Some (0, 0).
Proof.
  intros Hl Hlen Hall. eexists.
  split; [apply submit_run; eassumption|]. split; [reflexivity|]. split.
  - rewrite length_app, length_fmap, Hlen. simpl. lia.
  - apply last_snoc.
Qed.

(** The example ring submitted: two descriptors and the terminator. *)
Lemma submit_writes_terminated_table_witness :
  exists entries,
    beaglelogic_map_and_submit_all_buffers
      (example_dev BL_TRIGGERFLAGS_ONESHOT STATE_BL_MEMALLOCD false
         STATE_BL_BUF_MAPPED STATE_BL_BUF_MAPPED)
      = Done (0,
              example_dev BL_TRIGGERFLAGS_ONESHOT STATE_BL_ARMED false
                STATE_BL_BUF_MAPPED STATE_BL_BUF_MAPPED,
              entries) /\
    entries = [(2415919104, 2415923200); (2415923200, 2415927296); (0, 0)] /\
    length entries = 3%nat /\
    last entries = Some (0, 0).
Proof.
  apply (submit_writes_terminated_table
           (example_dev BL_TRIGGERFLAGS_ONESHOT STATE_BL_MEMALLOCD false
              STATE_BL_BUF_MAPPED STATE_BL_BUF_MAPPED)
           (example_ring STATE_BL_BUF_MAPPED STATE_BL_BUF_MAPPED)).
  - reflexivity.
  - reflexivity.
  - intros [|[|k]] b; simpl; intros Hb; try discriminate;
      injection Hb as <-; left; reflexivity.
Defined.

(** X5: when buffer [k] is the first that cannot be mapped (not Mapped
    and without a DMA address), [beaglelogic_map_and_submit_all_buffers]
    returns 1, writes no descriptor, puts the device in Error, and leaves
    the buffers before [k] Unmapped and the others as they were. *)
Theorem submit_failure_marks_error (d : beaglelogicdev)
    (l : list logic_buffer) (k : nat) (bk : logic_buffer) :
  buffers d = Some l -> Z.to_nat (bufcount d) = length l ->
  l !! k = Some bk -> ~ mappable bk ->
  (forall j b, (j < k)%nat -> l !! j = Some b -> mappable b) ->
  exists d' l',
    beaglelogic_map_and_submit_all_buffers d = Done (1, d', []) /\
    state d' = STATE_BL_ERROR /\ mutex d' = mutex d /\
    buffers d' = Some l' /\ length l' = length l /\
    forall j b, l !! j = Some b ->
      l' !! j = Some (if (j <? k)%nat
                      then set_buf_state b STATE_BL_BUF_UNMAPPED else b).
Proof.
  intros Hl Hlen Hk Hbad Hall.
  assert (Hlt : (k < length l)%nat) by (eapply lookup_lt_Some; exact Hk).
  destruct (unmap_loop_run k 0 d l Hl) as (l' & Hun & Hlen' & Hl'); [lia|].
  exists (set_state (set_buffers d (Some l')) STATE_BL_ERROR), l'.
  split; [|split; [reflexivity|split; [reflexivity|split; [reflexivity|split]]]].
  - unfold beaglelogic_map_and_submit_all_buffers. cbn zeta. rewrite Hlen.
    rewrite (map_all_loop_stops d l k bk Hl Hk Hbad (length l) 0);
      [|lia|intros j b Hj; apply Hall; lia].
    cbn [obind]. rewrite Hun. reflexivity.
  - exact Hlen'.
  - intros j b Hb. rewrite (Hl' j b Hb). reflexivity.
Qed.

(** The ring whose second buffer has no DMA address. *)
Lemma submit_failure_marks_error_witness :
  exists d' l',
    beaglelogic_map_and_submit_all_buffers unbacked_dev = Done (1, d', []) /\
    state d' = STATE_BL_ERROR /\ mutex d' = false /\
    buffers d' = Some l' /\ length l' = 2%nat /\
    forall j b, unbacked_ring !! j = Some b ->
      l' !! j = Some (if (j <? 1)%nat
                      then set_buf_state b STATE_BL_BUF_UNMAPPED else b).
Proof.
  apply (submit_failure_marks_error unbacked_dev unbacked_ring 1
           (mk_logic_buffer 3221229568 0 4096 STATE_BL_BUF_UNMAPPED 1
              (Some 0%nat))).
  - reflexivity.
  - reflexivity.
  - reflexivity.
  - intros [H|H]; [discriminate H|apply H; reflexivity].
  - intros [|j] b Hj; [|lia]. simpl. intros Hb. injection Hb as <-.
    left. reflexivity.
Defined.


(** ** The test pattern *)

Lemma wrap32_add_l (a b : Z) : wrap32 (wrap32 a + b) = wrap32 (a + b).
Proof. unfold wrap32. apply Zplus_mod_idemp_l. Qed.

(** The words stored by the inner loop count up from the counter, modulo
    2^32. *)
Lemma fill_words_counts (n : nat) :
  forall cnt : Z,
    0 <= cnt < 2 ^ 32 ->
    fill_words n cnt
      = ((fun k => wrap32 (cnt + Z.of_nat k)) <$> seq 0 n,
         wrap32 (cnt + Z.of_nat n)).
Proof.
  induction n as [|n IH]; intros cnt Hc.
  - cbn [fill_words seq fmap list_fmap]. rewrite Z.add_0_r, wrap32_small by lia.
    reflexivity.
  - cbn [fill_words]. rewrite IH by apply wrap32_range.
    cbn [seq fmap list_fmap]. rewrite Z.add_0_r, (wrap32_small cnt) by lia.
    f_equal.
    + f_equal. rewrite <- fmap_S_seq, <- list_fmap_compose.
      apply list_fmap_ext. intros _ k _. cbn. rewrite wrap32_add_l.
      f_equal. lia.
    + rewrite wrap32_add_l. f_equal. lia.
Qed.

(** Counting over two runs of words in a row. *)
Lemma fmap_seq_split (cnt : Z) (w t : nat) :
  (fun k => wrap32 (cnt + Z.of_nat k)) <$> seq 0 (w + t)
  = ((fun k => wrap32 (cnt + Z.of_nat k)) <$> seq 0 w)
    ++ ((fun k => wrap32 (wrap32 (cnt + Z.of_nat w) + Z.of_nat k)) <$> seq 0 t).
Proof.
  rewrite seq_app, fmap_app. f_equal.
  replace (seq (0 + w) t) with (Nat.add w <$> seq 0 t)
    by (rewrite fmap_add_seq; f_equal; lia).
  rewrite <- list_fmap_compose.
  apply list_fmap_ext. intros _ k _. cbn. rewrite wrap32_add_l.
  f_equal. lia.
Qed.

Lemma testpattern_loop_counts (d : beaglelogicdev) (l : list logic_buffer) :
  buffers d = Some l ->
  (forall k b, l !! k = Some b -> buf b <> 0) ->
  forall (n i : nat) (cnt : Z),
    (i + n <= length l)%nat -> 0 <= cnt < 2 ^ 32 ->
    exists stored,
      testpattern_loop n i d cnt = Done stored /\
      fst <$> stored = buf <$> take n (drop i l) /\
      (length ∘ snd) <$> stored = buffer_words <$> take n (drop i l) /\
      concat (snd <$> stored)
        = (fun k => wrap32 (cnt + Z.of_nat k))
            <$> seq 0 (sum_list (buffer_words <$> take n (drop i l))).
Proof.
  intros Hl Hbuf. induction n as [|n IH]; intros i cnt Hlen Hc.
  - exists []. repeat split; reflexivity.
  - destruct (lookup_lt_is_Some_2 l i) as [b Hb]; [lia|].
    cbn [testpattern_loop]. rewrite (deref_lookup d l i b Hl Hb). cbn [obind].
    rewrite (fill_words_counts _ cnt Hc).
    replace (buf b =? 0) with false
      by (symmetry; apply Z.eqb_neq; eapply Hbuf; exact Hb).
    cbn [andb]. fold (buffer_words b).
    destruct (IH (S i) (wrap32 (cnt + Z.of_nat (buffer_words b))))
      as (rest & Hrest & Hfst & Hlens & Hcat); [lia|apply wrap32_range|].
    rewrite Hrest. cbn [obind]. eexists. split; [reflexivity|].
    rewrite (drop_S l b i Hb). cbn [take fmap list_fmap fst snd concat sum_list].
    split; [f_equal; exact Hfst|]. split.
    + f_equal; [|exact Hlens]. cbn. rewrite length_fmap, length_seq. reflexivity.
    + unfold id. rewrite Hcat, fmap_seq_split. reflexivity.
Qed.

(** X6: [beaglelogic_fill_buffer_testpattern], on a device whose lock is
    free and whose buffers all have a kernel address, stores in each buffer
    as many 32-bit words as it holds ([size / 4]), and the words of all
    buffers read one after the other in ring order are 0, 1, 2, ... (modulo
    2^32): the count goes on from one buffer to the next.  The device is
    left as it was, with the lock free. *)
Theorem testpattern_counts_across_buffers (irqs : list Z)
    (d : beaglelogicdev) (l : list logic_buffer) :
  mutex d = false -> buffers d = Some l ->
  Z.to_nat (bufcount d) = length l ->
  (forall k b, l !! k = Some b -> buf b <> 0) ->
  exists stored,
    beaglelogic_fill_buffer_testpattern irqs d = Done (d, stored) /\
    fst <$> stored = buf <$> l /\
    (length ∘ snd) <$> stored = buffer_words <$> l /\
    concat (snd <$> stored)
      = (fun k => wrap32 (Z.of_nat k))
          <$> seq 0 (sum_list (buffer_words <$> l)).
Proof.
  intros Hm Hl Hlen Hbuf.
  destruct (testpattern_loop_counts (set_mutex d true) l Hl Hbuf (length l) 0 0)
    as (stored & Hrun & Hfst & Hlens & Hcat); [lia|lia|].
  rewrite drop_0, firstn_all in *.
  exists stored. split; [|auto].
  unfold beaglelogic_fill_buffer_testpattern.
  rewrite (mutex_lock_free irqs d Hm). cbn [obind bufcount set_mutex].
  rewrite Hlen, Hrun. cbn [obind].
  rewrite (trylock_unlock_free d Hm). reflexivity.
Qed.

(** The example ring: 1024 words in each of its two buffers. *)
Lemma testpattern_counts_across_buffers_witness :
  exists stored,
    beaglelogic_fill_buffer_testpattern []
      (example_dev BL_TRIGGERFLAGS_ONESHOT STATE_BL_ARMED false
         STATE_BL_BUF_MAPPED STATE_BL_BUF_MAPPED)
      = Done (example_dev BL_TRIGGERFLAGS_ONESHOT STATE_BL_ARMED false
                STATE_BL_BUF_MAPPED STATE_BL_BUF_MAPPED, stored) /\
    fst <$> stored = [3221225472; 3221229568] /\
    (length ∘ snd) <$> stored = [1024%nat; 1024%nat] /\
    concat (snd <$> stored)
      = (fun k => wrap32 (Z.of_nat k)) <$> seq 0 2048.
Proof.
  apply (testpattern_counts_across_buffers []
           (example_dev BL_TRIGGERFLAGS_ONESHOT STATE_BL_ARMED false
              STATE_BL_BUF_MAPPED STATE_BL_BUF_MAPPED)
           (example_ring STATE_BL_BUF_MAPPED STATE_BL_BUF_MAPPED)).
  - reflexivity.
  - reflexivity.
  - reflexivity.
  - intros [|[|k]] b; simpl; intros Hb; try discriminate;
      injection Hb as <-; discriminate.
Defined.


(** ** ioctl *)

(** The branch of the switch taken for each command. *)
Lemma ioctl_set_bufunit_size (E : environment) (A : allocator) (arg : Z)
    (r : logic_buffer_reader) (d : beaglelogicdev) (heap : list dma_region) :
  beaglelogic_f_ioctl E A IOCTL_BL_SET_BUFUNIT_SIZE arg r d heap =
    if wrap32 arg <? 32 then Done (io_plain (- EINVAL) r d heap)
    else
      do (d2, heap2) <-
        beaglelogic_memfree (lock_irqs E)
          (set_bufunitsize d (round_up (wrap32 arg) 32)) heap;
      Done (io_plain 0 r d2 heap2).
Proof. reflexivity. Qed.

Lemma ioctl_set_buffer_size (E : environment) (A : allocator) (arg : Z)
    (r : logic_buffer_reader) (d : beaglelogicdev) (heap : list dma_region) :
  beaglelogic_f_ioctl E A IOCTL_BL_SET_BUFFER_SIZE arg r d heap =
    do (d1, heap1) <- beaglelogic_memfree (lock_irqs E) d heap;
    do (ret, d2, heap2) <- beaglelogic_memalloc A d1 (wrap32 arg) heap1;
    if wrap32 ret =? 0 then
      do (ret', d3, entries) <- beaglelogic_map_and_submit_all_buffers d2;
      Done (mk_ioctl_result ret' None r d3 heap2 (Some entries) [])
    else Done (io_plain (to_int32 ret) r d2 heap2).
Proof. reflexivity. Qed.

Lemma ioctl_get_buffer_size (E : environment) (A : allocator) (arg : Z)
    (r : logic_buffer_reader) (d : beaglelogicdev) (heap : list dma_region) :
  beaglelogic_f_ioctl E A IOCTL_BL_GET_BUFFER_SIZE arg r d heap =
    Done (io_copy_to_user E (wrap32 (bufunitsize d * bufcount d)) r d heap).
Proof. reflexivity. Qed.

Lemma ioctl_set_sample_rate (E : environment) (A : allocator) (arg : Z)
    (r : logic_buffer_reader) (d : beaglelogicdev) (heap : list dma_region) :
  beaglelogic_f_ioctl E A IOCTL_BL_SET_SAMPLE_RATE arg r d heap =
    let '(ret, d1) := beaglelogic_set_samplerate d (wrap32 arg) in
    Done (io_plain (if negb (ret =? 0) then - EFAULT else 0) r d1 heap).
Proof. reflexivity. Qed.

Lemma ioctl_cache_invalidate (E : environment) (A : allocator) (arg : Z)
    (r : logic_buffer_reader) (d : beaglelogicdev) (heap : list dma_region) :
  beaglelogic_f_ioctl E A IOCTL_BL_CACHE_INVALIDATE arg r d heap =
    do d1 <- unmap_loop (Z.to_nat (bufcount d)) 0 d;
    Done (io_plain 0 r d1 heap).
Proof. reflexivity. Qed.

Lemma ioctl_start (E : environment) (A : allocator) (arg : Z)
    (r : logic_buffer_reader) (d : beaglelogicdev) (heap : list dma_region) :
  beaglelogic_f_ioctl E A IOCTL_BL_START arg r d heap =
    do b <- deref d (buffers_ptr d);
    do (_, d1) <- beaglelogic_start E d;
    Done (io_plain 0 (mk_reader (buffers_ptr d) 0 (wrap32 (size b))) d1 heap).
Proof. reflexivity. Qed.

Lemma ioctl_stop (E : environment) (A : allocator) (arg : Z)
    (r : logic_buffer_reader) (d : beaglelogicdev) (heap : list dma_region) :
  beaglelogic_f_ioctl E A IOCTL_BL_STOP arg r d heap =
    do d1 <- beaglelogic_stop E d;
    Done (io_plain 0 r d1 heap).
Proof. reflexivity. Qed.

(** [beaglelogic_memfree] on a device whose lock is free and whose ring owns
    its regions. *)
Lemma memfree_owned (irqs : list Z) (d : beaglelogicdev)
    (heap base : list dma_region) :
  mutex d = false -> ring_owned d heap base ->
  exists heap',
    beaglelogic_memfree irqs d heap = Done (without_ring d, heap') /\
    heap' ≡ₚ base.
Proof.
  unfold ring_owned, without_ring. intros Hm Hown.
  destruct (buffers d) as [l|] eqn:Hl.
  - destruct Hown as [Hlen Hheap]. exists (release_loop l heap).
    split; [apply memfree_run; assumption|].
    apply release_loop_perm. exact Hheap.
  - exists heap. split; [apply memfree_nothing; assumption|exact Hown].
Qed.

Lemma without_ring_fields (d : beaglelogicdev) :
  buffers (without_ring d) = None /\ mutex (without_ring d) = mutex d /\
  state (without_ring d) = state d /\
  bufunitsize (without_ring d) = bufunitsize d /\
  maxbufcount (without_ring d) = maxbufcount d.
Proof.
  unfold without_ring. destruct (buffers d) eqn:Hl; auto 10.
Qed.

(** [round_up(x, 32)] is the least multiple of 32 that is at least [x], as
    long as that fits in 32 bits. *)
Lemma lor_31 (a : Z) : Z.lor a 31 = a + 31 - a mod 32.
Proof.
  pose proof (Z.add_lor_land a 31) as H.
  change 31 with (Z.ones 5) in H at 2. rewrite Z.land_ones in H by lia.
  change (2 ^ 5) with 32 in H. lia.
Qed.

Lemma round_up_32 (x : Z) :
  1 <= x <= 2 ^ 32 - 32 ->
  round_up x 32 mod 32 = 0 /\ x <= round_up x 32 < x + 32.
Proof.
  intros Hx. unfold round_up. change (32 - 1) with 31. rewrite lor_31.
  pose proof (Z.div_mod (x - 1) 32 ltac:(lia)) as Hdm.
  pose proof (Z.mod_pos_bound (x - 1) 32 ltac:(lia)) as Hr.
  assert (Hv : x - 1 + 31 - (x - 1) mod 32 + 1 = 32 * ((x - 1) / 32 + 1)) by lia.
  rewrite Hv. rewrite wrap32_small by lia.
  split; [|lia].
  rewrite Z.mul_comm. apply Z_mod_mult.
Qed.

Lemma round_up_32_wraps (x : Z) :
  2 ^ 32 - 32 < x < 2 ^ 32 -> round_up x 32 = 0.
Proof.
  intros Hx. unfold round_up. change (32 - 1) with 31. rewrite lor_31.
  pose proof (Z.div_mod (x - 1) 32 ltac:(lia)) as Hdm.
  pose proof (Z.mod_pos_bound (x - 1) 32 ltac:(lia)) as Hr.
  assert (Hv : x - 1 + 31 - (x - 1) mod 32 + 1 = 2 ^ 32) by lia.
  rewrite Hv. reflexivity.
Qed.

(** X7: setting the buffer unit size, through [IOCTL_BL_SET_BUFUNIT_SIZE]
    or through the sysfs attribute [bufunitsize], with a value between 32
    and 2^32 - 32: the call succeeds, the unit stored is the least
    multiple of 32 that is at least the value asked for, and the ring the
    device had is freed (its regions are back on the heap, [buffers] is
    NULL), so that a new buffer size has to be set before the next
    capture. *)
Theorem set_bufunit_size_rounds_up (E : environment) (A : allocator)
    (arg count : Z) (r : logic_buffer_reader) (d : beaglelogicdev)
    (heap base : list dma_region) :
  mutex d = false -> ring_owned d heap base -> 32 <= arg <= 2 ^ 32 - 32 ->
  exists u heap',
    beaglelogic_f_ioctl E A IOCTL_BL_SET_BUFUNIT_SIZE arg r d heap
      = Done (io_plain 0 r (without_ring (set_bufunitsize d u)) heap') /\
    bl_bufunitsize_store (lock_irqs E) (Some arg) count d heap
      = Done (count, without_ring (set_bufunitsize d u), heap') /\
    u mod 32 = 0 /\ arg <= u < arg + 32 /\
    heap' ≡ₚ base /\
    buffers (without_ring (set_bufunitsize d u)) = None /\
    bufunitsize (without_ring (set_bufunitsize d u)) = u.
Proof.
  intros Hm Hown Harg.
  destruct (round_up_32 arg ltac:(lia)) as [Hmod Hrange].
  destruct (memfree_owned (lock_irqs E) (set_bufunitsize d (round_up arg 32))
              heap base) as (heap' & Hfree & Hperm);
    [exact Hm|exact Hown|].
  exists (round_up arg 32), heap'.
  split; [|split; [|split; [exact Hmod|split; [exact Hrange|split; [exact Hperm|]]]]].
  - rewrite ioctl_set_bufunit_size, (wrap32_small arg) by lia.
    destruct (Z.ltb_spec arg 32) as [|_]; [lia|].
    rewrite Hfree. reflexivity.
  - unfold bl_bufunitsize_store.
    destruct (Z.ltb_spec arg 32) as [|_]; [lia|].
    cbn zeta. rewrite Hfree. reflexivity.
  - destruct (without_ring_fields (set_bufunitsize d (round_up arg 32)))
      as (Hb & _ & _ & Hu & _).
    split; [exact Hb|exact Hu].
Qed.

(** A unit of 1000 bytes asked for on the probed device: 1024 is stored. *)
Lemma set_bufunit_size_rounds_up_witness :
  exists u heap',
    beaglelogic_f_ioctl quiet_env good_allocator IOCTL_BL_SET_BUFUNIT_SIZE
      1000 (mk_reader None 0 0) probed_dev []
      = Done (io_plain 0 (mk_reader None 0 0)
                (without_ring (set_bufunitsize probed_dev u)) heap') /\
    bl_bufunitsize_store (lock_irqs quiet_env) (Some 1000) 5 probed_dev []
      = Done (5, without_ring (set_bufunitsize probed_dev u), heap') /\
    u mod 32 = 0 /\ 1000 <= u < 1000 + 32 /\
    heap' ≡ₚ [] /\
    buffers (without_ring (set_bufunitsize probed_dev u)) = None /\
    bufunitsize (without_ring (set_bufunitsize probed_dev u)) = u.
Proof.
  apply (set_bufunit_size_rounds_up quiet_env good_allocator 1000 5
           (mk_reader None 0 0) probed_dev [] []).
  - reflexivity.
  - unfold ring_owned. cbn. reflexivity.
  - lia.
Defined.

(** X8: [IOCTL_BL_SET_BUFUNIT_SIZE] with a value above 2^32 - 32 passes
    the lower-bound check, and [round_up] wraps around: the call returns 0
    and stores a unit size of 0.  Every [IOCTL_BL_SET_BUFFER_SIZE] after
    that divides by zero in [beaglelogic_memalloc]. *)
Theorem bufunit_size_wraps_to_zero (E : environment) (A : allocator)
    (arg : Z) (r : logic_buffer_reader) (d : beaglelogicdev)
    (heap base : list dma_region) :
  mutex d = false -> ring_owned d heap base ->
  2 ^ 32 - 32 < arg < 2 ^ 32 ->
  exists res,
    beaglelogic_f_ioctl E A IOCTL_BL_SET_BUFUNIT_SIZE arg r d heap = Done res /\
    io_ret res = 0 /\ bufunitsize (io_dev res) = 0 /\
    forall (E' : environment) (A' : allocator) (B : Z),
      beaglelogic_f_ioctl E' A' IOCTL_BL_SET_BUFFER_SIZE B
        (io_reader res) (io_dev res) (io_heap res) = Fault.
Proof.
  intros Hm Hown Harg.
  destruct (memfree_owned (lock_irqs E) (set_bufunitsize d 0) heap base)
    as (heap' & Hfree & Hperm); [exact Hm|exact Hown|].
  eexists. split; [|split; [|split]].
  - rewrite ioctl_set_bufunit_size, (wrap32_small arg) by lia.
    destruct (Z.ltb_spec arg 32) as [|_]; [lia|].
    rewrite (round_up_32_wraps arg Harg), Hfree. reflexivity.
  - reflexivity.
  - cbn [io_dev io_plain].
    destruct (without_ring_fields (set_bufunitsize d 0)) as (_ & _ & _ & Hu & _).
    exact Hu.
  - intros E' A' B. cbn [io_dev io_plain io_reader io_heap].
    destruct (without_ring_fields (set_bufunitsize d 0))
      as (Hb & Hm' & _ & Hu & _).
    rewrite ioctl_set_buffer_size.
    rewrite memfree_nothing by (try exact Hb; rewrite Hm'; exact Hm).
    cbn [obind]. unfold beaglelogic_memalloc, mutex_trylock.
    rewrite Hm'. cbn [mutex set_bufunitsize]. rewrite Hm. cbn [negb].
    cbn [bufunitsize set_mutex]. rewrite Hu. reflexivity.
Qed.

(** The largest argument, on the probed device. *)
Lemma bufunit_size_wraps_to_zero_witness :
  exists res,
    beaglelogic_f_ioctl quiet_env good_allocator IOCTL_BL_SET_BUFUNIT_SIZE
      4294967295 (mk_reader None 0 0) probed_dev [] = Done res /\
    io_ret res = 0 /\ bufunitsize (io_dev res) = 0 /\
    forall (E' : environment) (A' : allocator) (B : Z),
      beaglelogic_f_ioctl E' A' IOCTL_BL_SET_BUFFER_SIZE B
        (io_reader res) (io_dev res) (io_heap res) = Fault.
Proof.
  apply (bufunit_size_wraps_to_zero quiet_env good_allocator 4294967295
           (mk_reader None 0 0) probed_dev [] []).
  - reflexivity.
  - unfold ring_owned. cbn. reflexivity.
  - lia.
Defined.


(** After an allocation that returned 0 the new ring owns its regions. *)
Lemma memalloc_ring_owned (A : allocator) (d d' : beaglelogicdev) (B : Z)
    (heap heap' : list dma_region) :
  maxbufcount d < 2 ^ 31 ->
  beaglelogic_memalloc A d B heap = Done (0, d', heap') ->
  ring_owned d' heap' heap.
Proof.
  intros Hcap Hrun.
  destruct (memalloc_returns_0 A d d' B heap heap' Hrun)
    as (Hm & HU & Hmax & Hkz & l & Hloop & ->).
  pose proof (count_range B (bufunitsize d) HU) as Hc.
  set (c := Z.max (DIV_ROUND_UP B (bufunitsize d)) 2) in *.
  rewrite (wrap32_to_int32 c) in * by lia.
  rewrite (to_int32_small c) in Hloop by lia.
  destruct (memalloc_loop_true _ _ _ _ _ _ _ _ _ Hloop)
    as (Hlen & _); [rewrite length_replicate; lia|].
  rewrite length_replicate in Hlen.
  unfold ring_owned. cbn [buffers set_buffers bufcount set_bufcount].
  split; [lia|].
  eapply memalloc_loop_heap; [exact Hloop| | |].
  - rewrite length_replicate. lia.
  - intros i Hi. rewrite length_replicate in Hi.
    apply lookup_replicate_2. lia.
  - rewrite regions_of_zero. reflexivity.
Qed.

Lemma ring_owned_perm (d : beaglelogicdev) (heap base base' : list dma_region) :
  base ≡ₚ base' -> ring_owned d heap base -> ring_owned d heap base'.
Proof.
  unfold ring_owned. intros Hp. destruct (buffers d).
  - intros [Hlen Hheap]. split; [exact Hlen|]. rewrite Hheap, Hp. reflexivity.
  - intros Hheap. rewrite Hheap. exact Hp.
Qed.

Lemma ceil_div_covers (b u : Z) : 0 < u -> b <= ceil_div b u * u.
Proof.
  intros Hu. unfold ceil_div.
  pose proof (Z.div_mod (- b) u ltac:(lia)) as Hdm.
  pose proof (Z.mod_pos_bound (- b) u Hu) as Hr. nia.
Qed.

(** X9: setting and reading back the buffer size through ioctl.  With
    the lock free, a request of [B] bytes that does not wrap around in
    [DIV_ROUND_UP], a count [c = max (ceil (B / U)) 2] within the advertised
    capacity and allocations that succeed, [IOCTL_BL_SET_BUFFER_SIZE]
    returns 0: the old ring is freed, a ring of [c] buffers is allocated
    and submitted, the device is Armed with the lock free, and the heap
    holds exactly the new ring on top of what it held without the old one.
    [IOCTL_BL_GET_BUFFER_SIZE] then reports [c * U] bytes, which is at
    least the [B] asked for. *)
Theorem set_then_get_buffer_size (E : environment) (A : allocator) (B : Z)
    (r : logic_buffer_reader) (d : beaglelogicdev)
    (heap base : list dma_region) :
  let U := bufunitsize d in
  let c := Z.max (ceil_div B U) 2 in
  mutex d = false -> ring_owned d heap base ->
  0 <= B -> 0 < U -> B + U - 1 < 2 ^ 32 ->
  c <= maxbufcount d -> maxbufcount d < 2 ^ 31 -> c * U < 2 ^ 32 ->
  kzalloc_ok A = true ->
  (forall k, (k < Z.to_nat c)%nat -> fst (dma_alloc_coherent A k) <> 0) ->
  copy_fails E = false ->
  exists res res',
    beaglelogic_f_ioctl E A IOCTL_BL_SET_BUFFER_SIZE B r d heap = Done res /\
    io_ret res = 0 /\
    state (io_dev res) = STATE_BL_ARMED /\ mutex (io_dev res) = false /\
    bufcount (io_dev res) = c /\
    ring_owned (io_dev res) (io_heap res) base /\
    beaglelogic_f_ioctl E A IOCTL_BL_GET_BUFFER_SIZE 0
      (io_reader res) (io_dev res) (io_heap res) = Done res' /\
    io_ret res' = 0 /\ io_user res' = Some (c * U) /\ B <= c * U.
Proof.
  intros U c Hm Hown HB HU Hfit Hmax Hcap Hprod Hkz Hdma Hcopy.
  destruct (memfree_owned (lock_irqs E) d heap base Hm Hown)
    as (heap1 & Hfree & Hperm1).
  destruct (without_ring_fields d) as (Hb1 & Hm1 & Hs1 & Hu1 & Hmax1).
  set (d1 := without_ring d) in *.
  destruct (memalloc_count_without_wrap A d1 B heap1) as [_ Hok];
    [exact HB|rewrite Hu1; exact HU|rewrite Hu1; exact Hfit
    |rewrite Hm1; exact Hm|rewrite Hmax1; exact Hcap|].
  rewrite Hu1, Hmax1 in Hok. fold U c in Hok.
  destruct (Hok Hmax Hkz Hdma) as (l & heap2 & Halloc & Hlen & _ & Hall).
  set (d2 := set_buffers (set_bufcount d1 c) (Some l)) in *.
  assert (Hown2 : ring_owned d2 heap2 heap1).
  { eapply memalloc_ring_owned; [|exact Halloc]. rewrite Hmax1. exact Hcap. }
  assert (Hsub : beaglelogic_map_and_submit_all_buffers d2
                 = Done (0, set_state d2 STATE_BL_ARMED,
                         (buflist_entry <$> l) ++ [(0, 0)])).
  { rewrite (submit_run d2 l); [| reflexivity | |].
    - replace (bufcount d2 =? 0) with false; [reflexivity|].
      symmetry. apply Z.eqb_neq. cbn. lia.
    - cbn [d2 bufcount set_buffers set_bufcount]. lia.
    - intros k b Hb. destruct (Hall k) as (b' & Hb' & _ & Hst).
      + apply lookup_lt_Some in Hb. lia.
      + rewrite Hb in Hb'. injection Hb' as <-. left. exact Hst. }
  eexists. eexists. split.
  { rewrite ioctl_set_buffer_size, Hfree. cbn [obind].
    rewrite (wrap32_small B) by lia. rewrite Halloc. cbn [obind].
    change (wrap32 0 =? 0) with true. cbv iota.
    fold d2. rewrite Hsub. cbn [obind]. reflexivity. }
  cbn [io_ret io_dev io_heap io_reader].
  split; [reflexivity|]. split; [reflexivity|].
  split; [change (mutex d1 = false); rewrite Hm1; exact Hm|].
  split; [reflexivity|].
  split.
  { eapply ring_owned_perm; [exact Hperm1|]. exact Hown2. }
  split.
  { rewrite ioctl_get_buffer_size. unfold io_copy_to_user. rewrite Hcopy.
    reflexivity. }
  cbn [io_ret io_user].
  split; [reflexivity|]. split.
  - f_equal. cbn [bufunitsize bufcount set_state d2 set_buffers set_bufcount].
    rewrite Hu1. fold U. rewrite wrap32_small by lia. lia.
  - pose proof (ceil_div_covers B U HU). nia.
Qed.

(** 12 MiB asked for on the probed device: three buffers of 4 MiB. *)
Lemma set_then_get_buffer_size_witness :
  exists res res',
    beaglelogic_f_ioctl quiet_env good_allocator IOCTL_BL_SET_BUFFER_SIZE
      12582912 (mk_reader None 0 0) probed_dev [] = Done res /\
    io_ret res = 0 /\
    state (io_dev res) = STATE_BL_ARMED /\ mutex (io_dev res) = false /\
    bufcount (io_dev res) = 3 /\
    ring_owned (io_dev res) (io_heap res) [] /\
    beaglelogic_f_ioctl quiet_env good_allocator IOCTL_BL_GET_BUFFER_SIZE 0
      (io_reader res) (io_dev res) (io_heap res) = Done res' /\
    io_ret res' = 0 /\ io_user res' = Some 12582912 /\ 12582912 <= 12582912.
Proof.
  apply (set_then_get_buffer_size quiet_env good_allocator 12582912
           (mk_reader None 0 0) probed_dev [] []).
  - reflexivity.
  - unfold ring_owned. cbn. reflexivity.
  - lia.
  - vm_compute. reflexivity.
  - vm_compute. reflexivity.
  - vm_compute. discriminate.
  - vm_compute. reflexivity.
  - vm_compute. reflexivity.
  - reflexivity.
  - intros k _. cbn. lia.
  - reflexivity.
Defined.

(** X10: how a sample rate is refused, by interface.  A rate within
    [1, F/2] set while the lock is free is accepted by the ioctl (0) and by
    the sysfs attribute (the byte count), and both store the realized
    rate.  A rate out of range, or any rate while the lock is held, changes
    nothing and is reported as -EFAULT by the ioctl and as -EINVAL by the
    sysfs attribute; -EBUSY is never passed on. *)
Theorem samplerate_refusals_by_interface (E : environment) (A : allocator)
    (arg count : Z) (r : logic_buffer_reader) (d : beaglelogicdev)
    (heap : list dma_region) :
  let H := coreclockfreq d / 2 in
  0 <= arg < 2 ^ 32 ->
  (1 <= arg <= H -> mutex d = false ->
   beaglelogic_f_ioctl E A IOCTL_BL_SET_SAMPLE_RATE arg r d heap
     = Done (io_plain 0 r (set_samplerate d (H / (H / arg))) heap) /\
   bl_samplerate_store (Some arg) count d
     = (count, set_samplerate d (H / (H / arg)))) /\
  (arg < 1 \/ H < arg \/ mutex d = true ->
   beaglelogic_f_ioctl E A IOCTL_BL_SET_SAMPLE_RATE arg r d heap
     = Done (io_plain (- EFAULT) r d heap) /\
   bl_samplerate_store (Some arg) count d = (- EINVAL, d)).
Proof.
  intros H Harg. split.
  - intros Hr Hm. rewrite ioctl_set_sample_rate. unfold bl_samplerate_store.
    rewrite (wrap32_small arg) by lia.
    rewrite (set_samplerate_accepted d arg Hr Hm). split; reflexivity.
  - intros Hbad. rewrite ioctl_set_sample_rate. unfold bl_samplerate_store.
    rewrite (wrap32_small arg) by lia.
    assert (Hset : beaglelogic_set_samplerate d arg = (- EINVAL, d) \/
                   beaglelogic_set_samplerate d arg = (- EBUSY, d)).
    { destruct (Z.lt_ge_cases arg 1) as [|H1];
        [left; apply set_samplerate_rejected; lia|].
      destruct (Z.lt_ge_cases H arg) as [|H2];
        [left; apply set_samplerate_rejected; right; assumption|].
      destruct Hbad as [|[|Hm]]; [lia|lia|].
      right. apply set_samplerate_busy; [split; assumption|exact Hm]. }
    destruct Hset as [-> | ->]; split; reflexivity.
Qed.

(** 30 MHz and 100000001 Hz asked for on the probed device. *)
Lemma samplerate_refusals_by_interface_witness :
  (beaglelogic_f_ioctl quiet_env good_allocator IOCTL_BL_SET_SAMPLE_RATE
     30000000 (mk_reader None 0 0) probed_dev []
     = Done (io_plain 0 (mk_reader None 0 0)
               (set_samplerate probed_dev 33333333) []) /\
   bl_samplerate_store (Some 30000000) 9 probed_dev
     = (9, set_samplerate probed_dev 33333333)) /\
  (beaglelogic_f_ioctl quiet_env good_allocator IOCTL_BL_SET_SAMPLE_RATE
     100000001 (mk_reader None 0 0) probed_dev []
     = Done (io_plain (- EFAULT) (mk_reader None 0 0) probed_dev []) /\
   bl_samplerate_store (Some 100000001) 10 probed_dev = (- EINVAL, probed_dev)).
Proof.
  destruct (samplerate_refusals_by_interface quiet_env good_allocator
              30000000 9 (mk_reader None 0 0) probed_dev [] ltac:(lia))
    as [Hok _].
  destruct (samplerate_refusals_by_interface quiet_env good_allocator
              100000001 10 (mk_reader None 0 0) probed_dev [] ltac:(lia))
    as [_ Hbad].
  split.
  - apply Hok; [vm_compute; split; discriminate|reflexivity].
  - apply Hbad. right. left. vm_compute. reflexivity.
Defined.

(** X11: [IOCTL_BL_CACHE_INVALIDATE] marks every buffer of the ring
    Unmapped and changes nothing else; afterwards poll reports every
    reader that is on a buffer of the ring as readable, whether or not the
    buffer has been filled. *)
Theorem cache_invalidate_unmaps_all (E : environment) (A : allocator)
    (arg : Z) (r : logic_buffer_reader) (d : beaglelogicdev)
    (heap : list dma_region) (l : list logic_buffer) :
  buffers d = Some l -> Z.to_nat (bufcount d) = length l ->
  let d' := set_buffers d
              (Some ((fun b => set_buf_state b STATE_BL_BUF_UNMAPPED) <$> l)) in
  beaglelogic_f_ioctl E A IOCTL_BL_CACHE_INVALIDATE arg r d heap
    = Done (io_plain 0 r d' heap) /\
  forall (r' : logic_buffer_reader) (p : nat),
    rd_buf r' = Some p -> (p < length l)%nat ->
    beaglelogic_f_poll r' d' = Done (Z.lor POLLIN POLLRDNORM).
Proof.
  intros Hl Hlen d'.
  destruct (unmap_loop_run (length l) 0 d l Hl) as (l' & Hrun & Hlen' & Hall);
    [lia|].
  assert (Hl' : l' = (fun b => set_buf_state b STATE_BL_BUF_UNMAPPED) <$> l).
  { apply list_eq. intros k. rewrite list_lookup_fmap.
    destruct (l !! k) as [b|] eqn:Hb.
    - rewrite (Hall k b Hb). apply lookup_lt_Some in Hb.
      destruct (Nat.leb_spec 0 k), (Nat.ltb_spec k (0 + length l));
        try lia; reflexivity.
    - apply lookup_ge_None_2. apply lookup_ge_None_1 in Hb. lia. }
  split.
  - rewrite ioctl_cache_invalidate, Hlen, Hrun. cbn [obind].
    rewrite Hl'. reflexivity.
  - intros r' p Hp Hlt. unfold beaglelogic_f_poll. rewrite Hp.
    cbn [ptr_eqb andb].
    destruct (lookup_lt_is_Some_2 l p Hlt) as [b Hb].
    rewrite (deref_lookup d'
               ((fun b => set_buf_state b STATE_BL_BUF_UNMAPPED) <$> l) p
               (set_buf_state b STATE_BL_BUF_UNMAPPED));
      [reflexivity|reflexivity|].
    rewrite list_lookup_fmap, Hb. reflexivity.
Qed.

(** The example ring, one buffer Mapped and one Dropped. *)
Lemma cache_invalidate_unmaps_all_witness :
  let d := example_dev BL_TRIGGERFLAGS_CONTINUOUS STATE_BL_ARMED false
             STATE_BL_BUF_MAPPED STATE_BL_BUF_DROPPED in
  let d' := example_dev BL_TRIGGERFLAGS_CONTINUOUS STATE_BL_ARMED false
              STATE_BL_BUF_UNMAPPED STATE_BL_BUF_UNMAPPED in
  beaglelogic_f_ioctl quiet_env good_allocator IOCTL_BL_CACHE_INVALIDATE 0
    (mk_reader None 0 0) d []
    = Done (io_plain 0 (mk_reader None 0 0) d' []) /\
  forall (r' : logic_buffer_reader) (p : nat),
    rd_buf r' = Some p -> (p < 2)%nat ->
    beaglelogic_f_poll r' d' = Done (Z.lor POLLIN POLLRDNORM).
Proof.
  apply (cache_invalidate_unmaps_all quiet_env good_allocator 0
           (mk_reader None 0 0)
           (example_dev BL_TRIGGERFLAGS_CONTINUOUS STATE_BL_ARMED false
              STATE_BL_BUF_MAPPED STATE_BL_BUF_DROPPED) []
           (example_ring STATE_BL_BUF_MAPPED STATE_BL_BUF_DROPPED)).
  - reflexivity.
  - reflexivity.
Defined.

(** X12: [IOCTL_BL_START] on a device whose lock is free: with a ring it
    returns 0, puts the reader of the file at the start of buffer 0 with
    the whole buffer remaining, and leaves the device Running with the
    lock held, the write cursor on buffer 0 and the error word cleared;
    without a ring (none allocated yet, or freed by a change of the unit
    size) it dereferences the NULL buffer pointer. *)
Theorem ioctl_start_resets_reader (E : environment) (A : allocator)
    (arg : Z) (r : logic_buffer_reader) (d : beaglelogicdev)
    (heap : list dma_region) :
  mutex d = false -> samplerate d <> 0 ->
  (forall l b0, buffers d = Some l -> l !! 0%nat = Some b0 ->
     exists d',
       beaglelogic_f_ioctl E A IOCTL_BL_START arg r d heap
         = Done (io_plain 0 (mk_reader (Some 0%nat) 0 (wrap32 (size b0)))
                   d' heap) /\
       state d' = STATE_BL_RUNNING /\ mutex d' = true /\
       bufbeingread d' = Some 0%nat /\ lasterror d' = 0 /\
       buffers d' = Some l) /\
  (buffers d = None ->
   beaglelogic_f_ioctl E A IOCTL_BL_START arg r d heap = Fault).
Proof.
  intros Hm Hs. split.
  - intros l b0 Hl Hb0. rewrite ioctl_start.
    assert (Hp : buffers_ptr d = Some 0%nat) by (unfold buffers_ptr; rewrite Hl; reflexivity).
    rewrite Hp, (deref_lookup d l 0 b0 Hl Hb0). cbn [obind].
    destruct (start_free E d Hm Hs) as (x & Hstart).
    rewrite Hstart, Hp. cbn [obind]. eexists. split; [reflexivity|].
    cbn. auto.
  - intros Hl. rewrite ioctl_start. unfold buffers_ptr, deref. rewrite Hl.
    reflexivity.
Qed.

(** The example device, and the probed device, which has no ring. *)
Lemma ioctl_start_resets_reader_witness :
  (exists d',
     beaglelogic_f_ioctl quiet_env good_allocator IOCTL_BL_START 0
       (mk_reader (Some 1%nat) 100 3996)
       (example_dev BL_TRIGGERFLAGS_ONESHOT STATE_BL_ARMED false
          STATE_BL_BUF_MAPPED STATE_BL_BUF_MAPPED) []
       = Done (io_plain 0 (mk_reader (Some 0%nat) 0 (wrap32 4096)) d' []) /\
     state d' = STATE_BL_RUNNING /\ mutex d' = true /\
     bufbeingread d' = Some 0%nat /\ lasterror d' = 0 /\
     buffers d'
       = Some (example_ring STATE_BL_BUF_MAPPED STATE_BL_BUF_MAPPED)) /\
  beaglelogic_f_ioctl quiet_env good_allocator IOCTL_BL_START 0
    (mk_reader None 0 0) probed_dev [] = Fault.
Proof.
  split.
  - destruct (ioctl_start_resets_reader quiet_env good_allocator 0
                (mk_reader (Some 1%nat) 100 3996)
                (example_dev BL_TRIGGERFLAGS_ONESHOT STATE_BL_ARMED false
                   STATE_BL_BUF_MAPPED STATE_BL_BUF_MAPPED) []
                eq_refl ltac:(discriminate)) as [Hring _].
    apply (Hring (example_ring STATE_BL_BUF_MAPPED STATE_BL_BUF_MAPPED)
             (mk_logic_buffer 3221225472 2415919104 4096 STATE_BL_BUF_MAPPED
                0 (Some 1%nat)));
      reflexivity.
  - destruct (ioctl_start_resets_reader quiet_env good_allocator 0
                (mk_reader None 0 0) probed_dev []
                eq_refl ltac:(discriminate)) as [_ Hnone].
    apply Hnone. reflexivity.
Defined.

(** X13: writing 1 to the sysfs attribute [state] on a device without
    buffers whose lock is free starts a capture all the same: the store
    succeeds and the device is Running with the lock held and a NULL write
    cursor, and the next buffer-ready interrupt dereferences that NULL
    pointer. *)
Theorem start_without_buffers_faults_on_irq (E : environment) (count : Z)
    (d : beaglelogicdev) :
  buffers d = None -> mutex d = false -> samplerate d <> 0 ->
  exists d',
    bl_state_store E (Some 1) count d = Done (count, d') /\
    state d' = STATE_BL_RUNNING /\ mutex d' = true /\
    bufbeingread d' = None /\
    beaglelogic_serve_irq (from_bl_irq_1 d') d' = Fault.
Proof.
  intros Hl Hm Hs. unfold bl_state_store.
  change (1 <? 1) with false. change (1 =? 1) with true. cbv iota.
  destruct (start_free E d Hm Hs) as (x & Hstart). rewrite Hstart.
  cbn [obind]. eexists. split; [reflexivity|].
  split; [reflexivity|]. split; [reflexivity|].
  split; [cbn; unfold buffers_ptr; rewrite Hl; reflexivity|].
  unfold beaglelogic_serve_irq.
  cbn [from_bl_irq_1 set_lasterror set_state set_cxt_pru set_bufbeingread set_mutex].
  rewrite Z.eqb_refl. cbn zeta.
  unfold beaglelogic_unmap_buffer, write_buf_state, buffers_ptr. rewrite Hl.
  reflexivity.
Qed.

(** On the probed device. *)
Lemma start_without_buffers_faults_on_irq_witness :
  exists d',
    bl_state_store quiet_env (Some 1) 2 probed_dev = Done (2, d') /\
    state d' = STATE_BL_RUNNING /\ mutex d' = true /\
    bufbeingread d' = None /\
    beaglelogic_serve_irq (from_bl_irq_1 d') d' = Fault.
Proof.
  apply (start_without_buffers_faults_on_irq quiet_env 2 probed_dev).
  - reflexivity.
  - reflexivity.
  - discriminate.
Defined.


(** ** Poll *)

(** X14: poll and a non-blocking read agree.  For a reader at the start
    of a buffer of a Running device: when the buffer is not Unmapped, poll
    reports nothing (0) and a non-blocking read returns -EAGAIN and
    changes nothing; when the buffer is Unmapped, poll reports
    [POLLIN | POLLRDNORM] and the read, with a working copy, returns the
    number of bytes asked for, capped at what remains in the buffer, and
    leaves the device as it was. *)
Theorem poll_agrees_with_nonblocking_read (E : environment) (sz : Z)
    (r : logic_buffer_reader) (d : beaglelogicdev)
    (l : list logic_buffer) (p : nat) (b : logic_buffer) :
  buffers d = Some l -> rd_buf r = Some p -> l !! p = Some b ->
  pos r = 0 -> state d = STATE_BL_RUNNING ->
  (buf_state b <> STATE_BL_BUF_UNMAPPED ->
   beaglelogic_f_poll r d = Done 0 /\
   beaglelogic_f_read E true sz r d = Done (- EAGAIN, r, d)) /\
  (buf_state b = STATE_BL_BUF_UNMAPPED ->
   beaglelogic_f_poll r d = Done (Z.lor POLLIN POLLRDNORM) /\
   (copy_fails E = false -> ring_sound l ->
    0 <= sz -> 0 < remaining r < 2 ^ 31 ->
    exists r',
      beaglelogic_f_read E true sz r d
        = Done (Z.min (remaining r) sz, r', d))).
Proof.
  intros Hl Hp Hb Hpos Hs.
  assert (Hpoll : beaglelogic_f_poll r d
                  = if buf_state b =? STATE_BL_BUF_UNMAPPED
                    then Done (Z.lor POLLIN POLLRDNORM) else Done 0).
  { unfold beaglelogic_f_poll. rewrite Hp. cbn [ptr_eqb andb].
    rewrite (deref_lookup d l p b Hl Hb). reflexivity. }
  assert (Hread : beaglelogic_f_read E true sz r d
                  = if negb (buf_state b =? STATE_BL_BUF_UNMAPPED)
                    then Done (- EAGAIN, r, d) else perform_copy E sz r d).
  { unfold beaglelogic_f_read. rewrite Hs, Hpos, Hp.
    change (STATE_BL_RUNNING =? STATE_BL_ERROR) with false.
    change (0 <? 0) with false.
    change (STATE_BL_RUNNING =? STATE_BL_INITIALIZED) with false.
    rewrite andb_false_r. cbv iota. cbn [obind].
    unfold read_when_ready. rewrite Hp, (deref_lookup d l p b Hl Hb).
    reflexivity. }
  rewrite Hpoll, Hread. split.
  - intros Hst. apply Z.eqb_neq in Hst. rewrite Hst. split; reflexivity.
  - intros Hst. rewrite Hst.
    change (STATE_BL_BUF_UNMAPPED =? STATE_BL_BUF_UNMAPPED) with true.
    split; [reflexivity|]. cbn [negb].
    intros Hcopy Hsound Hsz Hrem.
    unfold perform_copy. cbn zeta. rewrite Hp.
    rewrite (deref_lookup d l p b Hl Hb). cbn [obind]. rewrite Hcopy.
    rewrite (detect_drop_lookup d l p b Hl Hb), Hst.
    change (STATE_BL_BUF_UNMAPPED =? STATE_BL_BUF_MAPPED) with false.
    cbv iota. cbn [obind].
    rewrite (to_int32_small (Z.min (remaining r) sz)) by lia.
    unfold advance_reader. cbn [remaining rd_buf].
    destruct (_ =? 0).
    + rewrite (deref_lookup d l p b Hl Hb). cbn [obind].
      destruct (Hsound p b Hb) as (_ & j & Hj & Hlt). rewrite Hj.
      destruct (lookup_lt_is_Some_2 l j Hlt) as [nb Hnb].
      rewrite (deref_lookup d l j nb Hl Hnb). cbn [obind].
      eexists. reflexivity.
    + cbn [obind]. eexists. reflexivity.
Qed.

(** The example ring is sound. *)
Lemma example_ring_sound (s0 s1 : Z) : ring_sound (example_ring s0 s1).
Proof.
  intros [|[|k]] b; simpl; intros Hb; try discriminate;
    injection Hb as <-; (split; [simpl; lia|]);
    eexists; (split; [reflexivity|simpl; lia]).
Defined.

(** A Running device whose first buffer is being filled and whose second
    buffer is ready. *)
Lemma poll_agrees_with_nonblocking_read_witness :
  let d := example_dev BL_TRIGGERFLAGS_CONTINUOUS STATE_BL_RUNNING true
             STATE_BL_BUF_MAPPED STATE_BL_BUF_UNMAPPED in
  (beaglelogic_f_poll (mk_reader (Some 0%nat) 0 4096) d = Done 0 /\
   beaglelogic_f_read quiet_env true 100 (mk_reader (Some 0%nat) 0 4096) d
     = Done (- EAGAIN, mk_reader (Some 0%nat) 0 4096, d)) /\
  (beaglelogic_f_poll (mk_reader (Some 1%nat) 0 4096) d
     = Done (Z.lor POLLIN POLLRDNORM) /\
   exists r',
     beaglelogic_f_read quiet_env true 100 (mk_reader (Some 1%nat) 0 4096) d
       = Done (100, r', d)).
Proof.
  cbn zeta. split.
  - destruct (poll_agrees_with_nonblocking_read quiet_env 100
                (mk_reader (Some 0%nat) 0 4096)
                (example_dev BL_TRIGGERFLAGS_CONTINUOUS STATE_BL_RUNNING true
                   STATE_BL_BUF_MAPPED STATE_BL_BUF_UNMAPPED)
                (example_ring STATE_BL_BUF_MAPPED STATE_BL_BUF_UNMAPPED) 0
                (mk_logic_buffer 3221225472 2415919104 4096
                   STATE_BL_BUF_MAPPED 0 (Some 1%nat))
                eq_refl eq_refl eq_refl eq_refl eq_refl) as [Hbusy _].
    apply Hbusy. discriminate.
  - destruct (poll_agrees_with_nonblocking_read quiet_env 100
                (mk_reader (Some 1%nat) 0 4096)
                (example_dev BL_TRIGGERFLAGS_CONTINUOUS STATE_BL_RUNNING true
                   STATE_BL_BUF_MAPPED STATE_BL_BUF_UNMAPPED)
                (example_ring STATE_BL_BUF_MAPPED STATE_BL_BUF_UNMAPPED) 1
                (mk_logic_buffer 3221229568 2415923200 4096
                   STATE_BL_BUF_UNMAPPED 1 (Some 0%nat))
                eq_refl eq_refl eq_refl eq_refl eq_refl) as [_ Hready].
    destruct (Hready eq_refl) as [Hpoll Hread].
    split; [exact Hpoll|].
    apply Hread; [reflexivity|apply example_ring_sound|lia|simpl; lia].
Defined.

(** ** Release *)

(** [beaglelogic_stop] returns whenever the interrupt handler can follow
    the ring, and leaves the lock free. *)
Lemma stop_returns (E : environment) (d : beaglelogicdev) :
  (mutex d = true -> state d = STATE_BL_RUNNING -> ring_ok d) ->
  exists d',
    beaglelogic_stop E d = Done d' /\ mutex d' = false /\
    (state d' = state d /\ (mutex d = false \/ state d <> STATE_BL_RUNNING) \/
     state d = STATE_BL_RUNNING /\
     (state d' = STATE_BL_INITIALIZED \/ state d' = STATE_BL_ERROR)).
Proof.
  intros Hring. unfold beaglelogic_stop, mutex_is_locked.
  destruct (mutex d) eqn:Hm.
  2:{ exists d. split; [reflexivity|]. split; [exact Hm|]. left. auto. }
  destruct (Z.eqb_spec (state d) STATE_BL_RUNNING) as [Hs|Hs].
  2:{ cbn [obind]. eexists. split; [reflexivity|]. split; [reflexivity|].
      left. split; [reflexivity|right; exact Hs]. }
  specialize (Hring eq_refl Hs).
  unfold wait_event_interruptible_timeout.
  set (d2 := set_state (beaglelogic_request_stop d) STATE_BL_REQUEST_STOP).
  assert (Hok2 : ring_ok d2).
  { eapply ring_ok_same_ring; [| |exact Hring]; destruct d; reflexivity. }
  destruct (sleep_until_ends (fun x => state x =? STATE_BL_INITIALIZED)
              (wait_irqs E)
              (if signal E then SignalArrives else TimeoutElapses) d2)
    as (w & d3 & Hsleep & _ & Hcond & _);
    [destruct (signal E); discriminate|exact Hok2|].
  rewrite Hsleep. cbn [obind]. destruct w; cbn [obind].
  - specialize (Hcond eq_refl). apply Z.eqb_eq in Hcond.
    eexists. split; [reflexivity|]. split; [reflexivity|].
    right. split; [exact Hs|]. left. cbn. exact Hcond.
  - eexists. split; [reflexivity|]. split; [reflexivity|].
    right. split; [exact Hs|]. unfold stop_recover.
    destruct (negb (boot_pru0 E =? 0)); [right; reflexivity|].
    destruct (negb (boot_pru1 E =? 0)); [right|left]; reflexivity.
  - eexists. split; [reflexivity|]. split; [reflexivity|].
    right. split; [exact Hs|]. left. reflexivity.
Qed.

(** X15: closing the file ([beaglelogic_f_release]) returns 0 with the
    session lock free, whoever held it and whichever file started the
    capture: the reader is not looked at.  A device that kept the session
    discipline is not Running afterwards, and a device that was not
    Running keeps its state.  (The call returns whenever the interrupt
    handler can follow the ring while release waits for the capture to
    end.) *)
Theorem release_stops_and_unlocks (E : environment) (d : beaglelogicdev) :
  (mutex d = true -> state d = STATE_BL_RUNNING -> ring_ok d) ->
  exists d',
    beaglelogic_f_release E d = Done (0, d') /\
    mutex d' = false /\
    (running_locked d -> state d' <> STATE_BL_RUNNING) /\
    (state d <> STATE_BL_RUNNING -> state d' = state d).
Proof.
  intros Hring.
  destruct (stop_returns E d Hring) as (d' & Hstop & Hm & Hst).
  exists d'. unfold beaglelogic_f_release. rewrite Hstop. cbn [obind].
  split; [reflexivity|]. split; [exact Hm|]. split.
  - intros Hinv Hr. destruct Hst as [[Heq [Hfree|Hn]]|[_ [Hi|He]]].
    + rewrite Heq in Hr. apply Hinv in Hr. congruence.
    + rewrite Heq in Hr. contradiction.
    + rewrite Hi in Hr. discriminate.
    + rewrite He in Hr. discriminate.
  - intros Hn. destruct Hst as [[Heq _]|[Hr _]]; [exact Heq|contradiction].
Qed.

(** Closing a file while a continuous capture runs; the capture-complete
    interrupt arrives during the wait. *)
Lemma release_stops_and_unlocks_witness :
  let d := example_dev BL_TRIGGERFLAGS_CONTINUOUS STATE_BL_RUNNING true
             STATE_BL_BUF_MAPPED STATE_BL_BUF_MAPPED in
  exists d',
    beaglelogic_f_release
      (mk_environment fw_ack [] [2] false 0 0 false false) d = Done (0, d') /\
    mutex d' = false /\
    (running_locked d -> state d' <> STATE_BL_RUNNING) /\
    (state d <> STATE_BL_RUNNING -> state d' = state d).
Proof.
  cbn zeta.
  apply (release_stops_and_unlocks
           (mk_environment fw_ack [] [2] false 0 0 false false)
           (example_dev BL_TRIGGERFLAGS_CONTINUOUS STATE_BL_RUNNING true
              STATE_BL_BUF_MAPPED STATE_BL_BUF_MAPPED)).
  intros _ _. apply example_ring_ok.
Defined.

(** ** mmap *)

Lemma mmap_loop_layout (remap_fails : nat -> bool) (d : beaglelogicdev)
    (l : list logic_buffer) (U vm_start : Z) :
  buffers d = Some l ->
  (forall k b, l !! k = Some b -> size b = U) ->
  (forall i, remap_fails i = false) ->
  0 <= U -> 0 <= vm_start -> vm_start + Z.of_nat (length l) * U < 2 ^ 32 ->
  forall n i : nat,
    (i + n <= length l)%nat ->
    exists maps,
      mmap_loop remap_fails n i d (vm_start + Z.of_nat i * U)
        = Done (true, maps) /\
      length maps = n /\
      forall k b, (k < n)%nat -> l !! (i + k)%nat = Some b ->
        maps !! k = Some (vm_start + Z.of_nat (i + k) * U,
                          Z.shiftr (phys_addr b) PAGE_SHIFT, U).
Proof.
  intros Hl Hsize Hok HU Hs Hfit. induction n as [|n IH]; intros i Hlen.
  - exists []. split; [reflexivity|]. split; [reflexivity|]. intros k b Hk. lia.
  - destruct (lookup_lt_is_Some_2 l i) as [b Hb]; [lia|].
    cbn [mmap_loop]. rewrite (deref_lookup d l i b Hl Hb). cbn [obind].
    rewrite Hok, (Hsize i b Hb).
    replace (wrap32 (vm_start + Z.of_nat i * U + U))
      with (vm_start + Z.of_nat (S i) * U) by (rewrite wrap32_small; nia).
    destruct (IH (S i)) as (rest & Hrest & Hlen' & Hall); [lia|].
    rewrite Hrest. cbn [obind]. eexists. split; [reflexivity|].
    split; [simpl; lia|].
    intros k c Hk Hc. destruct k as [|k].
    + rewrite Nat.add_0_r in *. rewrite Hb in Hc. injection Hc as <-.
      reflexivity.
    + cbn [lookup list_lookup]. 
      replace (i + S k)%nat with (S i + k)%nat in * by lia.
      apply Hall; [lia|exact Hc].
Qed.

(** X16: [beaglelogic_f_mmap] on a ring of [bufcount] buffers of the unit
    size [U].  A window longer than [bufcount * U] is refused with
    -EINVAL and nothing is mapped.  Any other window, also one shorter than
    the ring, gets the whole ring: every buffer is mapped, buffer [k] at
    user address [vm_start + k * U] to the page frame of its physical
    address, so that the buffers lie end to end in ring order. *)
Theorem mmap_lays_buffers_end_to_end (remap_fails : nat -> bool)
    (vm_start vm_end : Z) (d : beaglelogicdev) (l : list logic_buffer) :
  let U := bufunitsize d in
  buffers d = Some l -> Z.to_nat (bufcount d) = length l -> 0 <= bufcount d ->
  (forall k b, l !! k = Some b -> size b = U) ->
  0 <= U -> 0 <= vm_start <= vm_end -> vm_end < 2 ^ 32 ->
  vm_start + bufcount d * U < 2 ^ 32 ->
  (bufcount d * U < vm_end - vm_start ->
   beaglelogic_f_mmap remap_fails vm_start vm_end d = Done (- EINVAL, [])) /\
  (vm_end - vm_start <= bufcount d * U ->
   (forall i, remap_fails i = false) ->
   exists maps,
     beaglelogic_f_mmap remap_fails vm_start vm_end d = Done (0, maps) /\
     length maps = length l /\
     forall k b, l !! k = Some b ->
       maps !! k = Some (vm_start + Z.of_nat k * U,
                         Z.shiftr (phys_addr b) PAGE_SHIFT, U)).
Proof.
  intros U Hl Hlen Hcnt Hsize HU Hvm Hend Hfit.
  assert (Hn : Z.of_nat (length l) = bufcount d) by lia.
  unfold beaglelogic_f_mmap. fold U.
  rewrite (Z.mul_comm U), (wrap32_small (bufcount d * U)) by nia.
  rewrite (wrap32_small (vm_end - vm_start)) by lia.
  split.
  - intros Hbig. destruct (Z.ltb_spec (bufcount d * U) (vm_end - vm_start));
      [reflexivity|lia].
  - intros Hsmall Hok.
    destruct (Z.ltb_spec (bufcount d * U) (vm_end - vm_start)); [lia|].
    destruct (mmap_loop_layout remap_fails d l U vm_start Hl Hsize Hok HU
                ltac:(lia) ltac:(rewrite Hn; exact Hfit) (length l) 0)
      as (maps & Hrun & Hlen' & Hall); [lia|].
    rewrite Z.mul_0_l, Z.add_0_r in Hrun. rewrite Hlen, Hrun. cbn [obind].
    exists maps. split; [reflexivity|]. split; [exact Hlen'|].
    intros k b Hb. apply (Hall k b); [eapply lookup_lt_Some; exact Hb|exact Hb].
Qed.

(** The example ring of two 4096-byte buffers: a window of three pages is
    refused, a window of one page gets both buffers. *)
Lemma mmap_lays_buffers_end_to_end_witness :
  let d := example_dev BL_TRIGGERFLAGS_ONESHOT STATE_BL_ARMED false
             STATE_BL_BUF_MAPPED STATE_BL_BUF_MAPPED in
  beaglelogic_f_mmap (fun _ => false) 268435456 268447744 d
    = Done (- EINVAL, []) /\
  exists maps,
    beaglelogic_f_mmap (fun _ => false) 268435456 268439552 d
      = Done (0, maps) /\
    length maps = 2%nat /\
    forall k b,
      example_ring STATE_BL_BUF_MAPPED STATE_BL_BUF_MAPPED !! k = Some b ->
      maps !! k = Some (268435456 + Z.of_nat k * 4096,
                        Z.shiftr (phys_addr b) PAGE_SHIFT, 4096).
Proof.
  cbn zeta. split.
  - destruct (mmap_lays_buffers_end_to_end (fun _ => false)
                268435456 268447744
                (example_dev BL_TRIGGERFLAGS_ONESHOT STATE_BL_ARMED false
                   STATE_BL_BUF_MAPPED STATE_BL_BUF_MAPPED)
                (example_ring STATE_BL_BUF_MAPPED STATE_BL_BUF_MAPPED))
      as [Hbig _].
    + reflexivity.
    + reflexivity.
    + simpl. lia.
    + intros [|[|k]] b; simpl; intros Hb; try discriminate;
        injection Hb as <-; reflexivity.
    + simpl. lia.
    + lia.
    + lia.
    + simpl. lia.
    + apply Hbig. simpl. lia.
  - destruct (mmap_lays_buffers_end_to_end (fun _ => false)
                268435456 268439552
                (example_dev BL_TRIGGERFLAGS_ONESHOT STATE_BL_ARMED false
                   STATE_BL_BUF_MAPPED STATE_BL_BUF_MAPPED)
                (example_ring STATE_BL_BUF_MAPPED STATE_BL_BUF_MAPPED))
      as [_ Hfit].
    + reflexivity.
    + reflexivity.
    + simpl. lia.
    + intros [|[|k]] b; simpl; intros Hb; try discriminate;
        injection Hb as <-; reflexivity.
    + simpl. lia.
    + lia.
    + lia.
    + simpl. lia.
    + apply Hfit; [simpl; lia|reflexivity].
Defined.


(** ** Requests above the capacity *)

(** X17: a request above the capacity, by interface.  For a request of
    [B] bytes above [maxbufcount * U] (and without wrap-around), the sysfs
    attribute [memalloc] answers -EINVAL and keeps the ring the device
    has.  [IOCTL_BL_SET_BUFFER_SIZE] answers -ENOMEM, but only after it has
    freed the ring: the regions are back on the heap and [buffers] is
    NULL, while the device state stays what it was (an Armed device stays
    Armed).  The first read on a file opened before then dereferences the
    NULL buffer pointer. *)
Theorem oversized_request_by_interface (E : environment) (A : allocator)
    (B count : Z) (r : logic_buffer_reader) (d : beaglelogicdev)
    (heap base : list dma_region) :
  let U := bufunitsize d in
  mutex d = false -> ring_owned d heap base ->
  0 < U -> B + U - 1 < 2 ^ 32 ->
  2 <= maxbufcount d < 2 ^ 31 -> maxbufcount d * U < B ->
  bl_memalloc_store (lock_irqs E) A (Some B) count d heap
    = Done (- EINVAL, d, heap, None) /\
  exists heap',
    beaglelogic_f_ioctl E A IOCTL_BL_SET_BUFFER_SIZE B r d heap
      = Done (io_plain (- ENOMEM) r (without_ring d) heap') /\
    heap' ≡ₚ base /\
    buffers (without_ring d) = None /\
    state (without_ring d) = state d /\
    (state d <> STATE_BL_ERROR ->
     forall (E' : environment) (nonblock : bool) (sz : Z),
       beaglelogic_f_read E' nonblock sz (mk_reader None 0 0) (without_ring d)
         = Fault).
Proof.
  intros U Hm Hown HU Hfit Hmax Hbig.
  assert (HB : 0 <= B) by nia.
  split.
  - unfold bl_memalloc_store. fold U.
    rewrite wrap32_small by nia.
    destruct (Z.ltb_spec (maxbufcount d * U) B); [reflexivity|lia].
  - destruct (memfree_owned (lock_irqs E) d heap base Hm Hown)
      as (heap1 & Hfree & Hperm1).
    destruct (without_ring_fields d) as (Hb1 & Hm1 & Hs1 & Hu1 & Hmax1).
    exists heap1. split; [|split; [exact Hperm1|split; [exact Hb1|split; [exact Hs1|]]]].
    + rewrite ioctl_set_buffer_size, Hfree. cbn [obind].
      rewrite (wrap32_small B) by lia.
      rewrite memalloc_over_capacity;
        [reflexivity|rewrite Hm1; exact Hm|rewrite Hu1; fold U; lia|].
      rewrite Hu1, Hmax1. fold U.
      rewrite DIV_ROUND_UP_ceil by assumption.
      pose proof (ceil_div_covers B U HU). nia.
    + intros Herr E' nonblock sz. unfold beaglelogic_f_read.
      rewrite Hs1.
      destruct (Z.eqb_spec (state d) STATE_BL_ERROR) as [|_]; [contradiction|].
      cbn [pos rd_buf]. change (0 <? 0) with false. cbv iota.
      unfold buffers_ptr, deref. rewrite Hb1. reflexivity.
Qed.

(** 1 MiB asked for on the example device, which holds 128 buffers of 4096
    bytes at most. *)
Lemma oversized_request_by_interface_witness :
  let d := example_dev BL_TRIGGERFLAGS_ONESHOT STATE_BL_ARMED false
             STATE_BL_BUF_MAPPED STATE_BL_BUF_MAPPED in
  let heap := regions_of (example_ring STATE_BL_BUF_MAPPED STATE_BL_BUF_MAPPED) in
  bl_memalloc_store (lock_irqs quiet_env) good_allocator (Some 1048576) 8 d heap
    = Done (- EINVAL, d, heap, None) /\
  exists heap',
    beaglelogic_f_ioctl quiet_env good_allocator IOCTL_BL_SET_BUFFER_SIZE
      1048576 (mk_reader None 0 0) d heap
      = Done (io_plain (- ENOMEM) (mk_reader None 0 0) (without_ring d) heap') /\
    heap' ≡ₚ [] /\
    buffers (without_ring d) = None /\
    state (without_ring d) = STATE_BL_ARMED /\
    (state d <> STATE_BL_ERROR ->
     forall (E' : environment) (nonblock : bool) (sz : Z),
       beaglelogic_f_read E' nonblock sz (mk_reader None 0 0) (without_ring d)
         = Fault).
Proof.
  cbn zeta.
  apply (oversized_request_by_interface quiet_env good_allocator 1048576 8
           (mk_reader None 0 0)
           (example_dev BL_TRIGGERFLAGS_ONESHOT STATE_BL_ARMED false
              STATE_BL_BUF_MAPPED STATE_BL_BUF_MAPPED)
           (regions_of (example_ring STATE_BL_BUF_MAPPED STATE_BL_BUF_MAPPED))
           []).
  - reflexivity.
  - unfold ring_owned. simpl. split; reflexivity.
  - simpl. lia.
  - simpl. lia.
  - simpl. lia.
  - simpl. lia.
Defined.

(** ** Open *)

Lemma set_buf_state_same (b : logic_buffer) :
  set_buf_state b (buf_state b) = b.
Proof. destruct b; reflexivity. Qed.

(** The repair loop of [beaglelogic_f_open] sets every buffer it visits
    to Mapped when all of them have a DMA address. *)
Lemma open_repair_loop_resets :
  forall (n i : nat) (d : beaglelogicdev) (l : list logic_buffer),
    buffers d = Some l -> (i + n <= length l)%nat ->
    (forall k b, l !! k = Some b -> phys_addr b <> 0) ->
    exists l',
      open_repair_loop n i d = Done (true, set_buffers d (Some l')) /\
      length l' = length l /\
      forall k b, l !! k = Some b ->
        l' !! k = Some (if (i <=? k)%nat && (k <? i + n)%nat
                        then set_buf_state b STATE_BL_BUF_MAPPED else b).
Proof.
  induction n as [|n IH]; intros i d l Hl Hlen Hphys.
  - exists l. split; [cbn; do 2 f_equal; destruct d; simpl in *; subst; reflexivity|].
    split; [reflexivity|]. intros k b Hb.
    destruct (Nat.leb_spec i k), (Nat.ltb_spec k (i + 0)); try lia; exact Hb.
  - destruct (lookup_lt_is_Some_2 l i) as [bi Hbi]; [lia|].
    cbn [open_repair_loop]. rewrite (deref_lookup d l i bi Hl Hbi). cbn [obind].
    assert (Hstep : exists l1,
               (if negb (buf_state bi =? STATE_BL_BUF_MAPPED)
                then if negb (phys_addr bi =? 0)
                     then do d' <- write_buf_state d (Some i) STATE_BL_BUF_MAPPED;
                          open_repair_loop n (S i) d'
                     else Done (false, d)
                else open_repair_loop n (S i) d)
               = open_repair_loop n (S i) (set_buffers d (Some l1)) /\
               l1 = <[i := set_buf_state bi STATE_BL_BUF_MAPPED]> l).
    { eexists. split; [|reflexivity].
      destruct (Z.eqb_spec (buf_state bi) STATE_BL_BUF_MAPPED) as [Hst|Hst];
        cbn [negb].
      - rewrite <- Hst, set_buf_state_same, list_insert_id by exact Hbi.
        f_equal. destruct d; simpl in *; subst; reflexivity.
      - replace (phys_addr bi =? 0) with false
          by (symmetry; apply Z.eqb_neq; eapply Hphys; exact Hbi).
        cbn [negb]. rewrite (write_buf_state_lookup d l i bi _ Hl Hbi).
        reflexivity. }
    destruct Hstep as (l1 & -> & Hl1).
    destruct (IH (S i) (set_buffers d (Some l1)) l1) as (l' & Hrun & Hlen' & Hall).
    + reflexivity.
    + subst l1. rewrite length_insert. lia.
    + intros k b Hb. subst l1.
      destruct (decide (k = i)) as [->|Hne].
      * rewrite list_lookup_insert_eq in Hb by lia. injection Hb as <-.
        cbn. eapply Hphys. exact Hbi.
      * rewrite list_lookup_insert_ne in Hb by lia. eapply Hphys. exact Hb.
    + exists l'. split; [rewrite Hrun; do 2 f_equal; destruct d; reflexivity|].
      split; [rewrite Hlen'; subst l1; apply length_insert|].
      intros k b Hb. subst l1. destruct (decide (k = i)) as [->|Hne].
      * rewrite (Hall i (set_buf_state bi STATE_BL_BUF_MAPPED)).
        -- rewrite Hbi in Hb. injection Hb as <-.
           destruct (Nat.leb_spec (S i) i), (Nat.leb_spec i i),
             (Nat.ltb_spec i (i + S n)); try lia; reflexivity.
        -- apply list_lookup_insert_eq. lia.
      * rewrite (Hall k b).
        -- f_equal.
           destruct (Nat.leb_spec (S i) k), (Nat.leb_spec i k),
             (Nat.ltb_spec k (S i + n)), (Nat.ltb_spec k (i + S n));
             try lia; reflexivity.
        -- rewrite list_lookup_insert_ne by lia. exact Hb.
Qed.

(** X18: opening the device resets the ring.  With the lock free, a ring
    of at least one buffer, all with a DMA address, and a reader that can be
    allocated, [beaglelogic_f_open] returns 0 with a fresh reader, and
    every buffer is Mapped afterwards, whatever state (Unmapped, Dropped)
    the previous session left it in; nothing else changes. *)
Theorem open_resets_buffer_states (E : environment) (d : beaglelogicdev)
    (l : list logic_buffer) :
  buffers d = Some l -> Z.to_nat (bufcount d) = length l ->
  (0 < length l)%nat ->
  mutex d = false -> reader_alloc_fails E = false ->
  (forall k b, l !! k = Some b -> phys_addr b <> 0) ->
  beaglelogic_f_open E d
    = Done (0, Some (mk_reader None 0 0),
            set_buffers d
              (Some ((fun b => set_buf_state b STATE_BL_BUF_MAPPED) <$> l))).
Proof.
  intros Hl Hlen Hpos Hm Halloc Hphys. unfold beaglelogic_f_open.
  destruct (Z.eqb_spec (bufcount d) 0) as [H0|_];
    [rewrite H0 in Hlen; simpl in Hlen; lia|].
  rewrite Halloc, Hl, (mutex_lock_free _ d Hm). cbn [obind bufcount set_mutex].
  rewrite Hlen.
  destruct (open_repair_loop_resets (length l) 0 (set_mutex d true) l Hl)
    as (l' & Hrun & Hlen' & Hall); [lia|exact Hphys|].
  assert (Hl' : l' = (fun b => set_buf_state b STATE_BL_BUF_MAPPED) <$> l).
  { apply list_eq. intros k. rewrite list_lookup_fmap.
    destruct (l !! k) as [b|] eqn:Hb.
    - rewrite (Hall k b Hb). apply lookup_lt_Some in Hb.
      destruct (Nat.leb_spec 0 k), (Nat.ltb_spec k (0 + length l));
        try lia; reflexivity.
    - apply lookup_ge_None_2. apply lookup_ge_None_1 in Hb. lia. }
  rewrite Hrun. cbn [obind negb]. subst l'.
  set (d3 := mutex_unlock _).
  assert (Hd3 : d3 = set_buffers d
                       (Some ((fun b => set_buf_state b STATE_BL_BUF_MAPPED) <$> l))).
  { unfold d3. destruct d; simpl in *; subst; reflexivity. }
  rewrite Hd3.
  destruct (lookup_lt_is_Some_2 l 0 Hpos) as [b0 Hb0].
  unfold buffers_ptr. cbn [buffers set_buffers].
  rewrite (map_buffer_mappable
             (set_buffers d
                (Some ((fun b => set_buf_state b STATE_BL_BUF_MAPPED) <$> l)))
             ((fun b => set_buf_state b STATE_BL_BUF_MAPPED) <$> l) 0
             (set_buf_state b0 STATE_BL_BUF_MAPPED));
    [reflexivity|reflexivity|].
  rewrite list_lookup_fmap, Hb0. reflexivity.
Qed.

(** The example ring after a session that left one buffer Unmapped and one
    Dropped. *)
Lemma open_resets_buffer_states_witness :
  beaglelogic_f_open quiet_env
    (example_dev BL_TRIGGERFLAGS_ONESHOT STATE_BL_INITIALIZED false
       STATE_BL_BUF_UNMAPPED STATE_BL_BUF_DROPPED)
    = Done (0, Some (mk_reader None 0 0),
            example_dev BL_TRIGGERFLAGS_ONESHOT STATE_BL_INITIALIZED false
              STATE_BL_BUF_MAPPED STATE_BL_BUF_MAPPED).
Proof.
  apply (open_resets_buffer_states quiet_env
           (example_dev BL_TRIGGERFLAGS_ONESHOT STATE_BL_INITIALIZED false
              STATE_BL_BUF_UNMAPPED STATE_BL_BUF_DROPPED)
           (example_ring STATE_BL_BUF_UNMAPPED STATE_BL_BUF_DROPPED)).
  - reflexivity.
  - reflexivity.
  - simpl. lia.
  - reflexivity.
  - reflexivity.
  - intros [|[|k]] b; simpl; intros Hb; try discriminate;
      injection Hb as <-; discriminate.
Defined.

(** ** Configuration *)

(** X19: the configuration that the setters accept is the one the
    firmware gets.  On a device whose lock is free, a sample rate [rate] in
    [1, F/2], a sample unit in [0, 2] and trigger flags in [0, 1] are all
    accepted (a unit of 2, which names no sample width, included), and the
    start that follows returns 0 having written to the capture context the
    divisor [(F/2) / rate] (the divisor of the rate asked for, although the
    rate stored is the realized one), that sample unit, those trigger
    flags and a cleared stop flag, whatever the firmware answers. *)
Theorem configuration_reaches_firmware (E : environment) (d : beaglelogicdev)
    (rate unit flags : Z) :
  mutex d = false ->
  1 <= rate <= coreclockfreq d / 2 -> 0 <= unit <= 2 -> 0 <= flags <= 1 ->
  exists d1 d2 d3 d4,
    beaglelogic_set_samplerate d rate = (0, d1) /\
    beaglelogic_set_sampleunit d1 unit = (0, d2) /\
    beaglelogic_set_triggerflags d2 flags = (0, d3) /\
    beaglelogic_start E d3 = Done (0, d4) /\
    samplediv (cxt_pru d4) = (coreclockfreq d / 2) / rate /\
    cxt_sampleunit (cxt_pru d4) = unit /\
    cxt_triggerflags (cxt_pru d4) = flags /\
    stop_flag (cxt_pru d4) = 0.
Proof.
  intros Hm Hrate Hunit Hflags.
  set (H := coreclockfreq d / 2) in *.
  assert (Hq : 1 <= H / rate) by (apply Z.div_le_lower_bound; lia).
  assert (Hreal : 1 <= H / (H / rate)).
  { apply Z.div_le_lower_bound; [lia|]. 
    pose proof (Z.mul_div_le H rate ltac:(lia)). nia. }
  destruct (firmware E CMD_SET_CONFIG) as [c1|] eqn:F1;
    destruct (firmware E CMD_START) as [c2|] eqn:F2;
    (eexists; eexists; eexists; eexists;
     split; [apply set_samplerate_accepted; assumption|];
     split;
     [unfold beaglelogic_set_sampleunit, mutex_trylock;
      destruct (Z.ltb_spec 2 unit); [lia|];
      cbn [mutex set_samplerate]; rewrite Hm; reflexivity|];
     split;
     [unfold beaglelogic_set_triggerflags, mutex_trylock;
      destruct (Z.ltb_spec 1 flags); [lia|];
      cbn [mutex mutex_unlock set_mutex set_sampleunit set_samplerate];
      reflexivity|];
     unfold beaglelogic_start;
     rewrite mutex_lock_free by reflexivity; cbn [obind];
     unfold beaglelogic_write_configuration;
     cbn [samplerate set_cxt_pru set_mutex mutex_unlock set_triggerflags
          set_sampleunit set_samplerate coreclockfreq cxt_pru sampleunit
          triggerflags];
     fold H;
     destruct (Z.eqb_spec (H / (H / rate)) 0) as [|_]; [lia|];
     cbn zeta; unfold beaglelogic_send_cmd;
     cbn [firmware cxt_pru set_cxt_pru set_mutex set_bufbeingread];
     rewrite F1; cbn [obind negb Z.eqb cxt_pru set_cxt_pru set_bufbeingread];
     rewrite F2;
     (split; [reflexivity|]); cbn;
     (split; [apply rate_of_rate_fixed; assumption|]); auto).
Qed.

(** 30 MHz, 16-bit samples, continuous, on the probed device: the divisor
    written is 3. *)
Lemma configuration_reaches_firmware_witness :
  exists d1 d2 d3 d4,
    beaglelogic_set_samplerate probed_dev 30000000 = (0, d1) /\
    beaglelogic_set_sampleunit d1 0 = (0, d2) /\
    beaglelogic_set_triggerflags d2 1 = (0, d3) /\
    beaglelogic_start quiet_env d3 = Done (0, d4) /\
    samplediv (cxt_pru d4) = 3 /\
    cxt_sampleunit (cxt_pru d4) = 0 /\
    cxt_triggerflags (cxt_pru d4) = 1 /\
    stop_flag (cxt_pru d4) = 0.
Proof.
  apply (configuration_reaches_firmware quiet_env probed_dev 30000000 0 1).
  - reflexivity.
  - vm_compute. split; discriminate.
  - lia.
  - lia.
Defined.


(** ** The session discipline through every entry point *)

Lemma unmap_loop_same :
  forall (n j : nat) (d d' : beaglelogicdev),
    unmap_loop n j d = Done d' -> same_session d d'.
Proof.
  induction n as [|n IH]; intros j d d' H.
  - injection H as <-. apply same_session_refl.
  - cbn [unmap_loop] in H. apply obind_done in H as (d1 & Hw & H).
    eapply same_session_trans; [eapply write_buf_state_same; exact Hw|].
    eapply IH. exact H.
Qed.

Lemma submit_running_locked (d d' : beaglelogicdev) (ret : Z)
    (entries : list buflist) :
  beaglelogic_map_and_submit_all_buffers d = Done (ret, d', entries) ->
  running_locked d -> running_locked d'.
Proof.
  unfold beaglelogic_map_and_submit_all_buffers. cbn zeta. intros H Hinv.
  apply obind_done in H as (failed & _ & H). destruct failed as [i|].
  - apply obind_done in H as (d1 & _ & H). injection H as _ <- _.
    intros Hr. discriminate.
  - apply obind_done in H as (e & _ & H). injection H as _ <- _.
    destruct (negb _); [intros Hr; discriminate|exact Hinv].
Qed.

Lemma memfree_running_locked (irqs : list Z) (d d' : beaglelogicdev)
    (heap heap' : list dma_region) :
  beaglelogic_memfree irqs d heap = Done (d', heap') ->
  running_locked d -> running_locked d'.
Proof.
  intros H. apply dev_step_running_locked.
  eapply step_memfree. exact H.
Qed.

Lemma memalloc_running_locked (A : allocator) (d d' : beaglelogicdev)
    (B ret : Z) (heap heap' : list dma_region) :
  beaglelogic_memalloc A d B heap = Done (ret, d', heap') ->
  running_locked d -> running_locked d'.
Proof.
  intros H. apply dev_step_running_locked.
  eapply step_memalloc. exact H.
Qed.

Lemma testpattern_running_locked (irqs : list Z) (d d' : beaglelogicdev)
    (stored : list (Z * list Z)) :
  beaglelogic_fill_buffer_testpattern irqs d = Done (d', stored) ->
  running_locked d -> running_locked d'.
Proof.
  unfold beaglelogic_fill_buffer_testpattern. intros H Hinv.
  apply obind_done in H as (d1 & Hlock & H).
  destruct (mutex_lock_returns irqs d d1 Hlock Hinv) as (dl & -> & Hfree & Hdl).
  apply obind_done in H as (st & _ & H). injection H as <- _.
  eapply running_locked_free; [exact Hdl|exact Hfree|reflexivity].
Qed.

Lemma set_bufunitsize_running_locked (d : beaglelogicdev) (v : Z) :
  running_locked d -> running_locked (set_bufunitsize d v).
Proof. intros H. exact H. Qed.

Lemma ioctl_running_locked (E : environment) (A : allocator) (cmd arg : Z)
    (r : logic_buffer_reader) (heap : list dma_region)
    (d : beaglelogicdev) (res : ioctl_result) :
  beaglelogic_f_ioctl E A cmd arg r d heap = Done res ->
  running_locked d -> running_locked (io_dev res).
Proof.
  unfold beaglelogic_f_ioctl, io_copy_to_user. intros H Hinv.
  destruct (cmd =? IOCTL_BL_GET_VERSION); [injection H as <-; exact Hinv|].
  destruct (cmd =? IOCTL_BL_GET_SAMPLE_RATE);
    [destruct (copy_fails E); injection H as <-; exact Hinv|].
  destruct (cmd =? IOCTL_BL_SET_SAMPLE_RATE).
  { destruct (beaglelogic_set_samplerate d (wrap32 arg)) as [ret d1] eqn:Hset.
    injection H as <-. cbn [io_dev io_plain].
    eapply dev_step_running_locked; [|exact Hinv].
    eapply step_set_samplerate. exact Hset. }
  destruct (cmd =? IOCTL_BL_GET_SAMPLE_UNIT);
    [destruct (copy_fails E); injection H as <-; exact Hinv|].
  destruct (cmd =? IOCTL_BL_SET_SAMPLE_UNIT).
  { destruct (beaglelogic_set_sampleunit d (wrap32 arg)) as [ret d1] eqn:Hset.
    injection H as <-. cbn [io_dev io_plain].
    eapply dev_step_running_locked; [|exact Hinv].
    eapply step_set_sampleunit. exact Hset. }
  destruct (cmd =? IOCTL_BL_GET_TRIGGER_FLAGS);
    [destruct (copy_fails E); injection H as <-; exact Hinv|].
  destruct (cmd =? IOCTL_BL_SET_TRIGGER_FLAGS).
  { destruct (beaglelogic_set_triggerflags d (wrap32 arg)) as [ret d1] eqn:Hset.
    injection H as <-. cbn [io_dev io_plain].
    eapply dev_step_running_locked; [|exact Hinv].
    eapply step_set_triggerflags. exact Hset. }
  destruct (cmd =? IOCTL_BL_GET_CUR_INDEX).
  { apply obind_done in H as (b & _ & H).
    destruct (copy_fails E); injection H as <-; exact Hinv. }
  destruct (cmd =? IOCTL_BL_CACHE_INVALIDATE).
  { apply obind_done in H as (d1 & Hun & H). injection H as <-.
    cbn [io_dev io_plain]. eapply running_locked_same; [|exact Hinv].
    eapply unmap_loop_same. exact Hun. }
  destruct (cmd =? IOCTL_BL_GET_BUFFER_SIZE);
    [destruct (copy_fails E); injection H as <-; exact Hinv|].
  destruct (cmd =? IOCTL_BL_SET_BUFFER_SIZE).
  { apply obind_done in H as ([d1 heap1] & Hfree & H).
    apply obind_done in H as ([[ret d2] heap2] & Halloc & H).
    pose proof (memfree_running_locked _ _ _ _ _ Hfree Hinv) as Hinv1.
    pose proof (memalloc_running_locked _ _ _ _ _ _ _ Halloc Hinv1) as Hinv2.
    destruct (wrap32 ret =? 0).
    - apply obind_done in H as ([[ret' d3] entries] & Hsub & H).
      injection H as <-. cbn [io_dev].
      eapply submit_running_locked; eassumption.
    - injection H as <-. exact Hinv2. }
  destruct (cmd =? IOCTL_BL_GET_BUFUNIT_SIZE);
    [destruct (copy_fails E); injection H as <-; exact Hinv|].
  destruct (cmd =? IOCTL_BL_SET_BUFUNIT_SIZE).
  { destruct (wrap32 arg <? 32); [injection H as <-; exact Hinv|].
    cbn zeta in H. apply obind_done in H as ([d2 heap2] & Hfree & H).
    injection H as <-. cbn [io_dev io_plain].
    eapply memfree_running_locked; [exact Hfree|].
    apply set_bufunitsize_running_locked. exact Hinv. }
  destruct (cmd =? IOCTL_BL_FILL_TEST_PATTERN).
  { apply obind_done in H as ([d1 stored] & Hfill & H). injection H as <-.
    cbn [io_dev]. eapply testpattern_running_locked; eassumption. }
  destruct (cmd =? IOCTL_BL_START).
  { apply obind_done in H as (b & _ & H).
    apply obind_done in H as ([ret d1] & Hstart & H). injection H as <-.
    cbn [io_dev io_plain].
    apply start_running_locked in Hstart as [_ Hl]. intros _. exact Hl. }
  destruct (cmd =? IOCTL_BL_STOP).
  { apply obind_done in H as (d1 & Hstop & H). injection H as <-.
    cbn [io_dev io_plain]. eapply stop_running_locked; eassumption. }
  injection H as <-. exact Hinv.
Qed.

Lemma driver_step_running_locked (d d' : beaglelogicdev) :
  driver_step d d' -> running_locked d -> running_locked d'.
Proof.
  intros Hstep Hinv. destruct Hstep as
    [d d' H | E d d' ret H | E A cmd arg r heap d res H
    | irqs parsed count heap heap' d d' ret H
    | irqs A parsed count heap heap' d d' ret entries H
    | parsed count d d' ret H | parsed count d d' ret H
    | parsed count d d' ret H | E parsed count d d' ret H
    | irqs parsed count d d' ret stored H].
  - eapply dev_step_running_locked; eassumption.
  - unfold beaglelogic_f_release in H.
    apply obind_done in H as (d1 & Hstop & H). injection H as _ <-.
    eapply stop_running_locked; eassumption.
  - eapply ioctl_running_locked; eassumption.
  - unfold bl_bufunitsize_store in H.
    destruct parsed as [val|]; [|injection H as _ <- _; exact Hinv].
    destruct (val <? 32); [injection H as _ <- _; exact Hinv|].
    cbn zeta in H. apply obind_done in H as ([d2 heap2] & Hfree & H).
    injection H as _ <- _.
    eapply memfree_running_locked; [exact Hfree|].
    apply set_bufunitsize_running_locked. exact Hinv.
  - unfold bl_memalloc_store in H.
    destruct parsed as [val|]; [|injection H as _ <- _ _; exact Hinv].
    destruct (_ <? val); [injection H as _ <- _ _; exact Hinv|].
    apply obind_done in H as ([d1 heap1] & Hfree & H).
    apply obind_done in H as ([[rt d2] heap2] & Halloc & H).
    pose proof (memfree_running_locked _ _ _ _ _ Hfree Hinv) as Hinv1.
    pose proof (memalloc_running_locked _ _ _ _ _ _ _ Halloc Hinv1) as Hinv2.
    destruct (rt =? 0).
    + apply obind_done in H as ([[ret' d3] e] & Hsub & H).
      injection H as _ <- _ _.
      eapply submit_running_locked; eassumption.
    + injection H as _ <- _ _. exact Hinv2.
  - unfold bl_samplerate_store in H.
    destruct parsed as [val|]; [|injection H as _ <-; exact Hinv].
    destruct (beaglelogic_set_samplerate d val) as [rt d1] eqn:Hset.
    assert (d' = d1) by (destruct (negb _); injection H as _ <-; reflexivity).
    subst d'. eapply dev_step_running_locked; [|exact Hinv].
    eapply step_set_samplerate. exact Hset.
  - unfold bl_sampleunit_store in H.
    destruct parsed as [val|]; [|injection H as _ <-; exact Hinv].
    destruct (beaglelogic_set_sampleunit d val) as [rt d1] eqn:Hset.
    assert (d' = d1) by (destruct (negb _); injection H as _ <-; reflexivity).
    subst d'. eapply dev_step_running_locked; [|exact Hinv].
    eapply step_set_sampleunit. exact Hset.
  - unfold bl_triggerflags_store in H.
    destruct parsed as [val|]; [|injection H as _ <-; exact Hinv].
    destruct (beaglelogic_set_triggerflags d val) as [rt d1] eqn:Hset.
    assert (d' = d1) by (destruct (negb _); injection H as _ <-; reflexivity).
    subst d'. eapply dev_step_running_locked; [|exact Hinv].
    eapply step_set_triggerflags. exact Hset.
  - unfold bl_state_store in H.
    destruct parsed as [val|]; [|injection H as _ <-; exact Hinv].
    destruct (1 <? val); [injection H as _ <-; exact Hinv|].
    destruct (val =? 1).
    + apply obind_done in H as ([rt d1] & Hstart & H). injection H as _ <-.
      apply start_running_locked in Hstart as [_ Hl]. intros _. exact Hl.
    + apply obind_done in H as (d1 & Hstop & H). injection H as _ <-.
      eapply stop_running_locked; eassumption.
  - unfold bl_testpattern_store in H.
    destruct parsed as [val|]; [|injection H as _ <- _; exact Hinv].
    destruct (val =? 12345678).
    + apply obind_done in H as ([d1 st] & Hfill & H). injection H as _ <- _.
      eapply testpattern_running_locked; eassumption.
    + injection H as _ <- _. exact Hinv.
Qed.

(** X20: the session discipline holds through every entry point.
    Whatever sequence of interrupts, file operations (open, read, llseek,
    ioctl, release) and sysfs stores follows a probe, a device that is
    Running holds the session lock. *)
Theorem running_device_holds_the_lock (d : beaglelogicdev) :
  driver_reachable d -> state d = STATE_BL_RUNNING -> mutex d = true.
Proof.
  induction 1 as [irq1 irq2 max_sg d Hprobe | d d' _ IH Hstep].
  - unfold beaglelogic_probe in Hprobe.
    destruct (_ && _); [|discriminate]. injection Hprobe as <-.
    intros Hr. discriminate.
  - apply (driver_step_running_locked d d' Hstep). exact IH.
Qed.

(** The probed device, given a ring and started through ioctl. *)
Lemma running_device_holds_the_lock_witness :
  driver_reachable running_dev /\
  state running_dev = STATE_BL_RUNNING /\ mutex running_dev = true.
Proof.
  assert (Harmed : driver_step probed_dev armed_dev).
  { unfold armed_dev.
    destruct (beaglelogic_f_ioctl quiet_env good_allocator
                IOCTL_BL_SET_BUFFER_SIZE 8388608 (mk_reader None 0 0)
                probed_dev []) as [res| | |] eqn:H;
      [exact (dstep_ioctl _ _ _ _ _ _ _ _ H) | | |];
      vm_compute in H; discriminate H. }
  assert (Hrunning : driver_step armed_dev running_dev).
  { unfold running_dev.
    destruct (beaglelogic_f_ioctl quiet_env good_allocator IOCTL_BL_START 0
                (mk_reader None 0 0) armed_dev []) as [res| | |] eqn:H;
      [exact (dstep_ioctl _ _ _ _ _ _ _ _ H) | | |];
      vm_compute in H; discriminate H. }
  assert (Hreach : driver_reachable running_dev).
  { eapply dreach_step; [|exact Hrunning].
    eapply dreach_step; [|exact Harmed].
    apply (dreach_probe 1 2 128). reflexivity. }
  split; [exact Hreach|].
  split; [vm_compute; reflexivity|].
  apply (running_device_holds_the_lock running_dev Hreach).
  vm_compute. reflexivity.
Defined.


(** ** Seek and read *)

(** Once the drop detection has run on a buffer, running it again changes
    nothing. *)
Lemma detect_drop_idem (d d1 : beaglelogicdev) (p : option nat) :
  detect_drop d p = Done d1 -> detect_drop d1 p = Done d1.
Proof.
  unfold detect_drop. intros H.
  apply obind_done in H as (b & Hb & H).
  apply deref_done in Hb as (i & l & -> & Hl & Hi).
  destruct (Z.eqb_spec (buf_state b) STATE_BL_BUF_MAPPED) as [Hm|Hm].
  - rewrite (write_buf_state_lookup d l i b _ Hl Hi) in H. cbn [obind] in H.
    injection H as <-.
    rewrite (deref_lookup _ (<[i := set_buf_state b STATE_BL_BUF_DROPPED]> l) i
               (set_buf_state b STATE_BL_BUF_DROPPED));
      [reflexivity|reflexivity|].
    apply list_lookup_insert_eq. eapply lookup_lt_Some. exact Hi.
  - injection H as <-. rewrite (deref_lookup d l i b Hl Hi). cbn [obind].
    destruct (Z.eqb_spec (buf_state b) STATE_BL_BUF_MAPPED); [contradiction|].
    reflexivity.
Qed.

(** More fuel does not change what a seek that returned did. *)
Lemma llseek_loop_fuel (fuel : nat) :
  forall (fuel' : nat) (i : Z) (r : logic_buffer_reader) (d : beaglelogicdev)
         (x : logic_buffer_reader * beaglelogicdev),
    llseek_loop fuel i r d = Done x -> (fuel <= fuel')%nat ->
    llseek_loop fuel' i r d = Done x.
Proof.
  induction fuel as [|fuel IH]; intros fuel' i r d x H Hle.
  - cbn [llseek_loop] in H. destruct (i <=? 0) eqn:Hi; [|discriminate].
    destruct fuel'; cbn [llseek_loop]; rewrite Hi; exact H.
  - destruct fuel' as [|fuel']; [lia|].
    cbn [llseek_loop] in *. destruct (i <=? 0); [exact H|].
    destruct (detect_drop d (rd_buf r)) as [d1| | |]; try discriminate.
    cbn [obind] in *.
    destruct (advance_reader d1 _) as [r2| | |]; try discriminate.
    cbn [obind] in *. apply IH; [exact H|lia].
Qed.

(** Any two amounts of fuel that are enough give the same result. *)
Lemma llseek_loop_enough (f1 f2 : nat) (i : Z) (r : logic_buffer_reader)
    (d : beaglelogicdev) :
  i < 2 ^ 32 -> (Z.to_nat i <= f1)%nat -> (Z.to_nat i <= f2)%nat ->
  reader_ok r d ->
  exists r' d',
    llseek_loop f1 i r d = Done (r', d') /\
    llseek_loop f2 i r d = Done (r', d') /\ reader_ok r' d'.
Proof.
  intros Hi H1 H2 Hok.
  destruct (llseek_loop_returns (Z.to_nat i) i r d Hi ltac:(lia) Hok)
    as (r' & d' & Hrun & Hok').
  exists r', d'. split; [|split; [|exact Hok']];
    eapply llseek_loop_fuel; eassumption.
Qed.

(** One round of the seek loop: the drop detection, the step and the
    change of buffer. *)
Lemma llseek_round (r : logic_buffer_reader) (d : beaglelogicdev) (j : Z) :
  reader_ok r d -> 0 < j <= remaining r ->
  exists d1 r2,
    detect_drop d (rd_buf r) = Done d1 /\
    advance_reader d1
      (mk_reader (rd_buf r) (wrap32 (pos r + j)) (wrap32 (remaining r - j)))
      = Done r2 /\
    reader_ok r2 d1 /\
    (j < remaining r ->
     r2 = mk_reader (rd_buf r) (wrap32 (pos r + j)) (remaining r - j)).
Proof.
  intros Hok Hj.
  destruct (detect_drop_reader_ok r d Hok) as (d1 & Hdrop & Hok1 & _).
  exists d1.
  assert (Hadv : exists r2,
             advance_reader d1
               (mk_reader (rd_buf r) (wrap32 (pos r + j))
                  (wrap32 (remaining r - j))) = Done r2 /\
             reader_ok r2 d1 /\
             (j < remaining r ->
              r2 = mk_reader (rd_buf r) (wrap32 (pos r + j)) (remaining r - j))).
  { destruct Hok1 as (l & p & Hl & Hsound & Hp & Hlt & Hrem).
    unfold advance_reader. cbn [remaining rd_buf].
    rewrite (wrap32_small (remaining r - j)) by lia.
    destruct (Z.eqb_spec (remaining r - j) 0) as [Hz|Hnz].
    - destruct (lookup_lt_is_Some_2 l p Hlt) as [b Hb].
      rewrite Hp, (deref_lookup d1 l p b Hl Hb). cbn [obind].
      destruct (Hsound p b Hb) as (_ & q & Hq & Hqlt). rewrite Hq.
      destruct (lookup_lt_is_Some_2 l q Hqlt) as [nb Hnb].
      rewrite (deref_lookup d1 l q nb Hl Hnb). cbn [obind].
      destruct (Hsound q nb Hnb) as (Hsz & _).
      eexists. split; [reflexivity|]. split; [|lia].
      exists l, q. cbn [rd_buf remaining].
      rewrite (wrap32_small (size nb)) by lia. auto.
    - eexists. split; [reflexivity|]. split; [|reflexivity].
      exists l, p. cbn [rd_buf remaining]. split; [exact Hl|].
      split; [exact Hsound|]. split; [exact Hp|]. split; [exact Hlt|lia]. }
  destruct Hadv as (r2 & Hadv & Hok2 & Hr2).
  exists r2. auto.
Qed.

Lemma llseek_loop_composes (f : nat) :
  forall (a b : Z) (r : logic_buffer_reader) (d : beaglelogicdev)
         (fb fab : nat),
    0 <= a -> 0 <= b -> a + b < 2 ^ 32 -> reader_ok r d ->
    (Z.to_nat a <= f)%nat -> (Z.to_nat b <= fb)%nat ->
    (Z.to_nat (a + b) <= fab)%nat ->
    exists r1 d1 r2 d2,
      llseek_loop f a r d = Done (r1, d1) /\
      llseek_loop fb b r1 d1 = Done (r2, d2) /\
      llseek_loop fab (a + b) r d = Done (r2, d2).
Proof.
  induction f as [|f IH]; intros a b r d fb fab Ha Hb Hab Hok Hf Hfb Hfab.
  - assert (a = 0) by lia. subst a.
    destruct (llseek_loop_enough fb fab b r d ltac:(lia) Hfb
                ltac:(rewrite Z.add_0_l in Hfab; exact Hfab) Hok)
      as (r2 & d2 & H1 & H2 & _).
    exists r, d, r2, d2. rewrite Z.add_0_l. auto.
  - destruct (Z.eq_dec a 0) as [->|Hne].
    { destruct (llseek_loop_enough fb fab b r d ltac:(lia) Hfb
                  ltac:(rewrite Z.add_0_l in Hfab; exact Hfab) Hok)
        as (r2 & d2 & H1 & H2 & _).
      exists r, d, r2, d2. rewrite Z.add_0_l. auto. }
    assert (Hrem : 0 < remaining r < 2 ^ 32)
      by (destruct Hok as (l & p & _ & _ & _ & _ & Hrem); exact Hrem).
    destruct fab as [|fab]; [lia|].
    cbn [llseek_loop].
    destruct (Z.leb_spec a 0) as [|_]; [lia|].
    destruct (Z.leb_spec (a + b) 0) as [|_]; [lia|].
    rewrite (wrap32_small a), (wrap32_small (a + b)) by lia.
    destruct (Z.le_gt_cases (remaining r) a) as [Hge|Hlt].
    + (* the first seek uses up the buffer *)
      rewrite (Z.min_r a), (Z.min_r (a + b)) by lia.
      destruct (llseek_round r d (remaining r) Hok ltac:(lia))
        as (d' & r' & Hdrop & Hadv & Hok' & _).
      rewrite Hdrop. cbn [obind]. rewrite Hadv. cbn [obind].
      replace (a + b - remaining r) with ((a - remaining r) + b) by lia.
      apply IH; try lia. exact Hok'.
    + (* the first seek stays within the buffer *)
      rewrite (Z.min_l a) by lia.
      destruct (llseek_round r d a Hok ltac:(lia))
        as (d' & r' & Hdrop & Hadv & Hok' & Hr').
      specialize (Hr' Hlt). rewrite Hdrop. cbn [obind].
      rewrite Hadv. cbn [obind]. rewrite Z.sub_diag.
      assert (Hzero : llseek_loop f 0 r' d' = Done (r', d'))
        by (destruct f; reflexivity).
      rewrite Hzero.
      destruct (Z.eq_dec b 0) as [->|Hbne].
      * exists r', d', r', d'. split; [reflexivity|].
        split; [destruct fb; reflexivity|].
        rewrite Z.add_0_r, (Z.min_l a) by lia.
        rewrite Hadv. cbn [obind]. rewrite Z.sub_diag.
        destruct fab; reflexivity.
      * destruct fb as [|fb]; [lia|].
        set (jb := Z.min b (remaining r - a)).
        assert (Hjb : 0 < jb <= remaining r - a) by (unfold jb; lia).
        replace (Z.min (a + b) (remaining r)) with (a + jb) by (unfold jb; lia).
        assert (Hrd : rd_buf r' = rd_buf r) by (subst r'; reflexivity).
        assert (Hrm : remaining r' = remaining r - a) by (subst r'; reflexivity).
        assert (Hps : pos r' = wrap32 (pos r + a)) by (subst r'; reflexivity).
        destruct (llseek_round r' d' jb Hok' ltac:(lia))
          as (d'' & r'' & Hdrop2 & Hadv2 & Hok'' & _).
        rewrite Hrd in Hdrop2.
        rewrite (detect_drop_idem d d' _ Hdrop) in Hdrop2.
        injection Hdrop2 as <-.
        rewrite Hrd, Hrm, Hps in Hadv2.
        replace (wrap32 (wrap32 (pos r + a) + jb)) with (wrap32 (pos r + (a + jb)))
          in Hadv2 by (rewrite wrap32_add_l; f_equal; lia).
        replace (remaining r - a - jb) with (remaining r - (a + jb)) in Hadv2 by lia.
        destruct (llseek_loop_enough fb fab (b - jb) r'' d' ltac:(lia)
                    ltac:(lia) ltac:(lia) Hok'')
          as (r2 & d2 & H1 & H2 & _).
        exists r', d', r2, d2. split; [reflexivity|]. split.
        -- cbn [llseek_loop]. destruct (Z.leb_spec b 0) as [|_]; [lia|].
           rewrite Hrd, (detect_drop_idem d d' _ Hdrop). cbn [obind].
           rewrite (wrap32_small b), Hrm, Hps by lia. fold jb.
           replace (wrap32 (wrap32 (pos r + a) + jb))
             with (wrap32 (pos r + (a + jb)))
             by (rewrite wrap32_add_l; f_equal; lia).
           replace (remaining r - a - jb) with (remaining r - (a + jb)) by lia.
           rewrite Hadv2. cbn [obind]. exact H1.
        -- rewrite Hadv2. cbn [obind].
           replace (a + b - (a + jb)) with (b - jb) by lia. exact H2.
Qed.

(** X21: relative seeks compose.  For a reader in a sound ring and
    forward offsets [a] and [b] with [a + b < 2^32], seeking by [a] and
    then by [b] returns both times and leaves the reader and the device
    exactly as one seek by [a + b] does, the buffers marked Dropped on the
    way included. *)
Theorem seek_composes (E : environment) (fuel : nat) (a b : Z)
    (r : logic_buffer_reader) (d : beaglelogicdev) :
  reader_ok r d -> 0 <= a -> 0 <= b -> a + b < 2 ^ 32 ->
  (Z.to_nat (a + b) <= fuel)%nat ->
  exists r1 d1 r2 d2,
    beaglelogic_f_llseek E fuel a SEEK_CUR r d = Done (a, r1, d1) /\
    beaglelogic_f_llseek E fuel b SEEK_CUR r1 d1 = Done (b, r2, d2) /\
    beaglelogic_f_llseek E fuel (a + b) SEEK_CUR r d = Done (a + b, r2, d2).
Proof.
  intros Hok Ha Hb Hab Hfuel.
  destruct (llseek_loop_composes fuel a b r d fuel fuel)
    as (r1 & d1 & r2 & d2 & H1 & H2 & H3); try lia; [exact Hok|].
  exists r1, d1, r2, d2. unfold beaglelogic_f_llseek.
  change (SEEK_CUR =? SEEK_CUR) with true. cbv iota.
  rewrite H1, H2, H3. auto.
Qed.

(** On the example ring: 3000 bytes, then 2000 more, against 5000 at
    once. *)
Lemma seek_composes_witness :
  let d := example_dev BL_TRIGGERFLAGS_CONTINUOUS STATE_BL_RUNNING true
             STATE_BL_BUF_UNMAPPED STATE_BL_BUF_MAPPED in
  let r := mk_reader (Some 0%nat) 0 4096 in
  exists r1 d1 r2 d2,
    beaglelogic_f_llseek quiet_env 5000 3000 SEEK_CUR r d = Done (3000, r1, d1) /\
    beaglelogic_f_llseek quiet_env 5000 2000 SEEK_CUR r1 d1
      = Done (2000, r2, d2) /\
    beaglelogic_f_llseek quiet_env 5000 (3000 + 2000) SEEK_CUR r d
      = Done (3000 + 2000, r2, d2).
Proof.
  cbn zeta.
  apply (seek_composes quiet_env 5000 3000 2000 (mk_reader (Some 0%nat) 0 4096)
           (example_dev BL_TRIGGERFLAGS_CONTINUOUS STATE_BL_RUNNING true
              STATE_BL_BUF_UNMAPPED STATE_BL_BUF_MAPPED)).
  - apply example_reader_ok.
  - lia.
  - lia.
  - lia.
  - lia.
Defined.

(** X22: a short seek moves the reader as a read does.  For a reader in
    the middle of a buffer and a length [n] of at most what remains in it,
    a read of [n] bytes (with a working copy) and a relative seek by [n]
    both return [n] and leave the same reader and the same device: the
    seek runs the same drop detection and makes the same change of buffer
    at the end of the buffer, only without copying. *)
Theorem short_seek_moves_like_read (E : environment) (fuel : nat)
    (nonblock : bool) (n : Z) (r : logic_buffer_reader)
    (d : beaglelogicdev) :
  reader_ok r d -> state d <> STATE_BL_ERROR -> 0 < pos r ->
  copy_fails E = false ->
  0 < n <= remaining r -> remaining r < 2 ^ 31 -> (0 < fuel)%nat ->
  exists r' d',
    beaglelogic_f_read E nonblock n r d = Done (n, r', d') /\
    beaglelogic_f_llseek E fuel n SEEK_CUR r d = Done (n, r', d').
Proof.
  intros Hok Herr Hpos Hcopy Hn Hrem Hfuel.
  destruct (llseek_round r d n Hok Hn) as (d' & r' & Hdrop & Hadv & Hok' & _).
  exists r', d'. split.
  - unfold beaglelogic_f_read.
    destruct (Z.eqb_spec (state d) STATE_BL_ERROR) as [|_]; [contradiction|].
    destruct (Z.ltb_spec 0 (pos r)) as [_|]; [|lia].
    unfold perform_copy. cbn zeta.
    destruct Hok as (l & p & Hl & Hsound & Hp & Hlt & _).
    destruct (lookup_lt_is_Some_2 l p Hlt) as [b Hb].
    rewrite Hp in *. rewrite (deref_lookup d l p b Hl Hb). cbn [obind].
    rewrite Hcopy, Hdrop. cbn [obind].
    rewrite (Z.min_r (remaining r) n), (to_int32_small n) by lia.
    rewrite Hadv. reflexivity.
  - unfold beaglelogic_f_llseek.
    change (SEEK_CUR =? SEEK_CUR) with true. cbv iota.
    destruct fuel as [|fuel]; [lia|]. cbn [llseek_loop].
    destruct (Z.leb_spec n 0) as [|_]; [lia|].
    rewrite Hdrop. cbn [obind].
    rewrite (wrap32_small n), (Z.min_l n) by lia.
    rewrite Hadv. cbn [obind]. rewrite Z.sub_diag.
    destruct fuel; reflexivity.
Qed.

(** 500 bytes from position 100 of the first buffer of the example ring. *)
Lemma short_seek_moves_like_read_witness :
  let d := example_dev BL_TRIGGERFLAGS_CONTINUOUS STATE_BL_RUNNING true
             STATE_BL_BUF_UNMAPPED STATE_BL_BUF_MAPPED in
  let r := mk_reader (Some 0%nat) 100 3996 in
  exists r' d',
    beaglelogic_f_read quiet_env false 500 r d = Done (500, r', d') /\
    beaglelogic_f_llseek quiet_env 1 500 SEEK_CUR r d = Done (500, r', d').
Proof.
  cbn zeta.
  apply (short_seek_moves_like_read quiet_env 1 false 500
           (mk_reader (Some 0%nat) 100 3996)
           (example_dev BL_TRIGGERFLAGS_CONTINUOUS STATE_BL_RUNNING true
              STATE_BL_BUF_UNMAPPED STATE_BL_BUF_MAPPED)).
  - exists (example_ring STATE_BL_BUF_UNMAPPED STATE_BL_BUF_MAPPED), 0%nat.
    split; [reflexivity|]. split; [apply example_ring_sound|].
    split; [reflexivity|]. split; simpl; lia.
  - discriminate.
  - simpl. lia.
  - reflexivity.
  - simpl. lia.
  - simpl. lia.
  - lia.
Defined.


(** ** Reset by seek *)

Lemma write_buf_state_done (d d' : beaglelogicdev) (p : option nat) (s : Z) :
  write_buf_state d p s = Done d' ->
  exists i l b, p = Some i /\ buffers d = Some l /\ l !! i = Some b /\
    d' = set_buffers d (Some (<[i := set_buf_state b s]> l)).
Proof.
  unfold write_buf_state. destruct p as [i|]; [|discriminate].
  destruct (buffers d) as [l|] eqn:Hl; [|discriminate].
  destruct (l !! i) as [b|] eqn:Hb; [|discriminate].
  intros [= <-]. exists i, l, b. auto.
Qed.

(** A buffer that is Unmapped stays Unmapped, and the sample rate stays,
    whatever interrupt is served. *)
Lemma serve_irq_keeps_unmapped (irqno : Z) (d d' : beaglelogicdev)
    (q : nat) (U : Z) :
  beaglelogic_serve_irq irqno d = Done d' ->
  samplerate d' = samplerate d /\
  (unmapped_in d q U -> unmapped_in d' q U).
Proof.
  unfold beaglelogic_serve_irq. intros H.
  destruct (irqno =? from_bl_irq_1 d).
  - apply obind_done in H as (d2 & Hun & H).
    apply write_buf_state_done in Hun as (i & l & b & _ & Hl & Hb & ->).
    cbn [buffers set_lastbufready] in Hl.
    assert (Hkeep : unmapped_in d q U ->
              exists b', <[i := set_buf_state b STATE_BL_BUF_UNMAPPED]> l !! q
                         = Some b' /\
                buf_state b' = STATE_BL_BUF_UNMAPPED /\ size b' = U).
    { intros (l0 & c & Hl0 & Hc & Hst & Hsz).
      rewrite Hl in Hl0. injection Hl0 as <-.
      destruct (decide (i = q)) as [->|Hne].
      - rewrite Hb in Hc. injection Hc as <-.
        eexists. split; [apply list_lookup_insert_eq; eapply lookup_lt_Some; exact Hb|].
        split; [reflexivity|exact Hsz].
      - exists c. rewrite list_lookup_insert_ne by exact Hne. auto. }
    apply obind_done in H as (adv & _ & H). destruct adv.
    + apply obind_done in H as (b1 & _ & H).
      apply obind_done in H as (_z & _ & H). injection H as <-.
      split; [reflexivity|].
      intros Hq. destruct (Hkeep Hq) as (b' & Hb' & Hst & Hsz).
      eexists. exists b'. split; [reflexivity|]. auto.
    + injection H as <-. split; [reflexivity|].
      intros Hq. destruct (Hkeep Hq) as (b' & Hb' & Hst & Hsz).
      eexists. exists b'. split; [reflexivity|]. auto.
  - destruct (irqno =? from_bl_irq_2 d); [|injection H as <-; auto].
    destruct (state d <=? STATE_BL_ARMED); [injection H as <-; auto|].
    destruct (_ && _); [injection H as <-; auto|].
    cbn zeta in H. destruct (_ && _); injection H as <-; auto.
Qed.

Lemma sleep_until_keeps_unmapped (cond : beaglelogicdev -> outcome bool)
    (irqs : list Z) (e : wait_end) (q : nat) (U : Z) :
  forall (d d' : beaglelogicdev) (w : wake),
    sleep_until cond irqs e d = Done (w, d') ->
    samplerate d' = samplerate d /\
    (unmapped_in d q U -> unmapped_in d' q U).
Proof.
  induction irqs as [|irq rest IH]; intros d d' w H.
  - cbn [sleep_until] in H. apply obind_done in H as (c & _ & H).
    destruct c; [injection H as _ <-; auto|].
    destruct e; try discriminate; injection H as _ <-; auto.
  - cbn [sleep_until] in H. apply obind_done in H as (c & _ & H).
    destruct c; [injection H as _ <-; auto|].
    apply obind_done in H as (d1 & Hirq & H).
    destruct (serve_irq_keeps_unmapped irq d d1 q U Hirq) as [Hs1 Hq1].
    destruct (IH d1 d' w H) as [Hs2 Hq2].
    split; [congruence|auto].
Qed.

Lemma stop_keeps_unmapped (E : environment) (d d' : beaglelogicdev)
    (q : nat) (U : Z) :
  beaglelogic_stop E d = Done d' ->
  samplerate d' = samplerate d /\
  (unmapped_in d q U -> unmapped_in d' q U).
Proof.
  unfold beaglelogic_stop, mutex_is_locked. intros H.
  destruct (mutex d); [|injection H as <-; auto].
  apply obind_done in H as (d1 & H1 & H). injection H as <-.
  assert (Hgoal : samplerate d1 = samplerate d /\
                  (unmapped_in d q U -> unmapped_in d1 q U)).
  { destruct (state d =? STATE_BL_RUNNING); [|injection H1 as <-; auto].
    unfold wait_event_interruptible_timeout in H1.
    apply obind_done in H1 as ([ret d3] & Hwait & H1).
    apply obind_done in Hwait as ([w d4] & Hsleep & Hwait).
    destruct (sleep_until_keeps_unmapped _ _ _ q U _ _ _ Hsleep) as [Hs Hq].
    assert (Hd3 : d3 = d4) by (destruct w; injection Hwait as _ <-; reflexivity).
    subst d4.
    assert (Hd1 : samplerate d1 = samplerate d3 /\
                  buffers d1 = buffers d3).
    { destruct (ret =? 0).
      - injection H1 as <-. unfold stop_recover.
        destruct (negb _); [split; reflexivity|].
        destruct (negb _); split; reflexivity.
      - destruct (ret =? - ERESTARTSYS); injection H1 as <-; split; reflexivity. }
    destruct Hd1 as [Hs1 Hb1]. split; [rewrite Hs1, Hs; reflexivity|].
    intros Hin. destruct (Hq Hin) as (l & b & Hl & Hb & Hst & Hsz).
    exists l, b. rewrite Hb1. auto. }
  destruct Hgoal as [Hs Hq]. split; [exact Hs|].
  intros Hin. destruct (Hq Hin) as (l & b & Hl & Hb & Hst & Hsz).
  exists l, b. auto.
Qed.

(** X23: a reset by seek does not re-arm the ring.  [llseek] to offset 0
    with [SEEK_SET] on a Running device that holds the lock returns 0,
    resets the reader and stops the capture (the device is Initialized or
    Error and the lock is free), but a buffer 0 that was Unmapped is still
    Unmapped: the call to [beaglelogic_map_buffer] writes no state.  The
    read that starts the next capture therefore does not wait for the
    firmware: blocking or not, and with no interrupt served, it returns its
    bytes from buffer 0 as the previous capture left it. *)
Theorem seek_reset_does_not_rearm (E E' : environment) (fuel : nat)
    (nonblock : bool) (r : logic_buffer_reader) (d : beaglelogicdev)
    (U sz : Z) :
  state d = STATE_BL_RUNNING -> mutex d = true -> ring_ok d ->
  unmapped_in d 0 U -> samplerate d <> 0 -> copy_fails E' = false ->
  0 < sz < U -> U < 2 ^ 31 ->
  exists d1,
    beaglelogic_f_llseek E fuel 0 SEEK_SET r d
      = Done (0, mk_reader None 0 0, d1) /\
    mutex d1 = false /\
    (state d1 = STATE_BL_INITIALIZED \/ state d1 = STATE_BL_ERROR) /\
    unmapped_in d1 0 U /\
    (state d1 = STATE_BL_INITIALIZED ->
     exists d2,
       beaglelogic_f_read E' nonblock sz (mk_reader None 0 0) d1
         = Done (sz, mk_reader (Some 0%nat) sz (U - sz), d2) /\
       state d2 = STATE_BL_RUNNING /\ mutex d2 = true).
Proof.
  intros Hs Hm Hring Hun Hrate Hcopy Hsz HU.
  destruct (stop_returns E d (fun _ _ => Hring)) as (d1 & Hstop & Hm1 & Hst).
  destruct (stop_keeps_unmapped E d d1 0 U Hstop) as [Hrate1 Hkeep].
  specialize (Hkeep Hun).
  assert (Hstate : state d1 = STATE_BL_INITIALIZED \/ state d1 = STATE_BL_ERROR).
  { destruct Hst as [[_ [Hfree|Hn]]|[_ Hst]]; [congruence|contradiction|exact Hst]. }
  exists d1. split; [|split; [exact Hm1|split; [exact Hstate|split; [exact Hkeep|]]]].
  - unfold beaglelogic_f_llseek.
    change (SEEK_SET =? SEEK_CUR) with false.
    change ((SEEK_SET =? SEEK_SET) && (0 =? 0)) with true. cbv iota.
    rewrite Hstop. cbn [obind].
    destruct Hkeep as (l & b & Hl & Hb & _).
    unfold buffers_ptr. rewrite Hl.
    rewrite (map_buffer_mappable d1 l 0 b Hl Hb). reflexivity.
  - intros Hinit. destruct Hkeep as (l & b & Hl & Hb & Hbst & Hbsz).
    destruct (start_free E' d1 Hm1 ltac:(rewrite Hrate1; exact Hrate))
      as (x & Hstart).
    set (d2 := set_lasterror _ _) in Hstart.
    assert (Hl2 : buffers d2 = Some l) by exact Hl.
    exists d2. split; [|split; reflexivity].
    unfold beaglelogic_f_read. rewrite Hinit.
    change (STATE_BL_INITIALIZED =? STATE_BL_ERROR) with false.
    cbn [pos rd_buf]. change (0 <? 0) with false. cbv iota.
    assert (Hp : buffers_ptr d1 = Some 0%nat)
      by (unfold buffers_ptr; rewrite Hl; reflexivity).
    rewrite Hp, (deref_lookup d1 l 0 b Hl Hb). cbn [obind].
    change (negb (STATE_BL_INITIALIZED =? STATE_BL_RUNNING)) with true.
    cbv iota. rewrite Hstart. cbn [obind negb Z.eqb].
    rewrite Hbsz, (wrap32_small U) by lia.
    assert (Hcopy2 : perform_copy E' sz (mk_reader (Some 0%nat) 0 U) d2
                     = Done (sz, mk_reader (Some 0%nat) sz (U - sz), d2)).
    { unfold perform_copy. cbn zeta. cbn [rd_buf remaining pos].
      rewrite (deref_lookup d2 l 0 b Hl2 Hb). cbn [obind]. rewrite Hcopy.
      rewrite (detect_drop_lookup d2 l 0 b Hl2 Hb), Hbst.
      change (STATE_BL_BUF_UNMAPPED =? STATE_BL_BUF_MAPPED) with false.
      cbv iota. cbn [obind].
      rewrite (Z.min_r U sz), (to_int32_small sz) by lia.
      unfold advance_reader. cbn [remaining].
      rewrite Z.add_0_l, (wrap32_small sz), (wrap32_small (U - sz)) by lia.
      destruct (Z.eqb_spec (U - sz) 0) as [|_]; [lia|]. reflexivity. }
    unfold read_when_ready. destruct nonblock.
    + cbn [rd_buf]. rewrite (deref_lookup d2 l 0 b Hl2 Hb). cbn [obind].
      rewrite Hbst.
      change (negb (STATE_BL_BUF_UNMAPPED =? STATE_BL_BUF_UNMAPPED)) with false.
      cbv iota. exact Hcopy2.
    + unfold wait_event_interruptible. cbn [rd_buf].
      assert (Hsleep : forall irqs e,
                sleep_until
                  (fun x => do b0 <- deref x (Some 0%nat);
                            Done (buf_state b0 =? STATE_BL_BUF_UNMAPPED))
                  irqs e d2 = Done (CondTrue, d2)).
      { intros irqs e. destruct irqs; cbn [sleep_until];
          rewrite (deref_lookup d2 l 0 b Hl2 Hb); cbn [obind];
          rewrite Hbst; reflexivity. }
      rewrite Hsleep. cbn [obind negb Z.eqb]. exact Hcopy2.
Qed.

(** A continuous capture over the example ring, both buffers filled; the
    capture-complete interrupt arrives while the seek waits. *)
Lemma seek_reset_does_not_rearm_witness :
  let d := example_dev BL_TRIGGERFLAGS_CONTINUOUS STATE_BL_RUNNING true
             STATE_BL_BUF_UNMAPPED STATE_BL_BUF_UNMAPPED in
  exists d1,
    beaglelogic_f_llseek (mk_environment fw_ack [] [2] false 0 0 false false)
      0 0 SEEK_SET (mk_reader (Some 1%nat) 100 3996) d
      = Done (0, mk_reader None 0 0, d1) /\
    mutex d1 = false /\
    (state d1 = STATE_BL_INITIALIZED \/ state d1 = STATE_BL_ERROR) /\
    unmapped_in d1 0 4096 /\
    (state d1 = STATE_BL_INITIALIZED ->
     exists d2,
       beaglelogic_f_read quiet_env false 100 (mk_reader None 0 0) d1
         = Done (100, mk_reader (Some 0%nat) 100 (4096 - 100), d2) /\
       state d2 = STATE_BL_RUNNING /\ mutex d2 = true).
Proof.
  cbn zeta.
  apply (seek_reset_does_not_rearm
           (mk_environment fw_ack [] [2] false 0 0 false false) quiet_env
           0 false (mk_reader (Some 1%nat) 100 3996)
           (example_dev BL_TRIGGERFLAGS_CONTINUOUS STATE_BL_RUNNING true
              STATE_BL_BUF_UNMAPPED STATE_BL_BUF_UNMAPPED) 4096 100).
  - reflexivity.
  - reflexivity.
  - apply example_ring_ok.
  - eexists. eexists. split; [reflexivity|]. split; [reflexivity|].
    split; reflexivity.
  - discriminate.
  - reflexivity.
  - lia.
  - lia.
Defined.


(** ** The driver and the firmware *)

Lemma ceil_div_multiple (n u : Z) : 0 < u -> ceil_div (n * u) u = n.
Proof.
  intros Hu. unfold ceil_div.
  rewrite <- Z.mul_opp_l, Z.div_mul by lia. lia.
Qed.

(** X24: the driver against the firmware of this repository.  The
    handshake of the probe with [handle_command] succeeds: the version
    reads 0.3 and the capacity taken from the firmware is 128 buffers, the
    number of entries of the firmware's buffer list.  A ring of that many
    buffers (of any unit size [U] with [129 * U <= 2^32]) is therefore
    accepted by [beaglelogic_memalloc], and its submission writes a
    descriptor for each of the 128 buffers and the terminator after them:
    129 entries, one more than the list holds. *)
Theorem full_ring_overruns_firmware_table (configure irq1 irq2 U : Z)
    (d0 : beaglelogicdev) (A : allocator) (heap : list dma_region) :
  0 < U -> (MAX_BUFLIST_ENTRIES + 1) * U <= 2 ^ 32 ->
  kzalloc_ok A = true ->
  (forall k, fst (dma_alloc_coherent A k) <> 0) ->
  exists d d1 heap1 d2 entries,
    probe_handshake (pru0_firmware configure) irq1 irq2 d0
      = Some (MAJORVER, MINORVER, d) /\
    maxbufcount d = MAX_BUFLIST_ENTRIES /\
    beaglelogic_memalloc A (set_bufunitsize d U) (MAX_BUFLIST_ENTRIES * U) heap
      = Done (0, d1, heap1) /\
    bufcount d1 = MAX_BUFLIST_ENTRIES /\
    beaglelogic_map_and_submit_all_buffers d1 = Done (0, d2, entries) /\
    Z.of_nat (length entries) = MAX_BUFLIST_ENTRIES + 1.
Proof.
  intros HU Hfit Hkz Hdma.
  unfold MAX_BUFLIST_ENTRIES in *.
  set (d := mk_beaglelogicdev irq1 irq2 200000000 false None None None 0
              (mk_capture_context 0 (wrap32 128) 0 0 0 0)
              128 (4 * 1024 * 1024) (100 * 1000 * 1000) 0 1
              STATE_BL_INITIALIZED 0).
  destruct (memalloc_count_without_wrap A (set_bufunitsize d U) (128 * U) heap)
    as [_ Hok]; [lia|exact HU|cbn [bufunitsize set_bufunitsize]; lia
                |reflexivity|cbn; lia|].
  cbn [bufunitsize set_bufunitsize maxbufcount] in Hok.
  rewrite (ceil_div_multiple 128 U HU) in Hok.
  change (Z.max 128 2) with 128 in Hok.
  destruct (Hok ltac:(cbn; lia) Hkz ltac:(intros k _; apply Hdma))
    as (l & heap1 & Halloc & Hlen & _ & Hall).
  set (d1 := set_buffers (set_bufcount (set_bufunitsize d U) 128) (Some l)) in *.
  exists d, d1, heap1. eexists. eexists.
  split; [reflexivity|]. split; [reflexivity|]. split; [exact Halloc|].
  split; [reflexivity|]. split.
  - apply (submit_run d1 l); [reflexivity|symmetry; exact Hlen|].
    intros k b Hb. destruct (Hall k) as (b' & Hb' & _ & Hst).
    + apply lookup_lt_Some in Hb. lia.
    + rewrite Hb in Hb'. injection Hb' as <-. left. exact Hst.
  - rewrite length_app, length_fmap, Hlen. simpl. lia.
Qed.

(** Units of 4096 bytes, with the allocator that never fails. *)
Lemma full_ring_overruns_firmware_table_witness :
  exists d d1 heap1 d2 entries,
    probe_handshake (pru0_firmware 0) 1 2 unprobed_dev
      = Some (MAJORVER, MINORVER, d) /\
    maxbufcount d = MAX_BUFLIST_ENTRIES /\
    beaglelogic_memalloc good_allocator (set_bufunitsize d 4096)
      (MAX_BUFLIST_ENTRIES * 4096) [] = Done (0, d1, heap1) /\
    bufcount d1 = MAX_BUFLIST_ENTRIES /\
    beaglelogic_map_and_submit_all_buffers d1 = Done (0, d2, entries) /\
    Z.of_nat (length entries) = MAX_BUFLIST_ENTRIES + 1.
Proof.
  apply (full_ring_overruns_firmware_table 0 1 2 4096 unprobed_dev
           good_allocator []).
  - lia.
  - vm_compute. discriminate.
  - reflexivity.
  - intros k. cbn. lia.
Defined.


(** ** The reader stays inside its buffer *)

Lemma reader_within_buffers (r : logic_buffer_reader) (d d' : beaglelogicdev) :
  buffers d' = buffers d -> reader_within r d -> reader_within r d'.
Proof.
  intros Hb (l & p & b & Hl & H). exists l, p, b. rewrite Hb. auto.
Qed.

Lemma write_buf_state_within (r : logic_buffer_reader)
    (d d' : beaglelogicdev) (q : option nat) (s : Z) :
  write_buf_state d q s = Done d' -> reader_within r d -> reader_within r d'.
Proof.
  intros Hw (l & p & b & Hl & Hsound & Hsmall & Hp & Hb & Hpos & Hrem & Hsum).
  apply write_buf_state_done in Hw as (i & l0 & c & -> & Hl0 & Hc & ->).
  rewrite Hl in Hl0. injection Hl0 as <-.
  assert (Hshape : forall k x, <[i := set_buf_state c s]> l !! k = Some x ->
            exists x0, l !! k = Some x0 /\ size x = size x0).
  { intros k x Hx.
    destruct (next_after_state_write l i k c x s Hc Hx) as (x0 & Hx0 & _ & Hsz & _).
    eauto. }
  destruct (decide (i = p)) as [->|Hne].
  - rewrite Hb in Hc. injection Hc as <-.
    exists (<[p := set_buf_state b s]> l), p, (set_buf_state b s).
    split; [reflexivity|]. split; [apply ring_sound_state_write; assumption|].
    split.
    { intros k x Hx. destruct (Hshape k x Hx) as (x0 & Hx0 & ->). eauto. }
    split; [exact Hp|].
    split; [apply list_lookup_insert_eq; eapply lookup_lt_Some; exact Hb|].
    auto.
  - exists (<[i := set_buf_state c s]> l), p, b.
    split; [reflexivity|]. split; [apply ring_sound_state_write; assumption|].
    split.
    { intros k x Hx. destruct (Hshape k x Hx) as (x0 & Hx0 & ->). eauto. }
    split; [exact Hp|].
    split; [rewrite list_lookup_insert_ne by exact Hne; exact Hb|].
    auto.
Qed.

Lemma detect_drop_within (r : logic_buffer_reader) (d d' : beaglelogicdev)
    (q : option nat) :
  detect_drop d q = Done d' -> reader_within r d -> reader_within r d'.
Proof.
  unfold detect_drop. intros H Hin.
  apply obind_done in H as (b & _ & H).
  destruct (buf_state b =? STATE_BL_BUF_MAPPED).
  - apply obind_done in H as (d1 & Hw & H). injection H as <-.
    eapply reader_within_buffers; [|eapply write_buf_state_within; eassumption].
    reflexivity.
  - injection H as <-. exact Hin.
Qed.

Lemma serve_irq_within (r : logic_buffer_reader) (irqno : Z)
    (d d' : beaglelogicdev) :
  beaglelogic_serve_irq irqno d = Done d' ->
  reader_within r d -> reader_within r d'.
Proof.
  unfold beaglelogic_serve_irq. intros H Hin.
  destruct (irqno =? from_bl_irq_1 d).
  - apply obind_done in H as (d2 & Hun & H).
    assert (Hin2 : reader_within r d2).
    { eapply write_buf_state_within; [exact Hun|].
      eapply reader_within_buffers; [|exact Hin]. reflexivity. }
    apply obind_done in H as (adv & _ & H). destruct adv.
    + apply obind_done in H as (b1 & _ & H).
      apply obind_done in H as (_z & _ & H). injection H as <-.
      eapply reader_within_buffers; [|exact Hin2]. reflexivity.
    + injection H as <-. exact Hin2.
  - destruct (irqno =? from_bl_irq_2 d); [|injection H as <-; exact Hin].
    destruct (state d <=? STATE_BL_ARMED); [injection H as <-; exact Hin|].
    destruct (_ && _);
      [injection H as <-; eapply reader_within_buffers; [|exact Hin]; reflexivity|].
    cbn zeta in H. destruct (_ && _); injection H as <-;
      (eapply reader_within_buffers; [|exact Hin]; reflexivity).
Qed.

Lemma sleep_until_within (r : logic_buffer_reader)
    (cond : beaglelogicdev -> outcome bool) (irqs : list Z) (e : wait_end) :
  forall (d d' : beaglelogicdev) (w : wake),
    sleep_until cond irqs e d = Done (w, d') ->
    reader_within r d -> reader_within r d'.
Proof.
  induction irqs as [|irq rest IH]; intros d d' w H Hin.
  - cbn [sleep_until] in H. apply obind_done in H as (c & _ & H).
    destruct c; [injection H as _ <-; exact Hin|].
    destruct e; try discriminate; injection H as _ <-; exact Hin.
  - cbn [sleep_until] in H. apply obind_done in H as (c & _ & H).
    destruct c; [injection H as _ <-; exact Hin|].
    apply obind_done in H as (d1 & Hirq & H).
    eapply IH; [exact H|]. eapply serve_irq_within; eassumption.
Qed.

(** One step of a read or a seek: [j] bytes further in the buffer, and on
    to the next buffer at its end. *)
Lemma advance_within (r : logic_buffer_reader) (d : beaglelogicdev) (j : Z)
    (r2 : logic_buffer_reader) :
  reader_within r d -> 0 <= j <= remaining r ->
  advance_reader d
    (mk_reader (rd_buf r) (wrap32 (pos r + j)) (wrap32 (remaining r - j)))
    = Done r2 ->
  reader_within r2 d.
Proof.
  intros (l & p & b & Hl & Hsound & Hsmall & Hp & Hb & Hpos & Hrem & Hsum) Hj.
  pose proof (Hsmall p b Hb) as Hsz.
  unfold advance_reader. cbn [remaining rd_buf].
  rewrite (wrap32_small (remaining r - j)), (wrap32_small (pos r + j)) by lia.
  destruct (Z.eqb_spec (remaining r - j) 0) as [Hz|Hnz].
  - rewrite Hp, (deref_lookup d l p b Hl Hb). cbn [obind].
    destruct (Hsound p b Hb) as (_ & q & Hq & Hqlt). rewrite Hq.
    destruct (lookup_lt_is_Some_2 l q Hqlt) as [nb Hnb].
    rewrite (deref_lookup d l q nb Hl Hnb). cbn [obind].
    destruct (Hsound q nb Hnb) as (Hnsz & _).
    intros [= <-]. exists l, q, nb. cbn [rd_buf pos remaining].
    rewrite (wrap32_small (size nb)) by lia.
    split; [exact Hl|]. split; [exact Hsound|]. split; [exact Hsmall|].
    split; [reflexivity|]. split; [exact Hnb|]. lia.
  - intros [= <-]. exists l, p, b. cbn [rd_buf pos remaining].
    split; [exact Hl|]. split; [exact Hsound|]. split; [exact Hsmall|].
    split; [exact Hp|]. split; [exact Hb|]. lia.
Qed.

Lemma reader_within_remaining (r : logic_buffer_reader) (d : beaglelogicdev) :
  reader_within r d -> 0 < remaining r < 2 ^ 31.
Proof.
  intros (l & p & b & _ & _ & Hsmall & _ & Hb & Hpos & Hrem & Hsum).
  pose proof (Hsmall p b Hb). lia.
Qed.

Lemma perform_copy_within (E : environment) (sz : Z)
    (r r' : logic_buffer_reader) (d d' : beaglelogicdev) (ret : Z) :
  reader_within r d -> 0 <= sz ->
  perform_copy E sz r d = Done (ret, r', d') ->
  reader_within r' d' /\ (ret < 0 \/ ret <= sz /\ ret <= remaining r).
Proof.
  intros Hin Hsz. pose proof (reader_within_remaining r d Hin) as Hrem.
  unfold perform_copy. cbn zeta.
  rewrite (to_int32_small (Z.min (remaining r) sz)) by lia.
  intros H. apply obind_done in H as (_b & _ & H).
  destruct (copy_fails E).
  { injection H as <- <- <-. split; [exact Hin|left; reflexivity]. }
  apply obind_done in H as (d1 & Hdrop & H).
  apply obind_done in H as (r2 & Hadv & H). injection H as <- <- <-.
  pose proof (detect_drop_within r d d1 _ Hdrop Hin) as Hin1.
  split; [|right; lia].
  eapply (advance_within r d1 (Z.min (remaining r) sz)); [exact Hin1|lia|exact Hadv].
Qed.

Lemma llseek_loop_within (fuel : nat) :
  forall (i : Z) (r r' : logic_buffer_reader) (d d' : beaglelogicdev),
    reader_within r d -> llseek_loop fuel i r d = Done (r', d') ->
    reader_within r' d'.
Proof.
  induction fuel as [|fuel IH]; intros i r r' d d' Hin H.
  - cbn [llseek_loop] in H. destruct (i <=? 0); [|discriminate].
    injection H as <- <-. exact Hin.
  - cbn [llseek_loop] in H. destruct (i <=? 0).
    + injection H as <- <-. exact Hin.
    + apply obind_done in H as (d1 & Hdrop & H).
      apply obind_done in H as (r2 & Hadv & H).
      pose proof (detect_drop_within r d d1 _ Hdrop Hin) as Hin1.
      pose proof (reader_within_remaining r d Hin) as Hrem.
      pose proof (wrap32_range i) as Hw.
      eapply IH; [|exact H].
      eapply (advance_within r d1 (Z.min (wrap32 i) (remaining r)));
        [exact Hin1|lia|exact Hadv].
Qed.

(** X26: the reader never leaves its buffer.  For a reader inside its
    buffer (position plus remaining bytes make up the buffer, in a ring of
    buffers below 2 GiB), every read that returns leaves the reader inside
    its buffer again, the current one or the next one of the ring, and
    either returns an error or returns no more bytes than were asked for
    and no more than remained in the buffer, so that the copy to user
    space never goes past the end of the buffer; every relative seek that
    returns leaves the reader inside its buffer as well. *)
Theorem reader_stays_within_buffer (r : logic_buffer_reader)
    (d : beaglelogicdev) :
  reader_within r d ->
  (forall (E : environment) (nonblock : bool) (sz ret : Z)
          (r' : logic_buffer_reader) (d' : beaglelogicdev),
     0 <= sz ->
     beaglelogic_f_read E nonblock sz r d = Done (ret, r', d') ->
     reader_within r' d' /\ (ret < 0 \/ ret <= sz /\ ret <= remaining r)) /\
  (forall (E : environment) (fuel : nat) (offset ret : Z)
          (r' : logic_buffer_reader) (d' : beaglelogicdev),
     beaglelogic_f_llseek E fuel offset SEEK_CUR r d = Done (ret, r', d') ->
     reader_within r' d').
Proof.
  intros Hin. split.
  - intros E nonblock sz ret r' d' Hsz H. unfold beaglelogic_f_read in H.
    destruct (state d =? STATE_BL_ERROR).
    { injection H as <- <- <-. split; [exact Hin|left; reflexivity]. }
    destruct (0 <? pos r); [eapply perform_copy_within; eassumption|].
    assert (Hp : exists p, rd_buf r = Some p).
    { destruct Hin as (l & p & b & _ & _ & _ & Hp & _). eauto. }
    destruct Hp as (p & Hp). rewrite Hp in H.
    destruct (_ && _); cbn [obind] in H.
    { injection H as <- <- <-. split; [exact Hin|].
      pose proof (reader_within_remaining r d Hin). right. lia. }
    unfold read_when_ready in H. destruct nonblock.
    + apply obind_done in H as (b & _ & H). destruct (negb _).
      * injection H as <- <- <-. split; [exact Hin|left; reflexivity].
      * eapply perform_copy_within; eassumption.
    + apply obind_done in H as ([rt d2] & Hwait & H).
      unfold wait_event_interruptible in Hwait.
      apply obind_done in Hwait as ([w d3] & Hsleep & Hwait).
      pose proof (sleep_until_within r _ _ _ _ _ _ Hsleep Hin) as Hin3.
      assert (d2 = d3) by (destruct w; injection Hwait as _ <-; reflexivity).
      subst d3. destruct (negb _).
      * injection H as <- <- <-. split; [exact Hin3|left; reflexivity].
      * eapply perform_copy_within; eassumption.
  - intros E fuel offset ret r' d' H. unfold beaglelogic_f_llseek in H.
    change (SEEK_CUR =? SEEK_CUR) with true in H. cbv iota in H.
    apply obind_done in H as ([r1 d1] & Hloop & H). injection H as _ <- <-.
    eapply llseek_loop_within; eassumption.
Qed.

(** A reader 100 bytes into the first buffer of the example ring. *)
Lemma reader_stays_within_buffer_witness :
  let r := mk_reader (Some 0%nat) 100 3996 in
  let d := example_dev BL_TRIGGERFLAGS_CONTINUOUS STATE_BL_RUNNING true
             STATE_BL_BUF_UNMAPPED STATE_BL_BUF_MAPPED in
  reader_within r d /\
  (forall (E : environment) (nonblock : bool) (sz ret : Z)
          (r' : logic_buffer_reader) (d' : beaglelogicdev),
     0 <= sz ->
     beaglelogic_f_read E nonblock sz r d = Done (ret, r', d') ->
     reader_within r' d' /\ (ret < 0 \/ ret <= sz /\ ret <= remaining r)) /\
  (forall (E : environment) (fuel : nat) (offset ret : Z)
          (r' : logic_buffer_reader) (d' : beaglelogicdev),
     beaglelogic_f_llseek E fuel offset SEEK_CUR r d = Done (ret, r', d') ->
     reader_within r' d').
Proof.
  cbn zeta.
  assert (Hin : reader_within (mk_reader (Some 0%nat) 100 3996)
                  (example_dev BL_TRIGGERFLAGS_CONTINUOUS STATE_BL_RUNNING true
                     STATE_BL_BUF_UNMAPPED STATE_BL_BUF_MAPPED)).
  { exists (example_ring STATE_BL_BUF_UNMAPPED STATE_BL_BUF_MAPPED), 0%nat,
      (mk_logic_buffer 3221225472 2415919104 4096 STATE_BL_BUF_UNMAPPED 0
         (Some 1%nat)).
    split; [reflexivity|]. split; [apply example_ring_sound|].
    split.
    { intros [|[|k]] c; simpl; intros Hc; try discriminate;
        injection Hc as <-; simpl; lia. }
    split; [reflexivity|]. split; [reflexivity|]. simpl. lia. }
  split; [exact Hin|].
  exact (reader_stays_within_buffer _ _ Hin).
Defined.

(** ** Sample unit and trigger flags *)

(** X25: how a sample unit and trigger flags are refused, by interface.
    The range is checked before the lock: a sample unit above 2 (trigger
    flags above 1) is refused with -EINVAL by the sysfs attribute, a value
    in range with -EBUSY while the lock is held, and the ioctl reports
    either refusal as -EFAULT; nothing changes.  With the lock free a
    value in range is stored and both interfaces report success; a sample
    unit of 2, which names no sample width, is in range. *)
Theorem unit_and_flags_refusals_by_interface (E : environment) (A : allocator)
    (arg count : Z) (r : logic_buffer_reader) (d : beaglelogicdev)
    (heap : list dma_region) :
  0 <= arg < 2 ^ 32 ->
  (beaglelogic_f_ioctl E A IOCTL_BL_SET_SAMPLE_UNIT arg r d heap, 
   bl_sampleunit_store (Some arg) count d)
  = (if 2 <? arg then (Done (io_plain (- EFAULT) r d heap), (- EINVAL, d))
     else if mutex d then (Done (io_plain (- EFAULT) r d heap), (- EBUSY, d))
     else (Done (io_plain 0 r (set_sampleunit d arg) heap),
           (count, set_sampleunit d arg))) /\
  (beaglelogic_f_ioctl E A IOCTL_BL_SET_TRIGGER_FLAGS arg r d heap,
   bl_triggerflags_store (Some arg) count d)
  = (if 1 <? arg then (Done (io_plain (- EFAULT) r d heap), (- EINVAL, d))
     else if mutex d then (Done (io_plain (- EFAULT) r d heap), (- EBUSY, d))
     else (Done (io_plain 0 r (set_triggerflags d arg) heap),
           (count, set_triggerflags d arg))).
Proof.
  intros Harg.
  assert (Hio1 : beaglelogic_f_ioctl E A IOCTL_BL_SET_SAMPLE_UNIT arg r d heap =
            let '(ret, d1) := beaglelogic_set_sampleunit d (wrap32 arg) in
            Done (io_plain (if negb (ret =? 0) then - EFAULT else 0) r d1 heap))
    by reflexivity.
  assert (Hio2 : beaglelogic_f_ioctl E A IOCTL_BL_SET_TRIGGER_FLAGS arg r d heap =
            let '(ret, d1) := beaglelogic_set_triggerflags d (wrap32 arg) in
            Done (io_plain (if negb (ret =? 0) then - EFAULT else 0) r d1 heap))
    by reflexivity.
  rewrite Hio1, Hio2, (wrap32_small arg) by lia.
  unfold bl_sampleunit_store, bl_triggerflags_store,
    beaglelogic_set_sampleunit, beaglelogic_set_triggerflags, mutex_trylock.
  split.
  - destruct (2 <? arg); [reflexivity|].
    destruct (mutex d) eqn:Hm; [reflexivity|]. cbv beta iota zeta.
    assert (Hd : mutex_unlock (set_sampleunit (set_mutex d true) arg)
                 = set_sampleunit d arg)
      by (destruct d; simpl in *; subst; reflexivity).
    rewrite Hd. reflexivity.
  - destruct (1 <? arg); [reflexivity|].
    destruct (mutex d) eqn:Hm; [reflexivity|]. cbv beta iota zeta.
    assert (Hd : mutex_unlock (set_triggerflags (set_mutex d true) arg)
                 = set_triggerflags d arg)
      by (destruct d; simpl in *; subst; reflexivity).
    rewrite Hd. reflexivity.
Qed.

(** A sample unit of 2 and trigger flags of 2 on the probed device. *)
Lemma unit_and_flags_refusals_by_interface_witness :
  (beaglelogic_f_ioctl quiet_env good_allocator IOCTL_BL_SET_SAMPLE_UNIT 2
     (mk_reader None 0 0) probed_dev [],
   bl_sampleunit_store (Some 2) 7 probed_dev)
  = (Done (io_plain 0 (mk_reader None 0 0) (set_sampleunit probed_dev 2) []),
     (7, set_sampleunit probed_dev 2)) /\
  (beaglelogic_f_ioctl quiet_env good_allocator IOCTL_BL_SET_TRIGGER_FLAGS 2
     (mk_reader None 0 0) probed_dev [],
   bl_triggerflags_store (Some 2) 7 probed_dev)
  = (Done (io_plain (- EFAULT) (mk_reader None 0 0) probed_dev []),
     (- EINVAL, probed_dev)).
Proof.
  apply (unit_and_flags_refusals_by_interface quiet_env good_allocator 2 7
           (mk_reader None 0 0) probed_dev []).
  lia.
Defined.
